(** * WhatsApp Cloud API channel: webhook gateway, signature check, outbound text

    A shallow embedding of the protocol core of the plugin:
    - [src/crypto.ts]   : [verifyWebhookSignature]
    - [src/webhook.ts]  : the HTTP listener, [handleVerification],
                          [handleIncoming], [processMessage],
                          [extractMessageContent], [normalizePhone]
    - [src/api.ts]      : [sendRequest], [sendText], [splitMessage]

    JavaScript strings are sequences of UTF-16 code units; they are
    modelled as [list Z].  Bytes ([Buffer]) are [list Z] as well.
    Optional fields ([field?: T]) are [option]s.  Side effects (writing the
    HTTP response, logging, invoking the callbacks, calling [fetch]) are
    recorded as lists of events in program order. *)

From Stdlib Require Import String Ascii ZArith List Bool Lia.
Import ListNotations.
Open Scope Z_scope.

(* ====================================================================== *)
(** ** JavaScript strings *)
(* ====================================================================== *)

Module Js.

(** A string value: UTF-16 code units. *)
Definition jsstring := list Z.

(** An ASCII literal of the source, as code units. *)
Definition lit (s : string) : jsstring :=
  map (fun a => Z.of_N (N_of_ascii a)) (list_ascii_of_string s).

(** [s.length] *)
Definition len (s : jsstring) : Z := Z.of_nat (length s).

(** [a === b] on strings. *)
Fixpoint streq (a b : jsstring) : bool :=
  match a, b with
  | [], [] => true
  | x :: a', y :: b' => (x =? y) && streq a' b'
  | _, _ => false
  end.

(** Strings made of ASCII characters only. *)
Definition ascii_only (s : jsstring) : Prop := Forall (fun c => 0 <= c < 128) s.

(** Truthiness of a string: non-empty. *)
Definition truthy (s : jsstring) : bool :=
  match s with [] => false | _ :: _ => true end.

(** ECMAScript WhiteSpace and LineTerminator code points, the set
    removed by [trim], [trimStart] and [trimEnd]. *)
Definition isWhiteSpace (c : Z) : bool :=
  ((9 <=? c) && (c <=? 13)) || (c =? 32) || (c =? 160) || (c =? 5760)
  || ((8192 <=? c) && (c <=? 8202)) || (c =? 8232) || (c =? 8233)
  || (c =? 8239) || (c =? 8287) || (c =? 12288) || (c =? 65279).

Fixpoint trimStart (s : jsstring) : jsstring :=
  match s with
  | [] => []
  | c :: s' => if isWhiteSpace c then trimStart s' else s
  end.

Definition trimEnd (s : jsstring) : jsstring := rev (trimStart (rev s)).

Definition trim (s : jsstring) : jsstring := trimEnd (trimStart s).

(** Relative index resolution of [slice]: a negative index counts from
    the end, and everything is clamped to [0 .. length]. *)
Definition relIndex (l i : Z) : Z :=
  if i <? 0 then Z.max (l + i) 0 else Z.min i l.

(** [s.slice(start, end)] *)
Definition slice (s : jsstring) (start finish : Z) : jsstring :=
  let from := relIndex (len s) start in
  let to := relIndex (len s) finish in
  firstn (Z.to_nat (to - from)) (skipn (Z.to_nat from) s).

(** [s.slice(start)] *)
Definition sliceFrom (s : jsstring) (start : Z) : jsstring :=
  slice s start (len s).

(** [s.lastIndexOf(c, position)] for a one-unit search string [c]: the
    largest index [k <= max(position, 0)] with [s[k] = c], or [-1]. *)
Fixpoint lastIndexOf_scan (s : jsstring) (c : Z) (i start best : Z) : Z :=
  match s with
  | [] => best
  | x :: s' =>
      lastIndexOf_scan s' c (i + 1) start
        (if (x =? c) && (i <=? start) then i else best)
  end.

Definition lastIndexOf (s : jsstring) (c : Z) (position : Z) : Z :=
  lastIndexOf_scan s c 0 (Z.max position 0) (-1).

(** [parts.join(sep)] *)
Fixpoint join (sep : jsstring) (parts : list jsstring) : jsstring :=
  match parts with
  | [] => []
  | [p] => p
  | p :: rest => p ++ sep ++ join sep rest
  end.

(** [a ?? b] *)
Definition nullish {A : Type} (a : option A) (b : A) : A :=
  match a with Some x => x | None => b end.

(** Decimal rendering of a non-negative integer ([String(n)]). *)
Fixpoint decimal_digits (fuel : nat) (n : Z) (acc : jsstring) : jsstring :=
  match fuel with
  | O => acc
  | S fuel' =>
      let acc' := (48 + n mod 10) :: acc in
      if n <? 10 then acc' else decimal_digits fuel' (n / 10) acc'
  end.

Definition decimal (n : Z) : jsstring :=
  decimal_digits (S (Z.to_nat (Z.log2 n))) n [].

End Js.
Import Js.

(* ====================================================================== *)
(** ** node:crypto: HMAC-SHA256 and Buffer *)
(* ====================================================================== *)

Module NodeCrypto.

(** [Buffer.from(str)]: the UTF-8 encoding of a string.  A surrogate
    pair becomes one four-byte sequence; a lone surrogate is replaced
    by U+FFFD (EF BF BD). *)
Definition isHighSurrogate (c : Z) : bool := (55296 <=? c) && (c <=? 56319).
Definition isLowSurrogate (c : Z) : bool := (56320 <=? c) && (c <=? 57343).

Definition utf8_of_codepoint (cp : Z) : list Z :=
  if cp <? 128 then [cp]
  else if cp <? 2048 then
    [Z.lor 192 (Z.shiftr cp 6); Z.lor 128 (Z.land cp 63)]
  else if cp <? 65536 then
    [Z.lor 224 (Z.shiftr cp 12);
     Z.lor 128 (Z.land (Z.shiftr cp 6) 63);
     Z.lor 128 (Z.land cp 63)]
  else
    [Z.lor 240 (Z.shiftr cp 18);
     Z.lor 128 (Z.land (Z.shiftr cp 12) 63);
     Z.lor 128 (Z.land (Z.shiftr cp 6) 63);
     Z.lor 128 (Z.land cp 63)].

Fixpoint Buffer_from (s : jsstring) : list Z :=
  match s with
  | [] => []
  | c :: s' =>
      if isHighSurrogate c then
        match s' with
        | d :: s'' =>
            if isLowSurrogate d then
              utf8_of_codepoint (65536 + (c - 55296) * 1024 + (d - 56320))
                ++ Buffer_from s''
            else [239; 191; 189] ++ Buffer_from s'
        | [] => [239; 191; 189]
        end
      else if isLowSurrogate c then [239; 191; 189] ++ Buffer_from s'
      else utf8_of_codepoint c ++ Buffer_from s'
  end.

(** *** SHA-256 (FIPS 180-4) on 32-bit words held in [Z]. *)

Definition w32 (x : Z) : Z := Z.land x 4294967295.
Definition add32 (x y : Z) : Z := w32 (x + y).
Definition rotr (n x : Z) : Z :=
  Z.lor (Z.shiftr x n) (w32 (Z.shiftl x (32 - n))).
Definition Ch (x y z : Z) : Z :=
  Z.lxor (Z.land x y) (Z.land (Z.lxor x 4294967295) z).
Definition Maj (x y z : Z) : Z :=
  Z.lxor (Z.lxor (Z.land x y) (Z.land x z)) (Z.land y z).
Definition Sigma0 (x : Z) : Z := Z.lxor (Z.lxor (rotr 2 x) (rotr 13 x)) (rotr 22 x).
Definition Sigma1 (x : Z) : Z := Z.lxor (Z.lxor (rotr 6 x) (rotr 11 x)) (rotr 25 x).
Definition sigma0 (x : Z) : Z := Z.lxor (Z.lxor (rotr 7 x) (rotr 18 x)) (Z.shiftr x 3).
Definition sigma1 (x : Z) : Z := Z.lxor (Z.lxor (rotr 17 x) (rotr 19 x)) (Z.shiftr x 10).

(** The round constants and the initial hash value are defined as FIPS
    180-4 defines them: the first 32 bits of the fractional parts of the
    cube roots of the first 64 primes, and of the square roots of the
    first 8. *)
Definition isPrime (p : Z) : bool :=
  forallb (fun d => negb (p mod Z.of_nat d =? 0)) (seq 2 (Z.to_nat p - 2)).

Definition firstPrimes : list Z :=
  Eval vm_compute in filter isPrime (map Z.of_nat (seq 2 310)).

(** Integer cube root, one bit at a time from bit [n - 1] down. *)
Fixpoint cubeRoot_bits (n : nat) (x r : Z) : Z :=
  match n with
  | O => r
  | S n' =>
      let r' := r + 2 ^ Z.of_nat n' in
      cubeRoot_bits n' x (if r' * r' * r' <=? x then r' else r)
  end.

Definition fractionalCubeRoot32 (p : Z) : Z := w32 (cubeRoot_bits 36 (p * 2 ^ 96) 0).
Definition fractionalSquareRoot32 (p : Z) : Z := w32 (Z.sqrt (p * 2 ^ 64)).

Definition K256 : list Z :=
  Eval vm_compute in map fractionalCubeRoot32 firstPrimes.

Definition H256_init : list Z :=
  Eval vm_compute in map fractionalSquareRoot32 (firstn 8 firstPrimes).

(** Big-endian words of a byte list (length a multiple of 4). *)
Fixpoint words_of_bytes (bs : list Z) : list Z :=
  match bs with
  | a :: b :: c :: d :: rest =>
      (Z.shiftl a 24 + Z.shiftl b 16 + Z.shiftl c 8 + d) :: words_of_bytes rest
  | _ => []
  end.

Definition bytes_of_word (w : Z) : list Z :=
  [Z.land (Z.shiftr w 24) 255; Z.land (Z.shiftr w 16) 255;
   Z.land (Z.shiftr w 8) 255; Z.land w 255].

(** The message schedule, newest word first: [ws] holds W[t-1], W[t-2], ... *)
Fixpoint schedule (n : nat) (ws : list Z) : list Z :=
  match n with
  | O => ws
  | S n' =>
      let w := add32 (add32 (sigma1 (nth 1 ws 0)) (nth 6 ws 0))
                     (add32 (sigma0 (nth 14 ws 0)) (nth 15 ws 0)) in
      schedule n' (w :: ws)
  end.

Definition round (st : list Z) (kw : Z * Z) : list Z :=
  match st with
  | [a; b; c; d; e; f; g; h] =>
      let t1 := add32 (add32 (add32 h (Sigma1 e)) (add32 (Ch e f g) (fst kw))) (snd kw) in
      let t2 := add32 (Sigma0 a) (Maj a b c) in
      [add32 t1 t2; a; b; c; add32 d t1; e; f; g]
  | _ => st
  end.

Definition compress (st : list Z) (block : list Z) : list Z :=
  let ws := rev (schedule 48 (rev (words_of_bytes block))) in
  let st' := fold_left round (combine K256 ws) st in
  map (fun p => add32 (fst p) (snd p)) (combine st st').

Fixpoint blocks (fuel : nat) (bs : list Z) : list (list Z) :=
  match fuel, bs with
  | _, [] => []
  | O, _ => []
  | S fuel', _ => firstn 64 bs :: blocks fuel' (skipn 64 bs)
  end.

Definition be64 (n : Z) : list Z :=
  bytes_of_word (Z.shiftr n 32) ++ bytes_of_word (w32 n).

Definition pad (msg : list Z) : list Z :=
  let l := Z.of_nat (length msg) in
  let zeros := Z.to_nat ((55 - l) mod 64) in
  msg ++ [128] ++ repeat 0 zeros ++ be64 (8 * l).

Definition sha256 (msg : list Z) : list Z :=
  let p := pad msg in
  flat_map bytes_of_word (fold_left compress (blocks (length p) p) H256_init).

(** *** HMAC (RFC 2104) with SHA-256. *)

Definition hmac_sha256 (key msg : list Z) : list Z :=
  let k0 := if 64 <? Z.of_nat (length key) then sha256 key else key in
  let k := k0 ++ repeat 0 (64 - length k0) in
  sha256 (map (Z.lxor 92) k ++ sha256 (map (Z.lxor 54) k ++ msg)).

Definition hexDigit (n : Z) : Z := if n <? 10 then 48 + n else 87 + n.

(** [digest("hex")]: two lowercase hex digits per byte. *)
Definition hex (bs : list Z) : jsstring :=
  flat_map (fun b => [hexDigit (Z.shiftr b 4); hexDigit (Z.land b 15)]) bs.

(** [createHmac("sha256", key).update(data).digest("hex")]; string
    arguments are taken in their UTF-8 encoding. *)
Definition createHmac_sha256_hex (key data : jsstring) : jsstring :=
  hex (hmac_sha256 (Buffer_from key) (Buffer_from data)).

(** [timingSafeEqual(a, b)]: throws ([None]) when the lengths differ;
    otherwise folds the XOR of every pair of bytes and compares the
    accumulator with zero once, at the end. *)
Fixpoint xor_accumulate (a b : list Z) (acc : Z) : Z :=
  match a, b with
  | x :: a', y :: b' => xor_accumulate a' b' (Z.lor acc (Z.lxor x y))
  | _, _ => acc
  end.

Definition timingSafeEqual (a b : list Z) : option bool :=
  if Nat.eqb (length a) (length b)
  then Some (xor_accumulate a b 0 =? 0)
  else None.

End NodeCrypto.
Import NodeCrypto.

(* ====================================================================== *)
(** ** src/crypto.ts *)
(* ====================================================================== *)

Module Crypto.

(** [verifyWebhookSignature(rawBody, signatureHeader, appSecret)].
    [signatureHeader : string | undefined] is an [option]. *)
Definition verifyWebhookSignature
    (rawBody : jsstring) (signatureHeader : option jsstring)
    (appSecret : jsstring) : bool :=
  match signatureHeader with
  | None => false
  | Some signatureHeader =>
      if negb (truthy signatureHeader) || negb (truthy appSecret) then false
      else
        let expectedSignature :=
          lit "sha256=" ++ createHmac_sha256_hex appSecret rawBody in
        (* try { ... } catch { return false; } *)
        let sigBuffer := Buffer_from signatureHeader in
        let expectedBuffer := Buffer_from expectedSignature in
        if negb (Nat.eqb (length sigBuffer) (length expectedBuffer)) then false
        else
          match timingSafeEqual sigBuffer expectedBuffer with
          | Some r => r
          | None => false
          end
  end.

(** [sign(body, secret)] of [src/__tests__/crypto.test.ts]: the header
    value the provider attaches. *)
Definition sign (body secret : jsstring) : jsstring :=
  lit "sha256=" ++ createHmac_sha256_hex secret body.

End Crypto.
Import Crypto.

(* ====================================================================== *)
(** ** src/types.ts *)
(* ====================================================================== *)

Module Types.

(** A JSON number, carried as its [String(n)] rendering: the code only
    ever interpolates these into strings. *)
Definition jsnumber := jsstring.

Inductive DmPolicy := policy_open | policy_allowlist.

(** The four methods of [Logger]. *)
Inductive LogLevel := LInfo | LWarn | LError | LDebug.

Record WhatsAppCloudConfig := {
  enabled : bool;
  phoneNumberId : jsstring;
  businessAccountId : jsstring;
  accessToken : jsstring;
  appSecret : jsstring;
  verifyToken : jsstring;
  webhookPort : Z;
  webhookPath : jsstring;
  apiVersion : jsstring;
  dmPolicy : DmPolicy;
  allowFrom : list jsstring;
  sendReadReceipts : bool
}.

Record WebhookContact := {
  profile_name : jsstring;               (* profile: { name } *)
  wa_id : jsstring
}.

Record MediaObject := {
  media_id : jsstring;
  mime_type : jsstring;
  sha256_field : option jsstring;
  caption : option jsstring
}.

(** [MediaObject & { filename?: string }] *)
Record DocumentObject := {
  doc_media : MediaObject;
  filename : option jsstring
}.

Record LocationObject := {
  latitude : jsnumber;
  longitude : jsnumber;
  loc_name : option jsstring;
  address : option jsstring
}.

Record ContactCard := {
  formatted_name : jsstring;             (* name: { formatted_name } *)
  phones : option (list jsstring)
}.

Record ReplyObject := {
  reply_id : jsstring;
  reply_title : jsstring;
  reply_description : option jsstring
}.

Record InteractiveObject := {
  interactive_type : jsstring;
  button_reply : option ReplyObject;
  list_reply : option ReplyObject
}.

Record ButtonObject := {
  button_text : jsstring;
  button_payload : jsstring
}.

Record ContextObject := {
  context_from : jsstring;
  context_id : jsstring
}.

(** [IncomingMessage]; [type] is kept as a string, since the code has a
    [default] branch that renders it. *)
Record IncomingMessage := {
  msg_from : jsstring;
  msg_id : jsstring;
  msg_timestamp : jsstring;
  msg_type : jsstring;
  msg_text : option jsstring;            (* text?: { body } *)
  msg_image : option MediaObject;
  msg_audio : option MediaObject;
  msg_video : option MediaObject;
  msg_document : option DocumentObject;
  msg_sticker : option MediaObject;
  msg_location : option LocationObject;
  msg_contacts : option (list ContactCard);
  msg_interactive : option InteractiveObject;
  msg_button : option ButtonObject;
  msg_context : option ContextObject
}.

Record WebhookError := {
  err_code : jsnumber;
  err_title : jsstring;
  err_message : jsstring
}.

Record MessageStatus := {
  status_id : jsstring;
  status_status : jsstring;
  status_timestamp : jsstring;
  recipient_id : jsstring;
  status_errors : option (list WebhookError)
}.

(** [messaging_product] and [metadata] are never read and are left out. *)
Record WebhookValue := {
  value_contacts : option (list WebhookContact);
  value_messages : option (list IncomingMessage);
  value_statuses : option (list MessageStatus);
  value_errors : option (list WebhookError)
}.

Record WebhookChange := {
  change_value : WebhookValue;
  change_field : jsstring
}.

Record WebhookEntry := {
  entry_id : jsstring;
  entry_changes : list WebhookChange
}.

(** [object] is kept as a string: the handler tests it. *)
Record WebhookPayload := {
  payload_object : jsstring;
  payload_entry : list WebhookEntry
}.

Record SendResult := {
  ok : bool;
  sent_messageId : option jsstring;      (* messageId?: string *)
  error : option jsstring
}.

Record SendTextRequest := {
  messaging_product : jsstring;
  recipient_type : jsstring;
  to : jsstring;
  req_type : jsstring;
  preview_url : bool;                    (* text: { preview_url, body } *)
  body : jsstring
}.

End Types.
Import Types.

(* ====================================================================== *)
(** ** src/webhook.ts *)
(* ====================================================================== *)

Module Webhook.

(** Non-ASCII characters of the source's string literals. *)
Definition EM_DASH : jsstring := [8212].            (* U+2014 *)
Definition LEFT_ARROW : jsstring := [8592].         (* U+2190 *)
Definition ELLIPSIS : jsstring := [8230].           (* U+2026 *)
Definition CAMERA : jsstring := [55357; 56567].     (* U+1F4F7 *)
Definition MUSICAL_NOTE : jsstring := [55356; 57269]. (* U+1F3B5 *)
Definition CLAPPER : jsstring := [55356; 57260].    (* U+1F3AC *)
Definition PAGE : jsstring := [55357; 56516].       (* U+1F4C4 *)
Definition PUSHPIN : jsstring := [55357; 56525].    (* U+1F4CD *)
Definition DQUOTE : jsstring := [34].

(** *** Public types *)

Record MediaInfo := {
  id : jsstring;
  mimeType : jsstring;
  media_caption : option jsstring;
  media_filename : option jsstring
}.

Inductive ReplyType := button_reply_t | list_reply_t.

Record InteractiveReply := {
  ir_id : jsstring;
  title : jsstring;
  ir_type : ReplyType
}.

Record ParsedInboundMessage := {
  from : jsstring;
  senderName : jsstring;
  text : jsstring;
  messageId : jsstring;
  timestamp : jsstring;
  type : jsstring;
  media : option MediaInfo;
  interactiveReply : option InteractiveReply;
  quotedMessageId : option jsstring
}.

Record ExtractedContent := {
  ec_text : jsstring;
  ec_media : option MediaInfo;
  ec_interactiveReply : option InteractiveReply
}.

(** *** Observable effects of the listener, in program order. *)

Inductive Event :=
| WriteHead (status : Z) (contentType : option jsstring)
| End_ (responseBody : jsstring)                       (* res.end(body) *)
| Log (level : LogLevel) (message : jsstring)
| MarkAsRead (message_id : jsstring)                   (* markAsRead(config, id, log), not awaited *)
| OnMessage (message : ParsedInboundMessage)           (* onMessage(inbound) *)
| OnStatus (message_id status recipientId : jsstring)  (* onStatus(id, status, recipient_id) *)
| Unmodelled.                                          (* see [ParseResult] *)

(** The request as the handler sees it once [new URL] has returned:
    method, [url.pathname], [url.searchParams] (an association list, first
    match wins), the [x-hub-signature-256] header and the body chunks of
    the stream. *)
Record HttpRequest := {
  method : jsstring;
  pathname : jsstring;
  searchParams : list (jsstring * jsstring);
  x_hub_signature_256 : option jsstring;
  chunks : list jsstring
}.

(** [url.searchParams.get(name)] *)
Fixpoint searchParams_get (params : list (jsstring * jsstring)) (name : jsstring)
  : option jsstring :=
  match params with
  | [] => None
  | (k, v) :: rest => if streq k name then Some v else searchParams_get rest name
  end.

(** [x === s] for [x : string | null]. *)
Definition opt_streq (x : option jsstring) (s : jsstring) : bool :=
  match x with Some v => streq v s | None => false end.

(** Truthiness of [x : string | null]. *)
Definition opt_truthy (x : option jsstring) : bool :=
  match x with Some v => truthy v | None => false end.

(** *** Helpers *)

(** [phone.replace(/[^0-9]/g, "")] *)
Definition isDigit (c : Z) : bool := (48 <=? c) && (c <=? 57).

Definition normalizePhone (phone : jsstring) : jsstring := filter isDigit phone.

(** *** Content extraction *)

Definition mediaOf (m : MediaObject) (withCaption : bool) : MediaInfo :=
  {| id := media_id m; mimeType := mime_type m;
     media_caption := if withCaption then caption m else None;
     media_filename := None |}.

Definition extractMessageContent (msg : IncomingMessage) : ExtractedContent :=
  let t := msg_type msg in
  if streq t (lit "text") then
    {| ec_text := nullish (msg_text msg) [];
       ec_media := None; ec_interactiveReply := None |}
  else if streq t (lit "image") then
    {| ec_text := nullish (match msg_image msg with Some i => caption i | None => None end)
                          (lit "[" ++ CAMERA ++ lit " Image]");
       ec_media := option_map (fun i => mediaOf i true) (msg_image msg);
       ec_interactiveReply := None |}
  else if streq t (lit "audio") then
    {| ec_text := lit "[" ++ MUSICAL_NOTE ++ lit " Audio message]";
       ec_media := option_map (fun a => mediaOf a false) (msg_audio msg);
       ec_interactiveReply := None |}
  else if streq t (lit "video") then
    {| ec_text := nullish (match msg_video msg with Some v => caption v | None => None end)
                          (lit "[" ++ CLAPPER ++ lit " Video]");
       ec_media := option_map (fun v => mediaOf v true) (msg_video msg);
       ec_interactiveReply := None |}
  else if streq t (lit "document") then
    {| ec_text :=
         nullish (match msg_document msg with Some d => caption (doc_media d) | None => None end)
                 (lit "[" ++ PAGE ++ lit " Document: "
                  ++ nullish (match msg_document msg with Some d => filename d | None => None end)
                             (lit "file")
                  ++ lit "]");
       ec_media :=
         option_map (fun d => {| id := media_id (doc_media d);
                                 mimeType := mime_type (doc_media d);
                                 media_caption := caption (doc_media d);
                                 media_filename := filename d |})
                    (msg_document msg);
       ec_interactiveReply := None |}
  else if streq t (lit "sticker") then
    {| ec_text := lit "[Sticker]";
       ec_media := option_map (fun s => mediaOf s false) (msg_sticker msg);
       ec_interactiveReply := None |}
  else if streq t (lit "location") then
    {| ec_text :=
         match msg_location msg with
         | Some l =>
             trim (lit "[" ++ PUSHPIN ++ lit " Location: "
                   ++ nullish (loc_name l) [] ++ lit " "
                   ++ nullish (address l) (latitude l ++ lit "," ++ longitude l)
                   ++ lit "]")
         | None => lit "[" ++ PUSHPIN ++ lit " Location]"
         end;
       ec_media := None; ec_interactiveReply := None |}
  else if streq t (lit "contacts") then
    {| ec_text :=
         match msg_contacts msg with
         | Some cs => lit "[Contact: " ++ join (lit ", ") (map formatted_name cs) ++ lit "]"
         | None => lit "[Contact]"
         end;
       ec_media := None; ec_interactiveReply := None |}
  else if streq t (lit "interactive") then
    let reply := msg_interactive msg in
    match reply with
    | Some r =>
        match (if streq (interactive_type r) (lit "button_reply")
               then button_reply r else None) with
        | Some b =>
            {| ec_text := reply_title b; ec_media := None;
               ec_interactiveReply :=
                 Some {| ir_id := reply_id b; title := reply_title b;
                         ir_type := button_reply_t |} |}
        | None =>
            match (if streq (interactive_type r) (lit "list_reply")
                   then list_reply r else None) with
            | Some l =>
                {| ec_text := reply_title l; ec_media := None;
                   ec_interactiveReply :=
                     Some {| ir_id := reply_id l; title := reply_title l;
                             ir_type := list_reply_t |} |}
            | None =>
                {| ec_text := lit "[Interactive message]";
                   ec_media := None; ec_interactiveReply := None |}
            end
        end
    | None =>
        {| ec_text := lit "[Interactive message]";
           ec_media := None; ec_interactiveReply := None |}
    end
  else if streq t (lit "button") then
    {| ec_text := nullish (option_map button_text (msg_button msg)) (lit "[Button]");
       ec_media := None; ec_interactiveReply := None |}
  else
    {| ec_text := lit "[" ++ t ++ lit " message " ++ EM_DASH ++ lit " not yet supported]";
       ec_media := None; ec_interactiveReply := None |}.

(** *** Parse a single incoming message *)

Definition processMessage
    (msg : IncomingMessage) (contacts : list WebhookContact)
    (config : WhatsAppCloudConfig) : list Event :=
  (* Access control *)
  let blocked :=
    match dmPolicy config with
    | policy_allowlist =>
        let normalized := normalizePhone (msg_from msg) in
        let allowed :=
          existsb (fun n => streq (normalizePhone n) normalized) (allowFrom config) in
        negb allowed
    | policy_open => false
    end in
  if blocked then
    [Log LInfo (lit "[whatsapp-cloud] Blocked message from " ++ msg_from msg
                ++ lit " (not in allowlist)")]
  else
    (* Resolve sender name *)
    let contact := find (fun c => streq (wa_id c) (msg_from msg)) contacts in
    let senderName := nullish (option_map profile_name contact) (msg_from msg) in
    (* Extract text and media *)
    let parsed := extractMessageContent msg in
    let inbound :=
      {| from := msg_from msg;
         senderName := senderName;
         text := ec_text parsed;
         messageId := msg_id msg;
         timestamp := msg_timestamp msg;
         type := msg_type msg;
         media := ec_media parsed;
         interactiveReply := ec_interactiveReply parsed;
         quotedMessageId := option_map context_id (msg_context msg) |} in
    [Log LInfo (lit "[whatsapp-cloud] " ++ LEFT_ARROW ++ lit " " ++ senderName
                ++ lit " (" ++ msg_from msg ++ lit "): "
                ++ slice (text inbound) 0 100
                ++ (if 100 <? len (text inbound) then ELLIPSIS else []))]
    (* Send read receipt *)
    ++ (if sendReadReceipts config then [MarkAsRead (msg_id msg)] else [])
    (* Dispatch *)
    ++ [OnMessage inbound].

(** *** GET: webhook verification challenge *)

Definition handleVerification
    (params : list (jsstring * jsstring)) (config : WhatsAppCloudConfig)
  : list Event :=
  let mode := searchParams_get params (lit "hub.mode") in
  let token := searchParams_get params (lit "hub.verify_token") in
  let challenge := searchParams_get params (lit "hub.challenge") in
  if opt_streq mode (lit "subscribe")
     && opt_streq token (verifyToken config)
     && opt_truthy challenge
  then
    [Log LInfo (lit "[whatsapp-cloud] Webhook verification successful");
     WriteHead 200 (Some (lit "text/plain"));
     End_ (nullish challenge [])]
  else
    [Log LWarn (lit "[whatsapp-cloud] Webhook verification failed " ++ EM_DASH
                ++ lit " token mismatch");
     WriteHead 403 None;
     End_ (lit "Forbidden")].

(** *** POST: process incoming webhook events *)

(** The outcome of [JSON.parse(rawBody) as WebhookPayload]: a
    [SyntaxError] (with its rendering [`${err}`]), a value of the declared
    type, or a value outside it.  What the handler does with a value
    outside its declared input type is not modelled: the trace then ends
    in [Unmodelled]. *)
Inductive ParseResult :=
| ParseThrows (err : jsstring)
| Parsed (payload : WebhookPayload)
| ParsedUntyped.

(** The request as [node:http] hands it to the listener: [req.method],
    [req.url], the [host] and [x-hub-signature-256] headers and the body
    chunks of the stream. *)
Record IncomingRequest := {
  req_method : jsstring;
  req_url : option jsstring;
  req_host : option jsstring;
  req_x_hub_signature_256 : option jsstring;
  req_chunks : list jsstring
}.

(** The outcome of [new URL(input, base)]: a [TypeError] for an input
    that does not parse against the base (["//"] is one), or the URL, of
    which the listener reads [pathname] and [searchParams]. *)
Inductive UrlResult :=
| UrlThrows
| UrlParsed (path : jsstring) (params : list (jsstring * jsstring)).

Section Listener.

Variable JSON_parse : jsstring -> ParseResult.

Definition processChange
    (change : WebhookChange) (config : WhatsAppCloudConfig)
    (onStatus : bool) : list Event :=
  if negb (streq (change_field change) (lit "messages")) then []
  else
    let messages := value_messages (change_value change) in
    let contacts := value_contacts (change_value change) in
    let statuses := value_statuses (change_value change) in
    let errors := value_errors (change_value change) in
    (* Log errors *)
    map (fun err =>
           Log LError (lit "[whatsapp-cloud] Webhook error " ++ err_code err
                       ++ lit ": " ++ err_title err ++ lit " " ++ EM_DASH
                       ++ lit " " ++ err_message err))
        (nullish errors [])
    (* Process status updates *)
    ++ (if onStatus
        then map (fun status =>
                    OnStatus (status_id status) (status_status status)
                             (recipient_id status))
                 (nullish statuses [])
        else [])
    (* Process incoming messages *)
    ++ flat_map (fun msg => processMessage msg (nullish contacts []) config)
                (nullish messages []).

Definition handleIncoming
    (req : HttpRequest) (config : WhatsAppCloudConfig) (onStatus : bool)
  : list Event :=
  (* Read body *)
  let rawBody := concat (chunks req) in
  (* Always respond 200 quickly *)
  [WriteHead 200 (Some (lit "text/plain")); End_ (lit "OK")]
  ++
  (* Verify signature (skip if appSecret not configured) *)
  if truthy (appSecret config)
     && negb (verifyWebhookSignature rawBody (x_hub_signature_256 req)
                                     (appSecret config))
  then
    [Log LWarn (lit "[whatsapp-cloud] Webhook signature verification FAILED "
                ++ EM_DASH ++ lit " ignoring payload")]
  else
    (if truthy (appSecret config) then []
     else [Log LDebug (lit "[whatsapp-cloud] No appSecret configured " ++ EM_DASH
                       ++ lit " skipping signature verification (NOT safe for production)")])
    ++
    (* Parse and process *)
    match JSON_parse rawBody with
    | ParseThrows err =>
        [Log LError (lit "[whatsapp-cloud] Failed to parse webhook JSON: " ++ err)]
    | ParsedUntyped => [Unmodelled]
    | Parsed payload =>
        if negb (streq (payload_object payload) (lit "whatsapp_business_account"))
        then
          [Log LDebug (lit "[whatsapp-cloud] Ignoring non-WhatsApp webhook object: "
                       ++ payload_object payload)]
        else
          flat_map (fun entry =>
                      flat_map (fun change => processChange change config onStatus)
                               (entry_changes entry))
                   (payload_entry payload)
    end.

(** The request listener of [startWebhookServer] from
    [const path = url.pathname] on, that is for a request whose URL has
    parsed; [onStatus] tells whether a status handler was registered. *)
Definition server
    (config : WhatsAppCloudConfig) (onStatus : bool) (req : HttpRequest)
  : list Event :=
  if streq (method req) (lit "GET") && streq (pathname req) (webhookPath config)
  then handleVerification (searchParams req) config
  else if streq (method req) (lit "POST") && streq (pathname req) (webhookPath config)
  then handleIncoming req config onStatus
  else if streq (method req) (lit "GET") && streq (pathname req) (lit "/health")
  then
    [WriteHead 200 (Some (lit "application/json"));
     End_ (lit "{" ++ DQUOTE ++ lit "status" ++ DQUOTE ++ lit ":"
           ++ DQUOTE ++ lit "ok" ++ DQUOTE ++ lit ","
           ++ DQUOTE ++ lit "channel" ++ DQUOTE ++ lit ":"
           ++ DQUOTE ++ lit "whatsapp-cloud" ++ DQUOTE ++ lit "}")]
  else
    [WriteHead 404 None; End_ (lit "Not found")].

Variable URL_parse : jsstring -> jsstring -> UrlResult.

(** The request listener of [startWebhookServer] from its first line,
    [new URL(req.url ?? "/", `http://${req.headers.host ?? "localhost"}`)].
    [None]: [new URL] throws, the listener is left before anything is
    written or logged, and the request stays unanswered. *)
Definition listener
    (config : WhatsAppCloudConfig) (onStatus : bool) (req : IncomingRequest)
  : option (list Event) :=
  match URL_parse (nullish (req_url req) (lit "/"))
                  (lit "http://" ++ nullish (req_host req) (lit "localhost")) with
  | UrlThrows => None
  | UrlParsed path params =>
      Some (server config onStatus
              {| method := req_method req;
                 pathname := path;
                 searchParams := params;
                 x_hub_signature_256 := req_x_hub_signature_256 req;
                 chunks := req_chunks req |})
  end.

End Listener.

End Webhook.
Import Webhook.

(* ====================================================================== *)
(** ** src/api.ts *)
(* ====================================================================== *)

Module Api.

Definition API_BASE : jsstring := lit "https://graph.facebook.com".

Definition apiUrl (config : WhatsAppCloudConfig) (path : jsstring) : jsstring :=
  API_BASE ++ lit "/" ++ apiVersion config ++ lit "/" ++ path.

Record Headers := {
  Authorization : jsstring;
  Content_Type : jsstring
}.

Definition headers (config : WhatsAppCloudConfig) : Headers :=
  {| Authorization := lit "Bearer " ++ accessToken config;
     Content_Type := lit "application/json" |}.

(** The arguments of one [fetch] call.  The body is kept structured
    ([JSON.stringify] is not applied). *)
Record FetchRequest := {
  fetch_url : jsstring;
  fetch_method : jsstring;
  fetch_headers : Headers;
  fetch_body : SendTextRequest
}.

(** What [response.json()] gives: a rejection (with [err.message]), the
    value [null], or another value, of which the code reads
    [error.message] and [messages[0].id]. *)
Inductive JsonResult :=
| JsonRejects (message : jsstring)
| JsonNull
| JsonValue (error_message : option jsstring) (first_message_id : option jsstring).

(** The message of the [TypeError] that reading [data.messages] throws
    when [data] is [null], in the wording of V8, the engine of Node. *)
Definition READ_OF_NULL : jsstring :=
  lit "Cannot read properties of null (reading 'messages')".

Record Response := {
  response_ok : bool;
  response_status : Z;
  response_statusText : jsstring;
  response_json : JsonResult
}.

(** [fetch] either rejects (network error, with its message) or
    resolves to a response. *)
Inductive FetchResult :=
| FetchRejects (message : jsstring)
| FetchResolves (response : Response).

(** Effects of the client, in program order. *)
Inductive ApiEvent :=
| Fetched (request : FetchRequest)
| Logged (level : LogLevel) (message : jsstring).

Definition World := list ApiEvent.

(** The requests issued in a run. *)
Definition requestsOf (w : World) : list FetchRequest :=
  flat_map (fun e => match e with Fetched r => [r] | Logged _ _ => [] end) w.

(** *** Helpers *)

Definition LINE_FEED : Z := 10.
Definition SPACE : Z := 32.

(** The [while (remaining.length > maxLength)] loop of [splitMessage].
    [fuel] bounds the number of iterations; [None] is an exhausted
    bound.  The comparisons [splitIndex < maxLength * 0.5] and
    [splitIndex < maxLength * 0.3] between an integer and a product
    with a decimal constant are written over the integers. *)
Fixpoint splitMessage_loop (fuel : nat) (maxLength : Z)
    (remaining : jsstring) (chunks : list jsstring)
  : option (list jsstring * jsstring) :=
  if maxLength <? len remaining then
    match fuel with
    | O => None
    | S fuel' =>
        (* Find last newline or space before the limit *)
        let splitIndex := lastIndexOf remaining LINE_FEED maxLength in
        let splitIndex :=
          if 2 * splitIndex <? maxLength
          then lastIndexOf remaining SPACE maxLength else splitIndex in
        let splitIndex :=
          if 10 * splitIndex <? 3 * maxLength
          then maxLength (* hard split *) else splitIndex in
        splitMessage_loop fuel' maxLength
          (trimStart (sliceFrom remaining splitIndex))
          (chunks ++ [trimEnd (slice remaining 0 splitIndex)])
    end
  else Some (chunks, remaining).

(** [splitMessage(text, maxLength)].  An iteration that does not
    shorten [remaining] repeats forever, so [text.length] iterations
    are enough whenever the loop ends at all. *)
Definition splitMessage (text : jsstring) (maxLength : Z) : option (list jsstring) :=
  if len text <=? maxLength then Some [text]
  else
    match splitMessage_loop (length text) maxLength text [] with
    | Some (chunks, remaining) =>
        Some (if 0 <? len remaining then chunks ++ [remaining] else chunks)
    | None => None
    end.

Section Client.

(** The remote end: the outcome of a [fetch] call, which may depend
    on everything done before it. *)
Variable fetch : World -> FetchRequest -> FetchResult.

(** *** Core send function *)

Definition sendRequest
    (config : WhatsAppCloudConfig) (body : SendTextRequest) (w : World)
  : SendResult * World :=
  let url := apiUrl config (phoneNumberId config ++ lit "/messages") in
  let request :=
    {| fetch_url := url; fetch_method := lit "POST";
       fetch_headers := headers config; fetch_body := body |} in
  let networkError errorMsg :=
    ({| ok := false; sent_messageId := None; error := Some errorMsg |},
     w ++ [Fetched request;
           Logged LError (lit "[whatsapp-cloud] Network error: " ++ errorMsg)]) in
  match fetch w request with
  | FetchRejects errorMsg => networkError errorMsg
  | FetchResolves response =>
      if negb (response_ok response) then
        let errorMsg :=
          nullish
            (match response_json response with
             | JsonValue m _ => m
             | JsonRejects _ | JsonNull => None
             end)
            (lit "HTTP " ++ decimal (response_status response) ++ lit " "
             ++ response_statusText response) in
        ({| ok := false; sent_messageId := None; error := Some errorMsg |},
         w ++ [Fetched request;
               Logged LError (lit "[whatsapp-cloud] API error: " ++ errorMsg)])
      else
        match response_json response with
        | JsonRejects errorMsg => networkError errorMsg
        | JsonNull => networkError READ_OF_NULL
        | JsonValue _ first_id =>
            ({| ok := true; sent_messageId := first_id; error := None |},
             w ++ [Fetched request])
        end
  end.

(** *** Text messages *)

Definition textRequest (to chunk : jsstring) : SendTextRequest :=
  {| messaging_product := lit "whatsapp";
     recipient_type := lit "individual";
     to := to;
     req_type := lit "text";
     preview_url := false;
     body := chunk |}.

(** The [for (const chunk of chunks)] loop of [sendText]; each
    request is awaited before the next one is built. *)
Fixpoint sendText_loop (config : WhatsAppCloudConfig) (to : jsstring)
    (chunks : list jsstring) (lastResult : SendResult) (w : World)
  : SendResult * World :=
  match chunks with
  | [] => (lastResult, w)
  | chunk :: rest =>
      let (lastResult', w') := sendRequest config (textRequest to chunk) w in
      if negb (ok lastResult') then (lastResult', w')
      else sendText_loop config to rest lastResult' w'
  end.

Definition NO_CHUNKS : SendResult :=
  {| ok := false; sent_messageId := None; error := Some (lit "No chunks") |}.

(** [sendText(config, to, text, log)]; [None] when [splitMessage]
    does not return. *)
Definition sendText (config : WhatsAppCloudConfig) (to text : jsstring) (w : World)
  : option (SendResult * World) :=
  match splitMessage text 4096 with
  | Some chunks => Some (sendText_loop config to chunks NO_CHUNKS w)
  | None => None
  end.

(** Sending a list of chunks one after the other, each request awaited,
    without looking at the results: the run against which the loop of
    [sendText] is described. *)
Fixpoint sendEach (config : WhatsAppCloudConfig) (to : jsstring)
    (chunks : list jsstring) (w : World) : list SendResult * World :=
  match chunks with
  | [] => ([], w)
  | chunk :: rest =>
      let (r, w') := sendRequest config (textRequest to chunk) w in
      let (rs, w'') := sendEach config to rest w' in
      (r :: rs, w'')
  end.

End Client.

End Api.
Import Api.

(* ====================================================================== *)
(** ** Observations on traces, and the fixtures of the test suites *)
(* ====================================================================== *)

Module Observe.

(** What was written to the HTTP response. *)
Definition responseOf (trace : list Event) : list Event :=
  filter (fun e => match e with WriteHead _ _ | End_ _ => true | _ => false end) trace.

(** The messages handed to [onMessage], in order. *)
Definition dispatched (trace : list Event) : list ParsedInboundMessage :=
  flat_map (fun e => match e with OnMessage m => [m] | _ => [] end) trace.

(** The [fetch] call that [sendRequest] makes for the text request of a chunk. *)
Definition textFetch (config : WhatsAppCloudConfig) (to_ chunk : jsstring) : FetchRequest :=
  {| fetch_url := apiUrl config (phoneNumberId config ++ lit "/messages");
     fetch_method := lit "POST";
     fetch_headers := headers config;
     fetch_body := textRequest to_ chunk |}.

End Observe.
Import Observe.

Module Fixtures.

(** [makeConfig] of [src/__tests__/webhook.test.ts]. *)
Definition APP_SECRET : jsstring := lit "test_secret_for_webhook".

Definition makeConfig : WhatsAppCloudConfig :=
  {| enabled := true;
     phoneNumberId := lit "111222333";
     businessAccountId := lit "444555666";
     accessToken := lit "test_token";
     appSecret := APP_SECRET;
     verifyToken := lit "test-verify";
     webhookPort := 13100;
     webhookPath := lit "/webhook/whatsapp-cloud";
     apiVersion := lit "v21.0";
     dmPolicy := policy_open;
     allowFrom := [];
     sendReadReceipts := false |}.

(** [makeConfig({ dmPolicy: "allowlist", allowFrom })] *)
Definition makeAllowlistConfig (allowed : list jsstring) : WhatsAppCloudConfig :=
  {| enabled := true;
     phoneNumberId := lit "111222333";
     businessAccountId := lit "444555666";
     accessToken := lit "test_token";
     appSecret := APP_SECRET;
     verifyToken := lit "test-verify";
     webhookPort := 13100;
     webhookPath := lit "/webhook/whatsapp-cloud";
     apiVersion := lit "v21.0";
     dmPolicy := policy_allowlist;
     allowFrom := allowed;
     sendReadReceipts := false |}.

(** A message of the given type with every optional field missing. *)
Definition bareMessage (sender type_ : jsstring) : IncomingMessage :=
  {| msg_from := sender; msg_id := lit "wamid.test123";
     msg_timestamp := lit "1700000000"; msg_type := type_;
     msg_text := None; msg_image := None; msg_audio := None;
     msg_video := None; msg_document := None; msg_sticker := None;
     msg_location := None; msg_contacts := None; msg_interactive := None;
     msg_button := None; msg_context := None |}.

(** The message of [makeTextPayload(from, text)]. *)
Definition textMessage (sender text_ : jsstring) : IncomingMessage :=
  {| msg_from := sender; msg_id := lit "wamid.test123";
     msg_timestamp := lit "1700000000"; msg_type := lit "text";
     msg_text := Some text_; msg_image := None; msg_audio := None;
     msg_video := None; msg_document := None; msg_sticker := None;
     msg_location := None; msg_contacts := None; msg_interactive := None;
     msg_button := None; msg_context := None |}.

(** The message of [makeImagePayload(from, caption?)]. *)
Definition imageMessage (sender : jsstring) (caption_ : option jsstring) : IncomingMessage :=
  {| msg_from := sender; msg_id := lit "wamid.image123";
     msg_timestamp := lit "1700000002"; msg_type := lit "image";
     msg_text := None;
     msg_image := Some {| media_id := lit "media_id_123";
                          mime_type := lit "image/jpeg";
                          sha256_field := Some (lit "abc123");
                          caption := caption_ |};
     msg_audio := None;
     msg_video := None; msg_document := None; msg_sticker := None;
     msg_location := None; msg_contacts := None; msg_interactive := None;
     msg_button := None; msg_context := None |}.

(** The payload wrapping one message, as the [make*Payload] helpers build it. *)
Definition payloadOf (msg : IncomingMessage) : WebhookPayload :=
  {| payload_object := lit "whatsapp_business_account";
     payload_entry :=
       [{| entry_id := lit "BUSINESS_ACCOUNT_ID";
           entry_changes :=
             [{| change_value :=
                   {| value_contacts :=
                        Some [{| profile_name := lit "Test User";
                                 wa_id := msg_from msg |}];
                      value_messages := Some [msg];
                      value_statuses := None;
                      value_errors := None |};
                 change_field := lit "messages" |}] |}] |}.

(** A verification request: [GET <webhookPath>?hub.mode=..&hub.verify_token=..&hub.challenge=..] *)
Definition verificationRequest (mode token challenge : jsstring) : HttpRequest :=
  {| method := lit "GET";
     pathname := lit "/webhook/whatsapp-cloud";
     searchParams := [(lit "hub.mode", mode);
                      (lit "hub.verify_token", token);
                      (lit "hub.challenge", challenge)];
     x_hub_signature_256 := None;
     chunks := [] |}.

(** [postWebhook]: a POST of [rawBody] carrying [signature]. *)
Definition postRequest (rawBody : jsstring) (signature : option jsstring) : HttpRequest :=
  {| method := lit "POST";
     pathname := lit "/webhook/whatsapp-cloud";
     searchParams := [];
     x_hub_signature_256 := signature;
     chunks := [rawBody] |}.

(** A parser that knows one body. *)
Definition parseOnly (rawBody : jsstring) (payload : WebhookPayload)
  : jsstring -> ParseResult :=
  fun s => if streq s rawBody then Parsed payload
           else ParseThrows (lit "SyntaxError").

(** [mockApiSuccess(messageId)] and [mockApiError(code, message)] of
    [src/__tests__/api.test.ts], answering every call. *)
Definition mockApiSuccess (sentId : jsstring) : World -> FetchRequest -> FetchResult :=
  fun _ _ =>
    FetchResolves {| response_ok := true; response_status := 200;
                     response_statusText := lit "OK";
                     response_json := JsonValue None (Some sentId) |}.

Definition mockApiError (code : Z) (message : jsstring)
  : World -> FetchRequest -> FetchResult :=
  fun _ _ =>
    FetchResolves {| response_ok := false; response_status := code;
                     response_statusText := lit "Bad Request";
                     response_json := JsonValue (Some message) None |}.

(** A remote end that answers every call 200 with the body [null]. *)
Definition mockApiNullBody : World -> FetchRequest -> FetchResult :=
  fun _ _ =>
    FetchResolves {| response_ok := true; response_status := 200;
                     response_statusText := lit "OK";
                     response_json := JsonNull |}.

(** A remote end that accepts the first call and refuses the later ones. *)
Definition mockApiFirstOnly : World -> FetchRequest -> FetchResult :=
  fun w _ =>
    match requestsOf w with
    | [] =>
        FetchResolves {| response_ok := true; response_status := 200;
                         response_statusText := lit "OK";
                         response_json := JsonValue None (Some (lit "wamid.chunk1")) |}
    | _ :: _ => FetchRejects (lit "ECONNREFUSED")
    end.

End Fixtures.
Import Fixtures.

(* ====================================================================== *)
(** ** More observations: what a webhook batch carries *)
(* ====================================================================== *)

Module Batch.

(** The status updates handed to [onStatus], in order. *)
Definition statusUpdates (trace : list Event) : list (jsstring * jsstring * jsstring) :=
  flat_map (fun e => match e with OnStatus i s r => [(i, s, r)] | _ => [] end) trace.

(** The read receipts asked for (the [markAsRead] calls), in order. *)
Definition readReceipts (trace : list Event) : list jsstring :=
  flat_map (fun e => match e with MarkAsRead i => [i] | _ => [] end) trace.

(** The log lines written, in order. *)
Definition logLines (trace : list Event) : list (LogLevel * jsstring) :=
  flat_map (fun e => match e with Log l m => [(l, m)] | _ => [] end) trace.

(** The values of the changes whose field is ["messages"], in array order. *)
Definition messageChanges (payload : WebhookPayload) : list WebhookValue :=
  flat_map (fun entry =>
              flat_map (fun change =>
                          if streq (change_field change) (lit "messages")
                          then [change_value change] else [])
                       (entry_changes entry))
           (payload_entry payload).

(** The messages and the status updates of a payload, in array order. *)
Definition inboundMessages (payload : WebhookPayload) : list IncomingMessage :=
  flat_map (fun v => nullish (value_messages v) []) (messageChanges payload).

Definition inboundStatuses (payload : WebhookPayload) : list MessageStatus :=
  flat_map (fun v => nullish (value_statuses v) []) (messageChanges payload).

(** Whether the access policy lets a sender through. *)
Definition admits (config : WhatsAppCloudConfig) (sender : jsstring) : bool :=
  match dmPolicy config with
  | policy_allowlist =>
      existsb (fun n => streq (normalizePhone n) (normalizePhone sender)) (allowFrom config)
  | policy_open => true
  end.

(** Lowercase hexadecimal digits. *)
Definition isLowerHex (c : Z) : bool :=
  ((48 <=? c) && (c <=? 57)) || ((97 <=? c) && (c <=? 102)).

(** [makeConfig({ appSecret: "" })]: signature verification off. *)
Definition makeConfigWithoutSecret : WhatsAppCloudConfig :=
  {| enabled := true;
     phoneNumberId := lit "111222333";
     businessAccountId := lit "444555666";
     accessToken := lit "test_token";
     appSecret := [];
     verifyToken := lit "test-verify";
     webhookPort := 13100;
     webhookPath := lit "/webhook/whatsapp-cloud";
     apiVersion := lit "v21.0";
     dmPolicy := policy_open;
     allowFrom := [];
     sendReadReceipts := false |}.

(** A URL parser that knows one request target. *)
Definition urlOnly (target path : jsstring) (params : list (jsstring * jsstring))
  : jsstring -> jsstring -> UrlResult :=
  fun input _ => if streq input target then UrlParsed path params else UrlThrows.

(** A request without body or signature. *)
Definition bareRequest (method_ target : jsstring) : IncomingRequest :=
  {| req_method := method_;
     req_url := Some target;
     req_host := Some (lit "localhost");
     req_x_hub_signature_256 := None;
     req_chunks := [] |}.

(** A message like [textMessage] with an id of its own. *)
Definition textMessageWithId (sender id_ text_ : jsstring) : IncomingMessage :=
  {| msg_from := sender; msg_id := id_;
     msg_timestamp := lit "1700000000"; msg_type := lit "text";
     msg_text := Some text_; msg_image := None; msg_audio := None;
     msg_video := None; msg_document := None; msg_sticker := None;
     msg_location := None; msg_contacts := None; msg_interactive := None;
     msg_button := None; msg_context := None |}.

(** A batch of two entries: three messages from two senders, and one
    status update. *)
Definition mixedBatch : WebhookPayload :=
  {| payload_object := lit "whatsapp_business_account";
     payload_entry :=
       [{| entry_id := lit "BUSINESS_ACCOUNT_ID";
           entry_changes :=
             [{| change_value :=
                   {| value_contacts :=
                        Some [{| profile_name := lit "Anna"; wa_id := lit "393491234567" |}];
                      value_messages :=
                        Some [textMessageWithId (lit "393491234567") (lit "wamid.first")
                                (lit "Ciao");
                              textMessageWithId (lit "393330000000") (lit "wamid.second")
                                (lit "Hello")];
                      value_statuses :=
                        Some [{| status_id := lit "wamid.sent123";
                                 status_status := lit "delivered";
                                 status_timestamp := lit "1700000001";
                                 recipient_id := lit "393330000000";
                                 status_errors := None |}];
                      value_errors := None |};
                 change_field := lit "messages" |}] |};
        {| entry_id := lit "BUSINESS_ACCOUNT_ID";
           entry_changes :=
             [{| change_value :=
                   {| value_contacts := None;
                      value_messages :=
                        Some [textMessageWithId (lit "393491234567") (lit "wamid.third")
                                (lit "Again")];
                      value_statuses := None;
                      value_errors := None |};
                 change_field := lit "messages" |}] |}] |}.

End Batch.
Import Batch.

(* ====================================================================== *)
(** ** src/api.ts: the other senders *)
(* ====================================================================== *)

Module Outbound.

(** *** src/types.ts: outbound message types *)

(** [{ type: "reply", reply: { id, title } }] *)
Record ReplyButton := {
  reply_button_id : jsstring;
  reply_button_title : jsstring
}.

Record ListRow := {
  row_id : jsstring;
  row_title : jsstring;
  row_description : option jsstring
}.

Record ListSection := {
  section_title : jsstring;
  section_rows : list ListRow
}.

Record InteractiveAction := {
  action_buttons : option (list ReplyButton);
  action_button : option jsstring;
  action_sections : option (list ListSection)
}.

Record InteractiveMessage := {
  interactive_kind : jsstring;             (* type: "button" | "list" *)
  interactive_header : option jsstring;    (* header?: { type: "text", text } *)
  interactive_body : jsstring;             (* body: { text } *)
  interactive_footer : option jsstring;    (* footer?: { text } *)
  interactive_action : InteractiveAction
}.

Record SendInteractiveRequest := {
  si_messaging_product : jsstring;
  si_recipient_type : jsstring;
  si_to : jsstring;
  si_type : jsstring;
  si_interactive : InteractiveMessage
}.

Inductive MediaType := media_image | media_audio | media_video | media_document.

(** [{ link?, id?, caption?, filename? }] *)
Record MediaRef := {
  link : option jsstring;
  ref_id : option jsstring;
  ref_caption : option jsstring;
  ref_filename : option jsstring
}.

(** [{ ..., type: mediaType, [mediaType]: media }] *)
Record SendMediaRequest := {
  sm_messaging_product : jsstring;
  sm_recipient_type : jsstring;
  sm_to : jsstring;
  sm_type : MediaType;
  sm_media : MediaRef
}.

(** The body of [markAsRead] and of [sendTypingIndicator]. *)
Record StatusRequest := {
  st_messaging_product : jsstring;
  st_status : jsstring;
  st_message_id : jsstring;
  st_typing_indicator : option jsstring    (* typing_indicator?: { type } *)
}.

(** The bodies handed to [JSON.stringify]. *)
Inductive RequestBody :=
| TextBody (r : SendTextRequest)
| InteractiveBody (r : SendInteractiveRequest)
| MediaBody (r : SendMediaRequest)
| StatusBody (r : StatusRequest).

(** The arguments of one [fetch] call. *)
Record FetchCall := {
  call_url : jsstring;
  call_method : jsstring;
  call_headers : Headers;
  call_body : RequestBody
}.

(** Effects, in program order.  [NotedError l prefix err] is a log line
    made of [prefix] and the rendering of the thrown value, which is
    identified here by its message. *)
Inductive OutEvent :=
| Called (c : FetchCall)
| Noted (level : LogLevel) (message : jsstring)
| NotedError (level : LogLevel) (prefix err : jsstring).

Definition History := list OutEvent.

(** The [fetch] calls of a history. *)
Definition callsOf (h : History) : list FetchCall :=
  flat_map (fun e => match e with Called c => [c] | _ => [] end) h.

(** A text request and the events of the text sender, seen in this
    larger world. *)
Definition callOfText (r : FetchRequest) : FetchCall :=
  {| call_url := fetch_url r; call_method := fetch_method r;
     call_headers := fetch_headers r; call_body := TextBody (fetch_body r) |}.

Definition liftEvent (e : ApiEvent) : OutEvent :=
  match e with
  | Fetched r => Called (callOfText r)
  | Logged l m => Noted l m
  end.

(** [{ id, title }], the buttons [sendButtons] is given. *)
Record ButtonInput := {
  input_id : jsstring;
  input_title : jsstring
}.

Section Remote.

(** The remote end: the outcome of a [fetch] call, which may depend on
    everything done before it. *)
Variable remote : History -> FetchCall -> FetchResult.

(** *** Core send function, for any body *)

Definition sendRequest
    (config : WhatsAppCloudConfig) (body : RequestBody) (h : History)
  : SendResult * History :=
  let url := apiUrl config (phoneNumberId config ++ lit "/messages") in
  let call :=
    {| call_url := url; call_method := lit "POST";
       call_headers := headers config; call_body := body |} in
  let networkError errorMsg :=
    ({| ok := false; sent_messageId := None; error := Some errorMsg |},
     h ++ [Called call;
           Noted LError (lit "[whatsapp-cloud] Network error: " ++ errorMsg)]) in
  match remote h call with
  | FetchRejects errorMsg => networkError errorMsg
  | FetchResolves response =>
      if negb (response_ok response) then
        let errorMsg :=
          nullish
            (match response_json response with
             | JsonValue m _ => m
             | JsonRejects _ | JsonNull => None
             end)
            (lit "HTTP " ++ decimal (response_status response) ++ lit " "
             ++ response_statusText response) in
        ({| ok := false; sent_messageId := None; error := Some errorMsg |},
         h ++ [Called call;
               Noted LError (lit "[whatsapp-cloud] API error: " ++ errorMsg)])
      else
        match response_json response with
        | JsonRejects errorMsg => networkError errorMsg
        | JsonNull => networkError READ_OF_NULL
        | JsonValue _ first_id =>
            ({| ok := true; sent_messageId := first_id; error := None |},
             h ++ [Called call])
        end
  end.

(** [sendText], the function of the claims, run against this remote
    end: its requests and log lines are appended to the history. *)
Definition sendText (config : WhatsAppCloudConfig) (to_ text_ : jsstring) (h : History)
  : option (SendResult * History) :=
  match Api.sendText (fun w request => remote (h ++ map liftEvent w) (callOfText request))
                     config to_ text_ [] with
  | Some (r, w) => Some (r, h ++ map liftEvent w)
  | None => None
  end.

(** *** Interactive messages (buttons and lists) *)

Definition sendInteractive
    (config : WhatsAppCloudConfig) (to_ : jsstring) (interactive : InteractiveMessage)
    (h : History) : SendResult * History :=
  sendRequest config
    (InteractiveBody {| si_messaging_product := lit "whatsapp";
                        si_recipient_type := lit "individual";
                        si_to := to_;
                        si_type := lit "interactive";
                        si_interactive := interactive |})
    h.

Definition sendButtons
    (config : WhatsAppCloudConfig) (to_ bodyText : jsstring) (buttons : list ButtonInput)
    (h : History) : SendResult * History :=
  sendInteractive config to_
    {| interactive_kind := lit "button";
       interactive_header := None;
       interactive_body := bodyText;
       interactive_footer := None;
       interactive_action :=
         {| action_buttons :=
              Some (map (fun b => {| reply_button_id := input_id b;
                                     reply_button_title := slice (input_title b) 0 20 |})
                        (firstn 3 buttons));
            action_button := None;
            action_sections := None |} |}
    h.

(** *** Media messages *)

Definition sendMedia
    (config : WhatsAppCloudConfig) (to_ : jsstring) (mediaType : MediaType)
    (media : MediaRef) (h : History) : SendResult * History :=
  sendRequest config
    (MediaBody {| sm_messaging_product := lit "whatsapp";
                  sm_recipient_type := lit "individual";
                  sm_to := to_;
                  sm_type := mediaType;
                  sm_media := media |})
    h.

(** *** Read receipts and typing indicators *)

Definition statusCall (config : WhatsAppCloudConfig) (messageId : jsstring)
    (typing : option jsstring) : FetchCall :=
  {| call_url := apiUrl config (phoneNumberId config ++ lit "/messages");
     call_method := lit "POST";
     call_headers := headers config;
     call_body := StatusBody {| st_messaging_product := lit "whatsapp";
                                st_status := lit "read";
                                st_message_id := messageId;
                                st_typing_indicator := typing |} |}.

Definition markAsRead (config : WhatsAppCloudConfig) (messageId : jsstring) (h : History)
  : History :=
  let call := statusCall config messageId None in
  match remote h call with
  | FetchRejects err =>
      h ++ [Called call;
            NotedError LDebug (lit "[whatsapp-cloud] Failed to send read receipt: ") err]
  | FetchResolves _ => h ++ [Called call]
  end.

Definition sendTypingIndicator (config : WhatsAppCloudConfig) (messageId : jsstring)
    (h : History) : History :=
  let call := statusCall config messageId (Some (lit "text")) in
  match remote h call with
  | FetchRejects err =>
      h ++ [Called call;
            NotedError LDebug (lit "[whatsapp-cloud] Failed to send typing indicator: ") err]
  | FetchResolves _ => h ++ [Called call]
  end.

End Remote.

(** The [fetch] call that [sendRequest] makes for a body. *)
Definition messagesCall (config : WhatsAppCloudConfig) (body : RequestBody) : FetchCall :=
  {| call_url := apiUrl config (phoneNumberId config ++ lit "/messages");
     call_method := lit "POST";
     call_headers := headers config;
     call_body := body |}.

End Outbound.

(* ====================================================================== *)
(** ** src/setup.ts *)
(* ====================================================================== *)

Module Setup.

Definition RIGHT_ARROW : jsstring := [8594].        (* U+2192 *)

(** [Partial<WhatsAppCloudConfig>]: every field may be missing. *)
Record PartialConfig := {
  p_enabled : option bool;
  p_phoneNumberId : option jsstring;
  p_businessAccountId : option jsstring;
  p_accessToken : option jsstring;
  p_appSecret : option jsstring;
  p_verifyToken : option jsstring;
  p_webhookPort : option Z;
  p_webhookPath : option jsstring;
  p_apiVersion : option jsstring;
  p_dmPolicy : option DmPolicy;
  p_allowFrom : option (list jsstring);
  p_sendReadReceipts : option bool
}.

(** A full configuration, passed where a partial one is expected. *)
Definition asPartial (c : WhatsAppCloudConfig) : PartialConfig :=
  {| p_enabled := Some (enabled c);
     p_phoneNumberId := Some (phoneNumberId c);
     p_businessAccountId := Some (businessAccountId c);
     p_accessToken := Some (accessToken c);
     p_appSecret := Some (appSecret c);
     p_verifyToken := Some (verifyToken c);
     p_webhookPort := Some (webhookPort c);
     p_webhookPath := Some (webhookPath c);
     p_apiVersion := Some (apiVersion c);
     p_dmPolicy := Some (dmPolicy c);
     p_allowFrom := Some (allowFrom c);
     p_sendReadReceipts := Some (sendReadReceipts c) |}.

Record Validation := {
  valid : bool;
  errors : list jsstring;
  warnings : list jsstring
}.

(** [validateConfig(config)] *)
Definition validateConfig (config : PartialConfig) : Validation :=
  let errors :=
    (if negb (opt_truthy (p_phoneNumberId config))
     then [lit "phoneNumberId is required (from Meta " ++ RIGHT_ARROW ++ lit " WhatsApp "
           ++ RIGHT_ARROW ++ lit " API Setup)"]
     else [])
    ++ (if negb (opt_truthy (p_accessToken config))
        then [lit "accessToken is required (System User token from Meta Business Settings)"]
        else []) in
  let warnings :=
    (if negb (opt_truthy (p_appSecret config))
     then [lit "appSecret is not set " ++ EM_DASH
           ++ lit " webhook signature verification is DISABLED (unsafe for production)"]
     else [])
    ++ (if negb (opt_truthy (p_verifyToken config))
        then [lit "verifyToken is not set " ++ EM_DASH
              ++ lit " using default (change this for security)"]
        else []) in
  {| valid := Nat.eqb (length errors) 0; errors := errors; warnings := warnings |}.

End Setup.

(* ====================================================================== *)
(** ** src/index.ts *)
(* ====================================================================== *)

Module Plugin.

Import Setup.

(** The host configuration as the plugin reads it: the
    [channels["whatsapp-cloud"]] section, if there is one, and the fields
    the object carries itself. *)
Record HostConfig := {
  channel_section : option PartialConfig;
  own_fields : PartialConfig
}.

Definition emptyPartial : PartialConfig :=
  {| p_enabled := None; p_phoneNumberId := None; p_businessAccountId := None;
     p_accessToken := None; p_appSecret := None; p_verifyToken := None;
     p_webhookPort := None; p_webhookPath := None; p_apiVersion := None;
     p_dmPolicy := None; p_allowFrom := None; p_sendReadReceipts := None |}.

(** [resolveConfig(cfg)]; the defaults are those of [CONFIG_DEFAULTS]. *)
Definition resolveConfig (cfg : option HostConfig) : WhatsAppCloudConfig :=
  let raw :=
    match cfg with
    | Some c => nullish (channel_section c) (own_fields c)
    | None => emptyPartial
    end in
  {| enabled := nullish (p_enabled raw) true;
     phoneNumberId := nullish (p_phoneNumberId raw) [];
     businessAccountId := nullish (p_businessAccountId raw) [];
     accessToken := nullish (p_accessToken raw) [];
     appSecret := nullish (p_appSecret raw) [];
     verifyToken := nullish (p_verifyToken raw) (lit "openclaw-wa-cloud-verify");
     webhookPort := nullish (p_webhookPort raw) 3100;
     webhookPath := nullish (p_webhookPath raw) (lit "/webhook/whatsapp-cloud");
     apiVersion := nullish (p_apiVersion raw) (lit "v21.0");
     dmPolicy := nullish (p_dmPolicy raw) policy_open;
     allowFrom := nullish (p_allowFrom raw) [];
     sendReadReceipts := nullish (p_sendReadReceipts raw) true |}.

(** [security.isAllowed(cfg, senderId)] *)
Definition isAllowed (cfg : HostConfig) (senderId : jsstring) : bool :=
  match channel_section cfg with
  | None => true
  | Some channelCfg =>
      match p_dmPolicy channelCfg with
      | Some policy_allowlist =>
          let allowFrom := nullish (p_allowFrom channelCfg) [] in
          let normalized := filter isDigit senderId in
          existsb (fun n => streq (filter isDigit n) normalized) allowFrom
      | _ => true
      end
  end.

(** [config.formatAllowFrom({ allowFrom })]: trim, drop the empty entries,
    keep digits and plus signs. *)
Definition formatAllowFrom (allowFrom : list jsstring) : list jsstring :=
  map (fun entry => filter (fun c => isDigit c || (c =? 43)) entry)
      (filter truthy (map trim allowFrom)).

(** The reply payload the dispatcher hands to [deliver]. *)
Record ReplyPayload := {
  reply_text : option jsstring;
  mediaUrl : option jsstring;
  mediaUrls : option (list jsstring)
}.

Definition linkOnly (url : jsstring) : Outbound.MediaRef :=
  {| Outbound.link := Some url; Outbound.ref_id := None;
     Outbound.ref_caption := None; Outbound.ref_filename := None |}.

(** The body of the request [deliver] makes for a media URL. *)
Definition imageLink (to_ url : jsstring) : Outbound.RequestBody :=
  Outbound.MediaBody {| Outbound.sm_messaging_product := lit "whatsapp";
                        Outbound.sm_recipient_type := lit "individual";
                        Outbound.sm_to := to_;
                        Outbound.sm_type := Outbound.media_image;
                        Outbound.sm_media := linkOnly url |}.

(** The result of an adapter that may throw. *)
Inductive Outcome (A : Type) :=
| Returned (a : A)
| Thrown (message : jsstring).
Arguments Returned {A} a.
Arguments Thrown {A} message.

Record Delivery := {
  channel : jsstring;
  delivered_messageId : jsstring;
  chatId : jsstring
}.

(** What [gateway.start] does. *)
Inductive StartEvent :=
| StartLog (level : LogLevel) (message : jsstring)
| ServerStarted (config : WhatsAppCloudConfig).   (* startWebhookServer(config, ...) *)

Definition CHECK_MARK : jsstring := [10003].        (* U+2713 *)

Definition policyName (p : DmPolicy) : jsstring :=
  match p with policy_open => lit "open" | policy_allowlist => lit "allowlist" end.

(** [gateway.start(ctx)], with [cfg] standing for [ctx.config ?? ctx.cfg]. *)
Definition start (cfg : option HostConfig) : list StartEvent :=
  let config := resolveConfig cfg in
  if negb (enabled config) then
    [StartLog LInfo (lit "[whatsapp-cloud] Channel is disabled")]
  else
    let validation := validateConfig (asPartial config) in
    if negb (valid validation) then
      map (fun err => StartLog LError (lit "[whatsapp-cloud] Config error: " ++ err))
          (errors validation)
      ++ [StartLog LError
            (lit "[whatsapp-cloud] Run 'openclaw channels login whatsapp-cloud' to configure")]
    else
      map (fun warn => StartLog LWarn (lit "[whatsapp-cloud] " ++ warn))
          (warnings validation)
      ++ [ServerStarted config;
          StartLog LInfo (lit "[whatsapp-cloud] " ++ CHECK_MARK ++ lit " Channel started");
          StartLog LInfo (lit "[whatsapp-cloud]   Webhook: http://localhost:"
                          ++ decimal (webhookPort config) ++ webhookPath config);
          StartLog LInfo (lit "[whatsapp-cloud]   DM Policy: "
                          ++ policyName (dmPolicy config))]
      ++ match dmPolicy config with
         | policy_allowlist =>
             [StartLog LInfo
                (lit "[whatsapp-cloud]   Allowed: "
                 ++ (if truthy (join (lit ", ") (allowFrom config))
                     then join (lit ", ") (allowFrom config) else lit "(none)"))]
         | policy_open => []
         end.

Section Remote.

Variable remote : Outbound.History -> Outbound.FetchCall -> FetchResult.

(** The [deliver] callback of [startAccount], for a message from
    [sender]; [None] when [sendText] does not return. *)
Definition deliver (config : WhatsAppCloudConfig) (sender : jsstring)
    (payload : ReplyPayload) (h : Outbound.History) : option Outbound.History :=
  let afterText :=
    if opt_truthy (reply_text payload) then
      option_map snd
        (Outbound.sendText remote config sender (nullish (reply_text payload) []) h)
    else Some h in
  match afterText with
  | None => None
  | Some h1 =>
      let h2 :=
        if opt_truthy (mediaUrl payload) then
          snd (Outbound.sendMedia remote config sender Outbound.media_image
                 (linkOnly (nullish (mediaUrl payload) [])) h1)
        else h1 in
      Some (fold_left
              (fun hh url =>
                 snd (Outbound.sendMedia remote config sender Outbound.media_image
                        (linkOnly url) hh))
              (nullish (mediaUrls payload) []) h2)
  end.

(** [outbound.sendText({ cfg, to, text })]; [runtimeSet] tells whether
    [setWhatsAppCloudRuntime] has been called. *)
Definition outbound_sendText (runtimeSet : bool) (cfg : option HostConfig)
    (to_ text_ : jsstring) (h : Outbound.History)
  : option (Outcome Delivery * Outbound.History) :=
  let config := resolveConfig cfg in
  if negb runtimeSet then
    Some (Thrown (lit "WhatsApp Cloud runtime not initialized " ++ EM_DASH
                  ++ lit " plugin not loaded correctly"), h)
  else if negb (truthy (accessToken config)) || negb (truthy (phoneNumberId config)) then
    Some (Thrown (lit "WhatsApp Cloud API not configured: missing accessToken or phoneNumberId"),
          h)
  else
    match Outbound.sendText remote config to_ text_ h with
    | None => None
    | Some (result, h') =>
        if negb (ok result) then
          Some (Thrown (lit "WhatsApp Cloud API send failed: "
                        ++ nullish (error result) (lit "undefined")), h')
        else
          Some (Returned {| channel := lit "whatsapp-cloud";
                            delivered_messageId :=
                              nullish (sent_messageId result) (lit "unknown");
                            chatId := to_ |}, h')
    end.

End Remote.

(** The host configuration whose channel section is a given
    configuration. *)
Definition hostConfigOf (config : WhatsAppCloudConfig) : HostConfig :=
  {| channel_section := Some (asPartial config); own_fields := emptyPartial |}.

(** A remote end that accepts every call, like [mockApiSuccess]. *)
Definition remoteSuccess (sentId : jsstring)
  : Outbound.History -> Outbound.FetchCall -> FetchResult :=
  fun _ _ =>
    FetchResolves {| response_ok := true; response_status := 200;
                     response_statusText := lit "OK";
                     response_json := JsonValue None (Some sentId) |}.

End Plugin.

(* ====================================================================== *)
(** * Properties *)
(* ====================================================================== *)

Arguments createHmac_sha256_hex : simpl never.

(** ** Strings and buffers *)

Lemma streq_true_iff (a b : jsstring) : streq a b = true <-> a = b.
Proof.
  revert b; induction a as [|x a IH]; intros [|y b]; simpl; split;
    try congruence; try discriminate.
  - intros H. apply andb_true_iff in H as [Hxy Hab].
    apply Z.eqb_eq in Hxy. apply IH in Hab. congruence.
  - intros H. injection H as -> ->.
    rewrite Z.eqb_refl. simpl. apply IH. reflexivity.
Qed.

Lemma streq_refl (a : jsstring) : streq a a = true.
Proof. apply streq_true_iff. reflexivity. Qed.

Lemma streq_false_iff (a b : jsstring) : streq a b = false <-> a <> b.
Proof.
  rewrite <- streq_true_iff. destruct (streq a b); split; congruence.
Qed.

Lemma truthy_true_iff (s : jsstring) : truthy s = true <-> s <> [].
Proof. destruct s; simpl; split; congruence. Qed.

(** The constant-time fold answers zero exactly on equal buffers. *)
Lemma xor_accumulate_zero (a b : list Z) (acc : Z) :
  length a = length b ->
  (xor_accumulate a b acc = 0 <-> acc = 0 /\ a = b).
Proof.
  revert b acc; induction a as [|x a IH]; intros [|y b] acc Hlen;
    simpl in *; try discriminate.
  - intuition.
  - injection Hlen as Hlen. rewrite (IH b _ Hlen), Z.lor_eq_0_iff.
    split.
    + intros [[Hacc Hxor] Hab]. apply Z.lxor_eq in Hxor. subst. auto.
    + intros [Hacc Hab]. injection Hab as -> ->.
      rewrite Z.lxor_nilpotent. auto.
Qed.

Lemma timingSafeEqual_spec (a b : list Z) :
  length a = length b ->
  timingSafeEqual a b = Some true <-> a = b.
Proof.
  intros Hlen. unfold timingSafeEqual.
  rewrite Hlen, Nat.eqb_refl.
  pose proof (xor_accumulate_zero a b 0 Hlen) as H.
  destruct (xor_accumulate a b 0 =? 0) eqn:E.
  - apply Z.eqb_eq in E. intuition.
  - apply Z.eqb_neq in E. split; [discriminate|]. intros ->. tauto.
Qed.

Lemma timingSafeEqual_total (a b : list Z) :
  length a = length b -> timingSafeEqual a b <> None.
Proof.
  intros Hlen. unfold timingSafeEqual. rewrite Hlen, Nat.eqb_refl. discriminate.
Qed.

(** ** src/crypto.ts *)

(** The verifier accepts exactly a non-empty header whose bytes are the
    bytes of the expected signature, under a non-empty secret. *)
Lemma verifyWebhookSignature_true_iff
    (rawBody : jsstring) (signatureHeader : option jsstring) (appSecret : jsstring) :
  verifyWebhookSignature rawBody signatureHeader appSecret = true <->
  exists h, signatureHeader = Some h /\ h <> [] /\ appSecret <> [] /\
            Buffer_from h = Buffer_from (sign rawBody appSecret).
Proof.
  unfold verifyWebhookSignature, sign.
  generalize (lit "sha256=" ++ createHmac_sha256_hex appSecret rawBody).
  intros expectedSignature.
  destruct signatureHeader as [h|].
  2:{ split; [discriminate|]. intros (h & Hh & _). discriminate. }
  destruct (truthy h) eqn:Eh; cbn [negb orb].
  2:{ split; [discriminate|]. intros (h' & Hh & Hne & _).
      injection Hh as <-. apply truthy_true_iff in Hne. congruence. }
  destruct (truthy appSecret) eqn:Es; cbn [negb orb].
  2:{ split; [discriminate|]. intros (h' & _ & _ & Hne & _).
      apply truthy_true_iff in Hne. congruence. }
  apply truthy_true_iff in Eh, Es.
  destruct (Nat.eqb (length (Buffer_from h))
                    (length (Buffer_from expectedSignature))) eqn:El;
    cbn [negb].
  - apply Nat.eqb_eq in El.
    pose proof (timingSafeEqual_spec _ _ El) as Hts.
    destruct (timingSafeEqual (Buffer_from h) (Buffer_from expectedSignature))
      as [[|]|] eqn:Et.
    + split; [|reflexivity]. intros _. exists h. intuition.
    + split; [discriminate|]. intros (h' & Hh & _ & _ & Heq).
      injection Hh as <-. apply Hts in Heq. discriminate.
    + split; [discriminate|]. intros (h' & Hh & _ & _ & Heq).
      injection Hh as <-. apply Hts in Heq. discriminate.
  - apply Nat.eqb_neq in El.
    split; [discriminate|]. intros (h' & Hh & _ & _ & Heq).
    injection Hh as <-. congruence.
Qed.

(** *** The expected signature is plain ASCII, so its buffer is itself. *)

Lemma Buffer_from_ascii (s : jsstring) : ascii_only s -> Buffer_from s = s.
Proof.
  induction 1 as [|c s Hc Hs IH]; simpl; [reflexivity|].
  unfold isHighSurrogate, isLowSurrogate, utf8_of_codepoint.
  replace (55296 <=? c) with false by (symmetry; apply Z.leb_gt; lia).
  replace (56320 <=? c) with false by (symmetry; apply Z.leb_gt; lia).
  replace (c <? 128) with true by (symmetry; apply Z.ltb_lt; lia).
  simpl. now rewrite IH.
Qed.

Lemma bytes_of_word_range (w : Z) : Forall (fun b => 0 <= b < 256) (bytes_of_word w).
Proof.
  unfold bytes_of_word.
  repeat constructor;
    change 255 with (Z.ones 8); rewrite Z.land_ones by lia;
    change (2 ^ 8) with 256; apply Z.mod_pos_bound; lia.
Qed.

Lemma sha256_range (msg : list Z) : Forall (fun b => 0 <= b < 256) (sha256 msg).
Proof.
  unfold sha256. generalize (fold_left compress (blocks (length (pad msg)) (pad msg)) H256_init).
  intros ws. induction ws as [|w ws IH]; [constructor|].
  change (Forall (fun b => 0 <= b < 256) (bytes_of_word w ++ flat_map bytes_of_word ws)).
  apply Forall_app. split; [apply bytes_of_word_range | exact IH].
Qed.

Lemma hexDigit_ascii (n : Z) : 0 <= n < 16 -> 0 <= hexDigit n < 128.
Proof. intros H. unfold hexDigit. destruct (n <? 10); lia. Qed.

Lemma hex_ascii (bs : list Z) :
  Forall (fun b => 0 <= b < 256) bs -> ascii_only (hex bs).
Proof.
  induction 1 as [|b bs Hb Hbs IH]; simpl; [constructor|].
  constructor; [|constructor; [|exact IH]]; apply hexDigit_ascii.
  - rewrite Z.shiftr_div_pow2 by lia. change (2 ^ 4) with 16.
    split; [apply Z.div_pos; lia | apply Z.div_lt_upper_bound; lia].
  - change 15 with (Z.ones 4). rewrite Z.land_ones by lia.
    change (2 ^ 4) with 16. apply Z.mod_pos_bound. lia.
Qed.

Lemma sign_ascii (body secret : jsstring) : ascii_only (sign body secret).
Proof.
  unfold sign. apply Forall_app. split.
  - repeat constructor; lia.
  - unfold createHmac_sha256_hex, hmac_sha256. apply hex_ascii, sha256_range.
Qed.

Lemma sign_inj_digest (b b' s : jsstring) :
  sign b' s = sign b s <-> createHmac_sha256_hex s b' = createHmac_sha256_hex s b.
Proof.
  unfold sign. split; [apply app_inv_head | congruence].
Qed.

(** C3.  [verifyWebhookSignature] never throws: it is a total function
    to [bool], and its one throwing call, [timingSafeEqual], is only made
    on buffers of equal length, where it returns.  It answers [false]
    whenever the secret is the empty string, the header is absent, the
    byte lengths of the header and of the computed ["sha256=" + hex] value
    differ, or the lengths agree and some byte position differs. *)
Theorem verifyWebhookSignature_rejects
    (rawBody : jsstring) (signatureHeader : option jsstring) (appSecret : jsstring) :
  let expected := Buffer_from (lit "sha256=" ++ createHmac_sha256_hex appSecret rawBody) in
  (forall h, signatureHeader = Some h ->
             length (Buffer_from h) = length expected ->
             timingSafeEqual (Buffer_from h) expected <> None)
  /\
  (appSecret = []
   \/ signatureHeader = None
   \/ (exists h, signatureHeader = Some h /\
                 length (Buffer_from h) <> length expected)
   \/ (exists h i, signatureHeader = Some h /\
                   length (Buffer_from h) = length expected /\
                   nth i (Buffer_from h) 0 <> nth i expected 0) ->
   verifyWebhookSignature rawBody signatureHeader appSecret = false).
Proof.
  intros expected. split.
  { intros h _ Hlen. now apply timingSafeEqual_total. }
  intros H.
  destruct (verifyWebhookSignature rawBody signatureHeader appSecret) eqn:E;
    [exfalso|reflexivity].
  apply verifyWebhookSignature_true_iff in E as (h & Hh & Hne & Hs & Hbuf).
  unfold sign in Hbuf. fold expected in Hbuf.
  destruct H as [H | [H | [(h' & Hh' & Hlen) | (h' & i & Hh' & _ & Hnth)]]].
  - contradiction.
  - congruence.
  - rewrite Hh in Hh'. injection Hh' as <-. congruence.
  - rewrite Hh in Hh'. injection Hh' as <-. congruence.
Qed.

Lemma verifyWebhookSignature_rejects_witness :
  verifyWebhookSignature (lit "{}") (Some (lit "sha256=00")) [] = false
  /\ verifyWebhookSignature (lit "{}") None (lit "test_app_secret_1234567890") = false
  /\ verifyWebhookSignature (lit "{}") (Some (lit "not-a-valid-sig"))
       (lit "test_app_secret_1234567890") = false
  /\ verifyWebhookSignature (lit "{}")
       (Some (lit "sha256=0000000000000000000000000000000000000000000000000000000000000000"))
       (lit "test_app_secret_1234567890") = false.
Proof.
  split; [|split; [|split]].
  - apply verifyWebhookSignature_rejects. left. reflexivity.
  - apply verifyWebhookSignature_rejects. right; left. reflexivity.
  - apply verifyWebhookSignature_rejects. right; right; left.
    exists (lit "not-a-valid-sig"). split; [reflexivity|].
    vm_compute. discriminate.
  - apply verifyWebhookSignature_rejects. right; right; right.
    exists (lit "sha256=0000000000000000000000000000000000000000000000000000000000000000"),
           7%nat.
    split; [reflexivity|]. split; [vm_compute; reflexivity|].
    vm_compute; discriminate.
Defined.

(** What the code decides of the signature round trip.  Under a
    non-empty secret the signature of a body verifies against that body,
    and a body [b'] is rejected against the signature of [b] exactly when
    the two HMAC-SHA256 hex digests differ; whether the digests of two
    bodies that differ in one byte always differ is a question about
    HMAC-SHA256 and is left open here. *)
Lemma signature_roundtrip_nonempty_secret (b s : jsstring) :
  s <> [] ->
  verifyWebhookSignature b (Some (sign b s)) s = true
  /\ forall b',
       verifyWebhookSignature b' (Some (sign b s)) s = false
       <-> createHmac_sha256_hex s b' <> createHmac_sha256_hex s b.
Proof.
  intros Hs.
  assert (Hne : forall x, sign x s <> []) by (intros x; unfold sign; discriminate).
  split.
  - apply verifyWebhookSignature_true_iff. exists (sign b s). auto.
  - intros b'. rewrite <- sign_inj_digest.
    destruct (verifyWebhookSignature b' (Some (sign b s)) s) eqn:E.
    + apply verifyWebhookSignature_true_iff in E as (h & Hh & _ & _ & Hbuf).
      injection Hh as <-.
      rewrite !Buffer_from_ascii in Hbuf by apply sign_ascii.
      split; [discriminate | congruence].
    + split; [|reflexivity]. intros _ Heq.
      assert (verifyWebhookSignature b' (Some (sign b s)) s = true); [|congruence].
      apply verifyWebhookSignature_true_iff. exists (sign b s).
      repeat split; auto. congruence.
Qed.

Lemma signature_roundtrip_nonempty_secret_witness :
  verifyWebhookSignature (lit "{}") (Some (sign (lit "{}") (lit "k"))) (lit "k") = true.
Proof.
  apply (signature_roundtrip_nonempty_secret (lit "{}") (lit "k")). discriminate.
Defined.

(** With the empty secret the signature of a body does not verify
    against that body (the test "rejects missing app secret"). *)
Lemma signature_roundtrip_empty_secret :
  verifyWebhookSignature (lit "{}") (Some (sign (lit "{}") [])) [] = false.
Proof. vm_compute. reflexivity. Qed.

(** ** src/webhook.ts: the verification challenge *)

Lemma opt_streq_true_iff (x : option jsstring) (s : jsstring) :
  opt_streq x s = true <-> x = Some s.
Proof.
  destruct x as [v|]; simpl; [|split; discriminate].
  rewrite streq_true_iff. split; congruence.
Qed.

Lemma opt_truthy_true_iff (x : option jsstring) :
  opt_truthy x = true <-> exists v, x = Some v /\ v <> [].
Proof.
  destruct x as [v|]; simpl.
  - rewrite truthy_true_iff. split.
    + intros H. exists v. auto.
    + intros (v' & Hv & Hne). congruence.
  - split; [discriminate|]. intros (v & Hv & _). discriminate.
Qed.

Section Gateway.

Variable JSON_parse : jsstring -> ParseResult.

Lemma server_GET (config : WhatsAppCloudConfig) (onStatus : bool) (req : HttpRequest) :
  method req = lit "GET" -> pathname req = webhookPath config ->
  server JSON_parse config onStatus req = handleVerification (searchParams req) config.
Proof.
  intros Hm Hp. unfold server. rewrite Hm, Hp, !streq_refl. reflexivity.
Qed.

Lemma server_POST (config : WhatsAppCloudConfig) (onStatus : bool) (req : HttpRequest) :
  method req = lit "POST" -> pathname req = webhookPath config ->
  server JSON_parse config onStatus req = handleIncoming JSON_parse req config onStatus.
Proof.
  intros Hm Hp. unfold server. rewrite Hm, Hp, !streq_refl. reflexivity.
Qed.

(** C8, as the code has it.  A GET on the configured webhook path is
    answered 200 with the challenge as body exactly when [hub.mode] is
    ["subscribe"], [hub.verify_token] is the configured token and
    [hub.challenge] is present and not the empty string; in every other
    case it is answered 403. *)
Theorem verification_challenge
    (config : WhatsAppCloudConfig) (onStatus : bool) (req : HttpRequest) :
  method req = lit "GET" -> pathname req = webhookPath config ->
  let mode := searchParams_get (searchParams req) (lit "hub.mode") in
  let token := searchParams_get (searchParams req) (lit "hub.verify_token") in
  let challenge := searchParams_get (searchParams req) (lit "hub.challenge") in
  let response := responseOf (server JSON_parse config onStatus req) in
  (exists c, mode = Some (lit "subscribe") /\ token = Some (verifyToken config)
             /\ challenge = Some c /\ c <> []
             /\ response = [WriteHead 200 (Some (lit "text/plain")); End_ c])
  \/
  (~ (mode = Some (lit "subscribe") /\ token = Some (verifyToken config)
      /\ exists c, challenge = Some c /\ c <> [])
   /\ response = [WriteHead 403 None; End_ (lit "Forbidden")]).
Proof.
  intros Hm Hp mode token challenge response.
  subst response. rewrite (server_GET _ _ _ Hm Hp).
  unfold handleVerification. fold mode token challenge.
  destruct (opt_streq mode (lit "subscribe")) eqn:E1;
  destruct (opt_streq token (verifyToken config)) eqn:E2;
  destruct (opt_truthy challenge) eqn:E3; cbn [andb];
    try (right; split; [|reflexivity]; intros (H1 & H2 & H3);
         first [ apply opt_streq_true_iff in H1; congruence
               | apply opt_streq_true_iff in H2; congruence
               | apply opt_truthy_true_iff in H3; congruence ]).
  left.
  apply opt_streq_true_iff in E1, E2. apply opt_truthy_true_iff in E3.
  destruct E3 as (c & Hc & Hne). exists c. rewrite Hc. simpl. auto.
Qed.

End Gateway.

Lemma verification_challenge_witness :
  responseOf (server (fun _ => ParsedUntyped) makeConfig true
                (verificationRequest (lit "subscribe") (lit "test-verify") (lit "abc123")))
  = [WriteHead 200 (Some (lit "text/plain")); End_ (lit "abc123")]
  /\
  responseOf (server (fun _ => ParsedUntyped) makeConfig true
                (verificationRequest (lit "subscribe") (lit "WRONG_TOKEN") (lit "abc123")))
  = [WriteHead 403 None; End_ (lit "Forbidden")].
Proof.
  split.
  - destruct (verification_challenge (fun _ => ParsedUntyped) makeConfig true
                (verificationRequest (lit "subscribe") (lit "test-verify") (lit "abc123"))
                eq_refl eq_refl) as [(c & _ & _ & Hc & _ & Hr) | (_ & Hr)].
    + injection Hc as <-. exact Hr.
    + vm_compute in Hr. discriminate.
  - destruct (verification_challenge (fun _ => ParsedUntyped) makeConfig true
                (verificationRequest (lit "subscribe") (lit "WRONG_TOKEN") (lit "abc123"))
                eq_refl eq_refl) as [(c & _ & Ht & _) | (_ & Hr)].
    + vm_compute in Ht. discriminate.
    + exact Hr.
Defined.

(** C8 counterexample: mode and token are right and [hub.challenge] is
    present, as the empty string; the answer is 403, not 200. *)
Lemma verification_empty_challenge_forbidden :
  searchParams_get
    (searchParams (verificationRequest (lit "subscribe") (lit "test-verify") []))
    (lit "hub.mode") = Some (lit "subscribe")
  /\ searchParams_get
       (searchParams (verificationRequest (lit "subscribe") (lit "test-verify") []))
       (lit "hub.verify_token") = Some (verifyToken makeConfig)
  /\ searchParams_get
       (searchParams (verificationRequest (lit "subscribe") (lit "test-verify") []))
       (lit "hub.challenge") = Some []
  /\ responseOf (server (fun _ => ParsedUntyped) makeConfig true
                   (verificationRequest (lit "subscribe") (lit "test-verify") []))
     = [WriteHead 403 None; End_ (lit "Forbidden")].
Proof. vm_compute. repeat split. Qed.

(** ** src/webhook.ts: one message *)

Lemma dispatched_app (t1 t2 : list Event) :
  dispatched (t1 ++ t2) = dispatched t1 ++ dispatched t2.
Proof. unfold dispatched. apply flat_map_app. Qed.


(** What [processMessage] hands to [onMessage]: nothing for a blocked
    sender, and otherwise one message built from [extractMessageContent]. *)
Lemma processMessage_dispatched
    (msg : IncomingMessage) (contacts : list WebhookContact) (config : WhatsAppCloudConfig) :
  dispatched (processMessage msg contacts config) =
  if match dmPolicy config with
     | policy_allowlist =>
         negb (existsb (fun n => streq (normalizePhone n) (normalizePhone (msg_from msg)))
                       (allowFrom config))
     | policy_open => false
     end
  then []
  else [{| from := msg_from msg;
           senderName :=
             nullish (option_map profile_name
                        (find (fun c => streq (wa_id c) (msg_from msg)) contacts))
                     (msg_from msg);
           text := ec_text (extractMessageContent msg);
           messageId := msg_id msg;
           timestamp := msg_timestamp msg;
           type := msg_type msg;
           media := ec_media (extractMessageContent msg);
           interactiveReply := ec_interactiveReply (extractMessageContent msg);
           quotedMessageId := option_map context_id (msg_context msg) |}].
Proof.
  unfold processMessage.
  destruct (match dmPolicy config with
            | policy_allowlist => _ | policy_open => false end); [reflexivity|].
  cbv zeta. rewrite !dispatched_app.
  destruct (sendReadReceipts config); reflexivity.
Qed.

Lemma processMessage_dispatched_fields
    (msg : IncomingMessage) (contacts : list WebhookContact) (config : WhatsAppCloudConfig)
    (m : ParsedInboundMessage) :
  In m (dispatched (processMessage msg contacts config)) ->
  from m = msg_from msg
  /\ text m = ec_text (extractMessageContent msg)
  /\ type m = msg_type msg
  /\ media m = ec_media (extractMessageContent msg)
  /\ interactiveReply m = ec_interactiveReply (extractMessageContent msg).
Proof.
  rewrite processMessage_dispatched.
  destruct (match dmPolicy config with
            | policy_allowlist => _ | policy_open => false end); simpl; [tauto|].
  intros [<- | []]. simpl. auto.
Qed.




(** ** src/webhook.ts: content extraction *)

Lemma trimStart_nil_iff (s : jsstring) :
  trimStart s = [] <-> forallb isWhiteSpace s = true.
Proof.
  induction s as [|c s IH]; simpl; [tauto|].
  destruct (isWhiteSpace c); simpl; [exact IH|]. split; discriminate.
Qed.

Lemma trimStart_head (s : jsstring) (c : Z) (r : jsstring) :
  trimStart s = c :: r -> isWhiteSpace c = false.
Proof.
  induction s as [|x s IH]; simpl; [discriminate|].
  destruct (isWhiteSpace x) eqn:E; [exact IH|]. congruence.
Qed.

Lemma trimEnd_nil_iff (s : jsstring) :
  trimEnd s = [] <-> forallb isWhiteSpace s = true.
Proof.
  unfold trimEnd.
  assert (Hrev : rev (trimStart (rev s)) = [] <-> trimStart (rev s) = []).
  { split; intros H.
    - apply (f_equal (@rev Z)) in H. now rewrite rev_involutive in H.
    - now rewrite H. }
  rewrite Hrev, trimStart_nil_iff, !forallb_forall.
  split; intros H c Hin; apply H; [now apply in_rev in Hin | now apply in_rev].
Qed.

(** [trim] empties a string only when it is made of white space. *)
Lemma trim_nil_iff (s : jsstring) :
  trim s = [] <-> forallb isWhiteSpace s = true.
Proof.
  unfold trim. rewrite trimEnd_nil_iff, <- (trimStart_nil_iff s).
  destruct (trimStart s) as [|c r] eqn:E; simpl; [split; reflexivity|].
  rewrite (trimStart_head _ _ _ E). split; discriminate.
Qed.

(** C9.  [extractMessageContent] populates at most one of [media] and
    [interactiveReply], and every message [processMessage] dispatches
    carries the extracted content: at most one of the two optional
    fields, and the [text] computed for its kind ([text] is a required
    field of both records: there is no message without it). *)
Theorem media_and_interactiveReply_exclusive
    (msg : IncomingMessage) (contacts : list WebhookContact) (config : WhatsAppCloudConfig) :
  (ec_media (extractMessageContent msg) = None
   \/ ec_interactiveReply (extractMessageContent msg) = None)
  /\ Forall (fun m => (media m = None \/ interactiveReply m = None)
                      /\ text m = ec_text (extractMessageContent msg))
            (dispatched (processMessage msg contacts config)).
Proof.
  assert (Hex : ec_media (extractMessageContent msg) = None
                \/ ec_interactiveReply (extractMessageContent msg) = None).
  { unfold extractMessageContent.
    repeat match goal with
           | |- context [if streq ?a ?b then _ else _] =>
               destruct (streq a b); [simpl; auto|]
           end;
      [|simpl; auto].
    destruct (msg_interactive msg) as [r|]; [|simpl; auto].
    destruct (if streq (interactive_type r) (lit "button_reply")
              then button_reply r else None); [simpl; auto|].
    destruct (if streq (interactive_type r) (lit "list_reply")
              then list_reply r else None); simpl; auto. }
  split; [exact Hex|].
  apply Forall_forall. intros m Hin.
  apply processMessage_dispatched_fields in Hin as (_ & Ht & _ & Hm & Hi).
  rewrite Hm, Hi. auto.
Qed.

(** C5, as the code has it.  An image message without caption is given
    the text ["[" + U+1F4F7 + " Image]"] (the placeholder carries a camera
    emoji); with caption ["nice"] the text is ["nice"] and [media.mimeType]
    is the payload's [image.mime_type]. *)
Theorem image_message_content
    (msg : IncomingMessage) (contacts : list WebhookContact) (config : WhatsAppCloudConfig)
    (m : ParsedInboundMessage) :
  msg_type msg = lit "image" ->
  In m (dispatched (processMessage msg contacts config)) ->
  ((msg_image msg = None \/ exists i, msg_image msg = Some i /\ caption i = None) ->
   text m = lit "[" ++ CAMERA ++ lit " Image]")
  /\ (forall i, msg_image msg = Some i -> caption i = Some (lit "nice") ->
        text m = lit "nice"
        /\ exists mi, media m = Some mi /\ mimeType mi = mime_type i).
Proof.
  intros Ht Hin.
  apply processMessage_dispatched_fields in Hin as (_ & Htext & _ & Hmedia & _).
  rewrite Htext, Hmedia. unfold extractMessageContent. rewrite Ht.
  change (streq (lit "image") (lit "text")) with false.
  change (streq (lit "image") (lit "image")) with true.
  cbv iota. cbn [ec_text ec_media]. split.
  - intros [Hnone | (i & Hi & Hc)].
    + rewrite Hnone. reflexivity.
    + rewrite Hi, Hc. reflexivity.
  - intros i Hi Hc. rewrite Hi, Hc. split; [reflexivity|].
    eexists. split; [reflexivity|]. reflexivity.
Qed.

Lemma image_message_content_witness :
  Forall (fun m => text m = lit "[" ++ CAMERA ++ lit " Image]")
         (dispatched (processMessage (imageMessage (lit "393491234567") None) [] makeConfig))
  /\ Forall (fun m => text m = lit "nice"
                      /\ exists mi, media m = Some mi /\ mimeType mi = lit "image/jpeg")
            (dispatched (processMessage (imageMessage (lit "393491234567") (Some (lit "nice")))
                           [] makeConfig)).
Proof.
  split; apply Forall_forall; intros m Hin.
  - apply (proj1 (image_message_content
                    (imageMessage (lit "393491234567") None) [] makeConfig
                    m eq_refl Hin)).
    right. eexists. split; reflexivity.
  - apply (proj2 (image_message_content
                    (imageMessage (lit "393491234567") (Some (lit "nice"))) [] makeConfig
                    m eq_refl Hin) _ eq_refl eq_refl).
Defined.

(** C5 counterexample: the caption-less image of the test suite is
    dispatched with the emoji placeholder, which is not ["[Image]"]. *)
Lemma image_without_caption_text :
  map text (dispatched (processMessage (imageMessage (lit "393491234567") None) [] makeConfig))
  = [lit "[" ++ CAMERA ++ lit " Image]"]
  /\ lit "[" ++ CAMERA ++ lit " Image]" <> lit "[Image]".
Proof. split; [reflexivity | discriminate]. Qed.

(** C4, as the code has it.  [extractMessageContent] is a total function
    on [IncomingMessage], whatever optional fields are missing; the text
    it returns is the empty string exactly when the payload's own content
    string is: a text message without body or with an empty one, a media
    caption, a reply title or a button text that is present and empty.
    In every other case the text is non-empty. *)
Theorem extracted_text_empty_iff (msg : IncomingMessage) :
  exists content : ExtractedContent,
    extractMessageContent msg = content
    /\ (ec_text content = [] <->
        (msg_type msg = lit "text"
         /\ (msg_text msg = None \/ msg_text msg = Some []))
        \/ (msg_type msg = lit "image"
            /\ exists i, msg_image msg = Some i /\ caption i = Some [])
        \/ (msg_type msg = lit "video"
            /\ exists v, msg_video msg = Some v /\ caption v = Some [])
        \/ (msg_type msg = lit "document"
            /\ exists d, msg_document msg = Some d /\ caption (doc_media d) = Some [])
        \/ (msg_type msg = lit "interactive"
            /\ exists r, msg_interactive msg = Some r
                /\ ((interactive_type r = lit "button_reply"
                     /\ exists b, button_reply r = Some b /\ reply_title b = [])
                    \/ (interactive_type r = lit "list_reply"
                        /\ exists l, list_reply r = Some l /\ reply_title l = [])))
        \/ (msg_type msg = lit "button"
            /\ exists b, msg_button msg = Some b /\ button_text b = [])).
Proof.
  eexists. split; [reflexivity|].
  unfold extractMessageContent.
  repeat match goal with
         | |- context [if streq (msg_type msg) ?b then _ else _] =>
             let E := fresh "E" in
             destruct (streq (msg_type msg) b) eqn:E;
             [apply streq_true_iff in E | apply streq_false_iff in E]
         end;
    cbn [ec_text];
    repeat match goal with
           | H : msg_type msg = _ |- _ => rewrite H in *; clear H
           end.
  - (* text *)
    destruct (msg_text msg) as [t|]; simpl; split.
    + intros ->. left. auto.
    + intros [(_ & [H|H]) | [(H & _) | [(H & _) | [(H & _) | [(H & _) | (H & _)]]]]];
        try discriminate; congruence.
    + intros _. left. auto.
    + reflexivity.
  - (* image *)
    split.
    + intros H. right; left. split; [reflexivity|].
      destruct (msg_image msg) as [i|]; [|discriminate].
      destruct (caption i) as [c|] eqn:Ec; [|discriminate].
      simpl in H. subst c. eauto.
    + intros [(H & _) | [(_ & i & Hi & Hc) | [(H & _) | [(H & _) | [(H & _) | (H & _)]]]]];
        try discriminate.
      rewrite Hi, Hc. reflexivity.
  - (* audio *)
    split; [discriminate|].
    intros [(H & _) | [(H & _) | [(H & _) | [(H & _) | [(H & _) | (H & _)]]]]];
      discriminate.
  - (* video *)
    split.
    + intros H. right; right; left. split; [reflexivity|].
      destruct (msg_video msg) as [v|]; [|discriminate].
      destruct (caption v) as [c|] eqn:Ec; [|discriminate].
      simpl in H. subst c. eauto.
    + intros [(H & _) | [(H & _) | [(_ & v & Hv & Hc) | [(H & _) | [(H & _) | (H & _)]]]]];
        try discriminate.
      rewrite Hv, Hc. reflexivity.
  - (* document *)
    split.
    + intros H. right; right; right; left. split; [reflexivity|].
      destruct (msg_document msg) as [d|]; [|discriminate].
      destruct (caption (doc_media d)) as [c|] eqn:Ec; [|discriminate].
      simpl in H. subst c. eauto.
    + intros [(H & _) | [(H & _) | [(H & _) | [(_ & d & Hd & Hc) | [(H & _) | (H & _)]]]]];
        try discriminate.
      rewrite Hd, Hc. reflexivity.
  - (* sticker *)
    split; [discriminate|].
    intros [(H & _) | [(H & _) | [(H & _) | [(H & _) | [(H & _) | (H & _)]]]]];
      discriminate.
  - (* location *)
    split.
    + intros H. exfalso.
      destruct (msg_location msg) as [l|]; [|discriminate].
      apply trim_nil_iff in H. discriminate.
    + intros [(H & _) | [(H & _) | [(H & _) | [(H & _) | [(H & _) | (H & _)]]]]];
        discriminate.
  - (* contacts *)
    split.
    + destruct (msg_contacts msg); discriminate.
    + intros [(H & _) | [(H & _) | [(H & _) | [(H & _) | [(H & _) | (H & _)]]]]];
        discriminate.
  - (* interactive *)
    split.
    + intros H. do 4 right; left. split; [reflexivity|].
      destruct (msg_interactive msg) as [r|]; [|discriminate].
      exists r. split; [reflexivity|].
      destruct (streq (interactive_type r) (lit "button_reply")) eqn:Eb.
      * apply streq_true_iff in Eb.
        destruct (button_reply r) as [b|] eqn:Ebr.
        -- left. split; [exact Eb|]. exists b. auto.
        -- rewrite Eb in H. simpl in H. discriminate.
      * destruct (streq (interactive_type r) (lit "list_reply")) eqn:El;
          [|discriminate].
        apply streq_true_iff in El.
        destruct (list_reply r) as [l|] eqn:Elr; [|discriminate].
        right. split; [exact El|]. exists l. auto.
    + intros [(H & _) | [(H & _) | [(H & _) | [(H & _) | [(_ & r & Hr & Hd) | (H & _)]]]]];
        try discriminate.
      rewrite Hr.
      destruct Hd as [(Ht & b & Hb & Htitle) | (Ht & l & Hl & Htitle)];
        rewrite Ht; simpl; [rewrite Hb | rewrite Hl]; exact Htitle.
  - (* button *)
    split.
    + intros H. do 5 right. split; [reflexivity|].
      destruct (msg_button msg) as [b|]; [|discriminate].
      exists b. auto.
    + intros [(H & _) | [(H & _) | [(H & _) | [(H & _) | [(H & _) | (_ & b & Hb & Ht)]]]]];
        try discriminate.
      rewrite Hb. exact Ht.
  - (* any other type *)
    split; [discriminate|].
    intros [(H & _) | [(H & _) | [(H & _) | [(H & _) | [(H & _) | (H & _)]]]]];
      congruence.
Qed.

(** C4 counterexample: a text message whose optional [text] field is
    missing is normalised to the empty text. *)
Lemma text_message_without_body_has_empty_text :
  ec_text (extractMessageContent (bareMessage (lit "393491234567") (lit "text"))) = []
  /\ map text (dispatched (processMessage (bareMessage (lit "393491234567") (lit "text"))
                             [] makeConfig)) = [[]].
Proof. split; reflexivity. Qed.

(** ** src/webhook.ts: POST *)

Lemma responseOf_app (t1 t2 : list Event) :
  responseOf (t1 ++ t2) = responseOf t1 ++ responseOf t2.
Proof. unfold responseOf. apply filter_app. Qed.

Lemma responseOf_flat_map {A : Type} (f : A -> list Event) (l : list A) :
  (forall a, responseOf (f a) = []) -> responseOf (flat_map f l) = [].
Proof.
  intros Hf. induction l as [|a l IH]; simpl; [reflexivity|].
  now rewrite responseOf_app, Hf, IH.
Qed.

Lemma responseOf_map {A : Type} (f : A -> Event) (l : list A) :
  (forall a, responseOf [f a] = []) -> responseOf (map f l) = [].
Proof.
  intros Hf. induction l as [|a l IH]; [reflexivity|].
  change (map f (a :: l)) with ([f a] ++ map f l).
  now rewrite responseOf_app, Hf, IH.
Qed.

(** [processMessage] writes nothing to the response. *)
Lemma responseOf_processMessage
    (msg : IncomingMessage) (contacts : list WebhookContact) (config : WhatsAppCloudConfig) :
  responseOf (processMessage msg contacts config) = [].
Proof.
  unfold processMessage.
  destruct (match dmPolicy config with
            | policy_allowlist => _ | policy_open => false end); [reflexivity|].
  cbv zeta. destruct (sendReadReceipts config); reflexivity.
Qed.

Section Incoming.

Variable JSON_parse : jsstring -> ParseResult.

Lemma responseOf_processChange
    (change : WebhookChange) (config : WhatsAppCloudConfig) (onStatus : bool) :
  responseOf (processChange change config onStatus) = [].
Proof.
  unfold processChange.
  destruct (negb (streq (change_field change) (lit "messages"))); [reflexivity|].
  cbv beta iota zeta. rewrite !responseOf_app.
  rewrite responseOf_map by reflexivity.
  rewrite responseOf_flat_map by (intros; apply responseOf_processMessage).
  destruct onStatus; [rewrite responseOf_map by reflexivity|]; reflexivity.
Qed.

(** The events of [handleIncoming]: the response first, then the rest. *)
Lemma handleIncoming_response_first
    (req : HttpRequest) (config : WhatsAppCloudConfig) (onStatus : bool) :
  exists rest,
    handleIncoming JSON_parse req config onStatus
    = WriteHead 200 (Some (lit "text/plain")) :: End_ (lit "OK") :: rest
    /\ responseOf rest = [].
Proof.
  unfold handleIncoming. eexists. split; [reflexivity|].
  destruct (truthy (appSecret config)
            && negb (verifyWebhookSignature (concat (chunks req))
                       (x_hub_signature_256 req) (appSecret config)));
    [reflexivity|].
  rewrite responseOf_app.
  replace (responseOf (if truthy (appSecret config) then [] else _)) with (@nil Event)
    by (destruct (truthy (appSecret config)); reflexivity).
  destruct (JSON_parse (concat (chunks req))) as [err|payload|]; try reflexivity.
  destruct (negb (streq (payload_object payload) (lit "whatsapp_business_account")));
    [reflexivity|].
  apply responseOf_flat_map. intros entry.
  apply responseOf_flat_map. intros change. apply responseOf_processChange.
Qed.

(** C1.  A POST on the configured webhook path is answered 200 ["OK"]:
    the two response events come first in the trace, before the signature
    is checked and before the body is parsed, whatever these do, and
    nothing else is written to the response.  With an [appSecret]
    configured, a payload whose signature does not verify is never handed
    to [onMessage]. *)
Theorem post_answered_200_forged_not_dispatched
    (config : WhatsAppCloudConfig) (onStatus : bool) (req : HttpRequest) :
  method req = lit "POST" -> pathname req = webhookPath config ->
  let rawBody := concat (chunks req) in
  let trace := server JSON_parse config onStatus req in
  (exists rest,
      trace = WriteHead 200 (Some (lit "text/plain")) :: End_ (lit "OK") :: rest
      /\ responseOf rest = [])
  /\ responseOf trace = [WriteHead 200 (Some (lit "text/plain")); End_ (lit "OK")]
  /\ (appSecret config <> [] ->
      verifyWebhookSignature rawBody (x_hub_signature_256 req) (appSecret config) = false ->
      dispatched trace = []).
Proof.
  intros Hm Hp rawBody trace. subst trace.
  rewrite (server_POST JSON_parse _ _ _ Hm Hp).
  destruct (handleIncoming_response_first req config onStatus) as (rest & Htrace & Hrest).
  split; [eauto|]. split.
  - rewrite Htrace. cbn [responseOf filter]. fold (responseOf rest).
    now rewrite Hrest.
  - intros Hsecret Hverify. unfold handleIncoming. fold rawBody.
    apply truthy_true_iff in Hsecret. rewrite Hsecret, Hverify. reflexivity.
Qed.

End Incoming.

Lemma post_answered_200_forged_not_dispatched_witness :
  responseOf
    (server (parseOnly (lit "{}")
               (payloadOf (textMessage (lit "393491234567") (lit "Sneaky"))))
            makeConfig true (postRequest (lit "{}") None))
  = [WriteHead 200 (Some (lit "text/plain")); End_ (lit "OK")]
  /\ dispatched
       (server (parseOnly (lit "{}")
                  (payloadOf (textMessage (lit "393491234567") (lit "Sneaky"))))
               makeConfig true (postRequest (lit "{}") None))
     = [].
Proof.
  destruct (post_answered_200_forged_not_dispatched
              (parseOnly (lit "{}")
                 (payloadOf (textMessage (lit "393491234567") (lit "Sneaky"))))
              makeConfig true (postRequest (lit "{}") None) eq_refl eq_refl)
    as (_ & Hresp & Hdrop).
  split; [exact Hresp|].
  apply Hdrop; [discriminate | reflexivity].
Defined.

(** ** src/api.ts: splitting *)

Lemma lastIndexOf_scan_upper (s : jsstring) (c i start best : Z) :
  best <= start -> lastIndexOf_scan s c i start best <= start.
Proof.
  revert i best. induction s as [|x s IH]; intros i best Hb; simpl; [exact Hb|].
  apply IH. destruct ((x =? c) && (i <=? start)) eqn:E; [|exact Hb].
  apply andb_true_iff in E as [_ E]. now apply Z.leb_le in E.
Qed.

(** [lastIndexOf] never answers beyond the position it is given. *)
Lemma lastIndexOf_upper (s : jsstring) (c position : Z) :
  0 <= position -> lastIndexOf s c position <= position.
Proof.
  intros Hp. unfold lastIndexOf. rewrite Z.max_l by lia.
  apply lastIndexOf_scan_upper. lia.
Qed.

Lemma trimStart_length (s : jsstring) : (length (trimStart s) <= length s)%nat.
Proof.
  induction s as [|c s IH]; simpl; [lia|].
  destruct (isWhiteSpace c); simpl; lia.
Qed.

Lemma trimEnd_length (s : jsstring) : (length (trimEnd s) <= length s)%nat.
Proof.
  unfold trimEnd. rewrite length_rev.
  etransitivity; [apply trimStart_length|]. now rewrite length_rev.
Qed.

Lemma slice_prefix_length (s : jsstring) (k : Z) :
  0 <= k -> len (slice s 0 k) <= k.
Proof.
  intros Hk. unfold slice, relIndex, len.
  replace (0 <? 0) with false by reflexivity.
  replace (k <? 0) with false by (symmetry; apply Z.ltb_ge; lia).
  rewrite length_firstn. lia.
Qed.

Lemma sliceFrom_length (s : jsstring) (k : Z) :
  0 <= k -> len (sliceFrom s k) = Z.max (len s - k) 0.
Proof.
  intros Hk. unfold sliceFrom, slice, relIndex, len.
  replace (k <? 0) with false by (symmetry; apply Z.ltb_ge; lia).
  replace (Z.of_nat (length s) <? 0) with false by (symmetry; apply Z.ltb_ge; lia).
  rewrite length_firstn, length_skipn. lia.
Qed.

(** Where the loop cuts: between one and [maxLength] characters in. *)
Lemma splitIndex_range (remaining : jsstring) (maxLength : Z) :
  1 <= maxLength ->
  let splitIndex := lastIndexOf remaining LINE_FEED maxLength in
  let splitIndex :=
    if 2 * splitIndex <? maxLength
    then lastIndexOf remaining SPACE maxLength else splitIndex in
  let splitIndex :=
    if 10 * splitIndex <? 3 * maxLength then maxLength else splitIndex in
  1 <= splitIndex <= maxLength.
Proof.
  intros Hmax.
  pose proof (lastIndexOf_upper remaining LINE_FEED maxLength ltac:(lia)) as H1.
  pose proof (lastIndexOf_upper remaining SPACE maxLength ltac:(lia)) as H2.
  cbv zeta.
  destruct (2 * lastIndexOf remaining LINE_FEED maxLength <? maxLength);
    match goal with
    | |- context [if ?b then _ else _] =>
        destruct b eqn:E; [lia | apply Z.ltb_ge in E; lia]
    end.
Qed.

(** The loop ends within [length remaining] iterations, adds only chunks
    of at most [maxLength] characters, adds at least one when it is
    entered, and leaves at most [maxLength] characters. *)
Lemma splitMessage_loop_returns (maxLength : Z) (fuel : nat) :
  1 <= maxLength ->
  forall (remaining : jsstring) (chunks : list jsstring),
    (length remaining <= fuel)%nat ->
    exists added rest,
      splitMessage_loop fuel maxLength remaining chunks = Some (chunks ++ added, rest)
      /\ Forall (fun chunk => len chunk <= maxLength) added
      /\ len rest <= maxLength
      /\ (maxLength < len remaining -> added <> []).
Proof.
  intros Hmax. induction fuel as [|fuel IH]; intros remaining chunks Hfuel.
  - destruct remaining; [|simpl in Hfuel; lia].
    exists [], []. simpl.
    replace (maxLength <? len []) with false
      by (symmetry; apply Z.ltb_ge; unfold len; simpl; lia).
    rewrite app_nil_r. repeat split; auto; unfold len; simpl; lia.
  - cbn [splitMessage_loop].
    destruct (maxLength <? len remaining) eqn:Eloop.
    2:{ apply Z.ltb_ge in Eloop. exists [], remaining.
        rewrite app_nil_r. repeat split; auto. lia. }
    apply Z.ltb_lt in Eloop.
    pose proof (splitIndex_range remaining maxLength Hmax) as Hidx.
    cbv zeta in Hidx |- *.
    set (splitIndex :=
           if 10 * (if 2 * lastIndexOf remaining LINE_FEED maxLength <? maxLength
                    then lastIndexOf remaining SPACE maxLength
                    else lastIndexOf remaining LINE_FEED maxLength) <? 3 * maxLength
           then maxLength
           else if 2 * lastIndexOf remaining LINE_FEED maxLength <? maxLength
                then lastIndexOf remaining SPACE maxLength
                else lastIndexOf remaining LINE_FEED maxLength) in *.
    assert (Hshorter : (length (trimStart (sliceFrom remaining splitIndex)) <= fuel)%nat).
    { pose proof (trimStart_length (sliceFrom remaining splitIndex)) as Ht.
      pose proof (sliceFrom_length remaining splitIndex ltac:(lia)) as Hs.
      unfold len in Hs, Eloop. lia. }
    destruct (IH (trimStart (sliceFrom remaining splitIndex))
                 (chunks ++ [trimEnd (slice remaining 0 splitIndex)]) Hshorter)
      as (added & rest & Hrun & Hadded & Hrest & _).
    exists (trimEnd (slice remaining 0 splitIndex) :: added), rest.
    rewrite Hrun, <- app_assoc. repeat split; auto; [|discriminate].
    constructor; [|exact Hadded].
    pose proof (trimEnd_length (slice remaining 0 splitIndex)) as Ht.
    pose proof (slice_prefix_length remaining splitIndex ltac:(lia)) as Hs.
    unfold len in Hs |- *. lia.
Qed.

(** [splitMessage] returns for every text when the limit is positive:
    a non-empty list of chunks, none longer than the limit, and the text
    itself as only chunk when it fits. *)
Lemma splitMessage_returns (text_ : jsstring) (maxLength : Z) :
  1 <= maxLength ->
  exists chunks,
    splitMessage text_ maxLength = Some chunks
    /\ chunks <> []
    /\ Forall (fun chunk => len chunk <= maxLength) chunks
    /\ (len text_ <= maxLength -> chunks = [text_]).
Proof.
  intros Hmax. unfold splitMessage.
  destruct (len text_ <=? maxLength) eqn:Efits.
  - apply Z.leb_le in Efits. exists [text_].
    split; [reflexivity|]. split; [discriminate|].
    split; [|reflexivity]. constructor; [exact Efits | constructor].
  - apply Z.leb_gt in Efits.
    destruct (splitMessage_loop_returns maxLength (length text_) Hmax text_ []
                (Nat.le_refl _))
      as (added & rest & Hrun & Hadded & Hrest & Hne).
    rewrite Hrun. simpl app.
    specialize (Hne Efits).
    destruct (0 <? len rest).
    + exists (added ++ [rest]). split; [reflexivity|]. split; [|split].
      * intros H. apply app_eq_nil in H as [_ H]. discriminate.
      * apply Forall_app. split; [exact Hadded|].
        constructor; [exact Hrest | constructor].
      * lia.
    + exists added. split; [reflexivity|]. split; [exact Hne|].
      split; [exact Hadded | lia].
Qed.

(** Whatever the limit, a loop that ends has only added chunks, and at
    least one if it was entered. *)
Lemma splitMessage_loop_extends (maxLength : Z) (fuel : nat) :
  forall (remaining : jsstring) (chunks out : list jsstring) (rest : jsstring),
    splitMessage_loop fuel maxLength remaining chunks = Some (out, rest) ->
    exists added, out = chunks ++ added
                  /\ (maxLength < len remaining -> added <> []).
Proof.
  induction fuel as [|fuel IH]; intros remaining chunks out rest; cbn [splitMessage_loop];
    destruct (maxLength <? len remaining) eqn:Eloop; try discriminate.
  - intros H. injection H as <- <-. apply Z.ltb_ge in Eloop.
    exists []. rewrite app_nil_r. split; [reflexivity | lia].
  - cbv zeta. intros H. apply IH in H as (added & -> & _).
    eexists. rewrite <- app_assoc. split; [reflexivity | discriminate].
  - intros H. injection H as <- <-. apply Z.ltb_ge in Eloop.
    exists []. rewrite app_nil_r. split; [reflexivity | lia].
Qed.

Lemma splitMessage_nonempty (text_ : jsstring) (maxLength : Z) (chunks : list jsstring) :
  splitMessage text_ maxLength = Some chunks -> chunks <> [].
Proof.
  unfold splitMessage. destruct (len text_ <=? maxLength) eqn:Efits.
  - intros H. injection H as <-. discriminate.
  - apply Z.leb_gt in Efits.
    destruct (splitMessage_loop (length text_) maxLength text_ [])
      as [[out rest]|] eqn:Erun; [|discriminate].
    apply splitMessage_loop_extends in Erun as (added & -> & Hne).
    specialize (Hne Efits). simpl app.
    intros H. injection H as <-.
    destruct (0 <? len rest); [|exact Hne].
    intros H. apply app_eq_nil in H as [_ H]. discriminate.
Qed.

(** ** src/api.ts: sending *)

Section Sending.

Variable fetch : World -> FetchRequest -> FetchResult.
Variable config : WhatsAppCloudConfig.
Variable to_ : jsstring.

Lemma requestsOf_app (w1 w2 : World) :
  requestsOf (w1 ++ w2) = requestsOf w1 ++ requestsOf w2.
Proof. unfold requestsOf. apply flat_map_app. Qed.

(** One [sendRequest], one [fetch]. *)
Lemma sendRequest_requests (chunk : jsstring) (w : World) :
  requestsOf (snd (sendRequest fetch config (textRequest to_ chunk) w))
  = requestsOf w ++ [textFetch config to_ chunk].
Proof.
  unfold sendRequest. fold (textFetch config to_ chunk).
  destruct (fetch w (textFetch config to_ chunk)) as [msg|response]; cbn [snd].
  - now rewrite requestsOf_app.
  - destruct (negb (response_ok response)); cbn [snd].
    + now rewrite requestsOf_app.
    + destruct (response_json response); cbn [snd]; now rewrite requestsOf_app.
Qed.

(** A failed [sendRequest] carries an error message. *)
Lemma sendRequest_failure_has_error (chunk : jsstring) (w : World) :
  ok (fst (sendRequest fetch config (textRequest to_ chunk) w)) = false ->
  exists e, error (fst (sendRequest fetch config (textRequest to_ chunk) w)) = Some e.
Proof.
  unfold sendRequest.
  destruct (fetch w _) as [msg|response]; cbn [fst ok error]; [eauto|].
  destruct (negb (response_ok response)); cbn [fst ok error]; [eauto|].
  destruct (response_json response); cbn [fst ok error]; [eauto | eauto | discriminate].
Qed.

Lemma sendEach_requests (chunks : list jsstring) (w : World) :
  requestsOf (snd (sendEach fetch config to_ chunks w))
  = requestsOf w ++ map (textFetch config to_) chunks.
Proof.
  revert w. induction chunks as [|chunk rest IH]; intros w; cbn [sendEach map].
  - cbn [snd]. now rewrite app_nil_r.
  - pose proof (sendRequest_requests chunk w) as H1.
    destruct (sendRequest fetch config (textRequest to_ chunk) w) as [r w1].
    pose proof (IH w1) as H2.
    destruct (sendEach fetch config to_ rest w1) as [rs w2].
    cbn [snd] in *. rewrite H2, H1, <- app_assoc. reflexivity.
Qed.

Lemma sendEach_results (chunks : list jsstring) (w : World) (r : SendResult) :
  In r (fst (sendEach fetch config to_ chunks w)) ->
  exists chunk w0,
    In chunk chunks /\ r = fst (sendRequest fetch config (textRequest to_ chunk) w0).
Proof.
  revert w. induction chunks as [|chunk rest IH]; intros w; cbn [sendEach].
  - intros [].
  - destruct (sendRequest fetch config (textRequest to_ chunk) w) as [r1 w1] eqn:E1.
    specialize (IH w1).
    destruct (sendEach fetch config to_ rest w1) as [rs w2].
    cbn [fst] in *. intros [<- | Hin].
    + exists chunk, w. rewrite E1. split; [left|]; reflexivity.
    + destruct (IH Hin) as (c & w0 & Hc & Hr). exists c, w0. split; [right|]; assumption.
Qed.

Lemma sendEach_length (chunks : list jsstring) (w : World) :
  length (fst (sendEach fetch config to_ chunks w)) = length chunks.
Proof.
  revert w. induction chunks as [|chunk rest IH]; intros w; cbn [sendEach]; [reflexivity|].
  destruct (sendRequest fetch config (textRequest to_ chunk) w) as [r1 w1].
  specialize (IH w1). destruct (sendEach fetch config to_ rest w1) as [rs w2].
  cbn [fst length] in *. now rewrite IH.
Qed.

Lemma last_cons_default {A : Type} (l : list A) (a d : A) :
  last (a :: l) d = last l a.
Proof.
  revert a d. induction l as [|b l IH]; intros a d; [reflexivity|].
  change (last (a :: b :: l) d) with (last (b :: l) d).
  now rewrite (IH b d), (IH b a).
Qed.

(** The loop of [sendText] sends a prefix of the chunks, in order: every
    send but the last one made succeeded, the result is that of the last
    send, and chunks are left unsent only after a failure. *)
Lemma sendText_loop_run (chunks : list jsstring) :
  forall (lastResult : SendResult) (w : World),
  exists sent skipped results,
    chunks = sent ++ skipped
    /\ sendEach fetch config to_ sent w
       = (results, snd (sendText_loop fetch config to_ chunks lastResult w))
    /\ fst (sendText_loop fetch config to_ chunks lastResult w) = last results lastResult
    /\ Forall (fun r => ok r = true) (removelast results)
    /\ (skipped <> [] -> ok (last results lastResult) = false)
    /\ (chunks <> [] -> sent <> []).
Proof.
  induction chunks as [|chunk rest IH]; intros lastResult w.
  - exists [], [], []. cbn. repeat split; auto; congruence.
  - cbn [sendText_loop].
    destruct (sendRequest fetch config (textRequest to_ chunk) w) as [r1 w1] eqn:E1.
    destruct (ok r1) eqn:Eok; cbn [negb].
    + destruct (IH r1 w1) as (sent & skipped & results & Hsplit & Hrun & Hres & Hall & Hskip & _).
      exists (chunk :: sent), skipped, (r1 :: results).
      split; [now rewrite Hsplit|]. split; [|split; [|split; [|split]]].
      * cbn [sendEach]. rewrite E1, Hrun. reflexivity.
      * rewrite Hres. symmetry. apply last_cons_default.
      * destruct results as [|r2 results]; [constructor|].
        change (removelast (r1 :: r2 :: results)) with (r1 :: removelast (r2 :: results)).
        constructor; assumption.
      * intros Hne. rewrite last_cons_default. exact (Hskip Hne).
      * discriminate.
    + exists [chunk], rest, [r1].
      split; [reflexivity|]. split; [|split; [|split; [|split]]].
      * cbn [sendEach]. rewrite E1. reflexivity.
      * reflexivity.
      * constructor.
      * intros _. exact Eok.
      * discriminate.
Qed.

End Sending.

(** C6.  [sendText] returns for every text.  A text of at most 4096
    characters is sent as one request whose body is the whole text.  In
    general the chunks have at most 4096 characters each; they are sent in
    order, one request per chunk and each request after the previous one
    has been answered; every send before the last one made succeeded, the
    result returned is that of the last send, chunks are left unsent only
    when that send failed (the result then carries an error), and a result
    with [ok = true] means that every chunk was sent and every send
    succeeded. *)
Theorem sendText_chunking
    (fetch : World -> FetchRequest -> FetchResult)
    (config : WhatsAppCloudConfig) (to_ text_ : jsstring) (w : World) :
  exists chunks sent skipped results r w',
    splitMessage text_ 4096 = Some chunks
    /\ sendText fetch config to_ text_ w = Some (r, w')
    /\ Forall (fun chunk => len chunk <= 4096) chunks
    /\ chunks = sent ++ skipped
    /\ sendEach fetch config to_ sent w = (results, w')
    /\ requestsOf w' = requestsOf w ++ map (textFetch config to_) sent
    /\ r = last results NO_CHUNKS
    /\ Forall (fun x => ok x = true) (removelast results)
    /\ (skipped <> [] -> ok r = false)
    /\ (ok r = false -> exists e, error r = Some e)
    /\ (ok r = true -> skipped = [] /\ Forall (fun x => ok x = true) results)
    /\ (len text_ <= 4096 ->
        chunks = [text_]
        /\ requestsOf w' = requestsOf w ++ [textFetch config to_ text_]
        /\ body (fetch_body (textFetch config to_ text_)) = text_).
Proof.
  destruct (splitMessage_returns text_ 4096 ltac:(lia))
    as (chunks & Hsplit & Hne & Hlen & Hfits).
  destruct (sendText_loop_run fetch config to_ chunks NO_CHUNKS w)
    as (sent & skipped & results & Hparts & Hrun & Hres & Hall & Hskip & Hsent).
  exists chunks, sent, skipped, results,
    (fst (sendText_loop fetch config to_ chunks NO_CHUNKS w)),
    (snd (sendText_loop fetch config to_ chunks NO_CHUNKS w)).
  pose proof (sendEach_requests fetch config to_ sent w) as Hreq.
  rewrite Hrun in Hreq. cbn [snd] in Hreq.
  split; [exact Hsplit|].
  split; [unfold sendText; rewrite Hsplit; now destruct (sendText_loop _ _ _ _ _ _)|].
  split; [exact Hlen|]. split; [exact Hparts|]. split; [exact Hrun|].
  split; [exact Hreq|].
  split; [exact Hres|]. split; [exact Hall|].
  split; [rewrite Hres; exact Hskip|].
  split; [|split].
  - rewrite Hres.
    destruct results as [|r0 results] using rev_ind; [cbn; eauto|].
    rewrite last_last. intros Hfail.
    pose proof (sendEach_results fetch config to_ sent w r0) as Hprov.
    rewrite Hrun in Hprov. cbn [fst] in Hprov.
    destruct Hprov as (chunk & w0 & _ & ->);
      [apply in_or_app; right; left; reflexivity|].
    now apply sendRequest_failure_has_error.
  - intros Hok. rewrite Hres in Hok.
    assert (Hnil : skipped = []).
    { destruct skipped; [reflexivity|].
      rewrite Hskip in Hok by discriminate. discriminate. }
    split; [exact Hnil|].
    destruct results as [|r0 results] using rev_ind; [constructor|].
    rewrite removelast_last in Hall. rewrite last_last in Hok.
    apply Forall_app. split; [exact Hall|]. constructor; [exact Hok | constructor].
  - intros Hle. specialize (Hfits Hle). subst chunks.
    split; [reflexivity|]. split; [|reflexivity].
    destruct sent as [|c sent]; [exfalso; apply Hsent; [discriminate | reflexivity]|].
    injection Hparts as <- Hrest.
    symmetry in Hrest. apply app_eq_nil in Hrest as [-> ->]. exact Hreq.
Qed.

(** C10.  [splitMessage] never returns an empty list, and with a positive
    limit it returns for every text, the empty one included.  So the loop
    of [sendText] runs at least once: at least one request is issued, and
    the value returned is the result of a [sendRequest] call, not the
    initial [{ ok: false, error: "No chunks" }]. *)
Theorem sendText_sends_at_least_once
    (fetch : World -> FetchRequest -> FetchResult)
    (config : WhatsAppCloudConfig) (to_ text_ : jsstring) (w : World) :
  (forall maxLength chunks, splitMessage text_ maxLength = Some chunks -> chunks <> [])
  /\ (forall maxLength, 1 <= maxLength ->
        exists chunks, splitMessage text_ maxLength = Some chunks /\ chunks <> [])
  /\ exists chunks r w',
       splitMessage text_ 4096 = Some chunks /\ chunks <> []
       /\ sendText fetch config to_ text_ w = Some (r, w')
       /\ (length (requestsOf w) < length (requestsOf w'))%nat
       /\ exists chunk w0,
            In chunk chunks
            /\ r = fst (sendRequest fetch config (textRequest to_ chunk) w0).
Proof.
  split; [intros maxLength chunks; apply splitMessage_nonempty|].
  split.
  { intros maxLength Hmax.
    destruct (splitMessage_returns text_ maxLength Hmax) as (chunks & H & Hne & _).
    eauto. }
  destruct (splitMessage_returns text_ 4096 ltac:(lia))
    as (chunks & Hsplit & Hne & _ & _).
  destruct (sendText_loop_run fetch config to_ chunks NO_CHUNKS w)
    as (sent & skipped & results & Hparts & Hrun & Hres & _ & _ & Hsent).
  specialize (Hsent Hne).
  exists chunks,
    (fst (sendText_loop fetch config to_ chunks NO_CHUNKS w)),
    (snd (sendText_loop fetch config to_ chunks NO_CHUNKS w)).
  split; [exact Hsplit|]. split; [exact Hne|].
  split; [unfold sendText; rewrite Hsplit; now destruct (sendText_loop _ _ _ _ _ _)|].
  pose proof (sendEach_requests fetch config to_ sent w) as Hreq.
  pose proof (sendEach_length fetch config to_ sent w) as Hlen.
  rewrite Hrun in Hreq, Hlen. cbn [fst snd] in Hreq, Hlen.
  split.
  - rewrite Hreq, length_app, length_map.
    destruct sent; [contradiction | simpl; lia].
  - assert (Hin : In (last results NO_CHUNKS) results).
    { destruct results as [|r0 results] using rev_ind.
      - destruct sent; [contradiction | discriminate].
      - rewrite last_last. apply in_or_app. right. left. reflexivity. }
    rewrite Hres.
    pose proof (sendEach_results fetch config to_ sent w (last results NO_CHUNKS)) as Hprov.
    rewrite Hrun in Hprov. cbn [fst] in Hprov.
    destruct (Hprov Hin) as (chunk & w0 & Hc & Hr).
    exists chunk, w0. split; [|exact Hr].
    rewrite Hparts. apply in_or_app. now left.
Qed.

Lemma sendText_chunking_witness :
  exists r w',
    sendText (mockApiSuccess (lit "wamid.sent123")) makeConfig
             (lit "393491234567") (lit "Ciao!") [] = Some (r, w')
    /\ map (fun q => body (fetch_body q)) (requestsOf w') = [lit "Ciao!"].
Proof.
  destruct (sendText_chunking (mockApiSuccess (lit "wamid.sent123")) makeConfig
              (lit "393491234567") (lit "Ciao!") [])
    as (chunks & sent & skipped & results & r & w' & _ & Hsend & _ & _ & _
        & _ & _ & _ & _ & _ & _ & Hfits).
  exists r, w'. split; [exact Hsend|].
  destruct Hfits as (_ & Hreq & _); [vm_compute; discriminate|].
  rewrite Hreq. reflexivity.
Defined.

Lemma sendText_sends_at_least_once_witness :
  exists chunks, splitMessage [] 4096 = Some chunks /\ chunks <> [].
Proof.
  apply (proj1 (proj2 (sendText_sends_at_least_once
                         (mockApiSuccess (lit "wamid.sent123")) makeConfig
                         (lit "393491234567") [] [])) 4096).
  lia.
Defined.

(** ** The scenarios of the test suites, run on the model *)

(** "accepts a valid signature" and "rejects a tampered body". *)
Example valid_signature_accepted_tampered_body_rejected :
  verifyWebhookSignature (lit "{object:whatsapp_business_account}")
    (Some (sign (lit "{object:whatsapp_business_account}")
                (lit "test_app_secret_1234567890")))
    (lit "test_app_secret_1234567890") = true
  /\ verifyWebhookSignature (lit "{object:whatsapp_business_account,extra:true}")
       (Some (sign (lit "{object:whatsapp_business_account}")
                   (lit "test_app_secret_1234567890")))
       (lit "test_app_secret_1234567890") = false.
Proof. vm_compute. split; reflexivity. Qed.

(** A body with one byte changed is rejected against the original signature. *)
Example single_byte_mutation_rejected :
  verifyWebhookSignature (lit "{object:whatsapp_business_accounT}")
    (Some (sign (lit "{object:whatsapp_business_account}")
                (lit "test_app_secret_1234567890")))
    (lit "test_app_secret_1234567890") = false.
Proof. vm_compute. reflexivity. Qed.

(** "processes a text message": a signed POST reaches [onMessage], and the
    answer is 200 ["OK"]. *)
Example signed_text_message_dispatched :
  let trace :=
    server (parseOnly (lit "text-payload")
              (payloadOf (textMessage (lit "393491234567") (lit "Hello bot!"))))
           makeConfig true
           (postRequest (lit "text-payload") (Some (sign (lit "text-payload") APP_SECRET))) in
  responseOf trace = [WriteHead 200 (Some (lit "text/plain")); End_ (lit "OK")]
  /\ map (fun m => (from m, text m, senderName m, type m)) (dispatched trace)
     = [(lit "393491234567", lit "Hello bot!", lit "Test User", lit "text")].
Proof. vm_compute. split; reflexivity. Qed.

(** The same POST with a tampered signature is answered 200 ["OK"] and
    dropped. *)
Example tampered_signature_dropped :
  let trace :=
    server (parseOnly (lit "text-payload")
              (payloadOf (textMessage (lit "393491234567") (lit "Hello bot!"))))
           makeConfig true
           (postRequest (lit "text-payload") (Some (sign (lit "text-payloaD") APP_SECRET))) in
  responseOf trace = [WriteHead 200 (Some (lit "text/plain")); End_ (lit "OK")]
  /\ dispatched trace = [].
Proof. vm_compute. split; reflexivity. Qed.

(** "blocks non-allowlisted numbers with dmPolicy=allowlist". *)
Example non_allowlisted_sender_blocked :
  dispatched (processMessage (textMessage (lit "393499999999") (lit "Hi")) []
                (makeAllowlistConfig [lit "+393491111111"])) = [].
Proof. reflexivity. Qed.

(** "splits long messages into chunks": 5000 characters, two requests. *)
Example long_text_sent_in_two_requests :
  option_map (fun p => (ok (fst p),
                        map (fun q => len (body (fetch_body q))) (requestsOf (snd p))))
             (sendText (mockApiSuccess (lit "wamid.chunk1")) makeConfig
                       (lit "393491234567") (repeat 65 5000) [])
  = Some (true, [4096; 904]).
Proof. vm_compute. reflexivity. Qed.

(** A failure on the second chunk stops the run: the third is not sent. *)
Example failure_aborts_remaining_chunks :
  option_map (fun p => (ok (fst p), error (fst p),
                        map (fun q => len (body (fetch_body q))) (requestsOf (snd p))))
             (sendText mockApiFirstOnly makeConfig
                       (lit "393491234567") (repeat 65 5000 ++ repeat 65 5000) [])
  = Some (false, Some (lit "ECONNREFUSED"), [4096; 4096]).
Proof. vm_compute. reflexivity. Qed.

(** "handles API errors gracefully". *)
Example api_error_is_returned :
  option_map (fun p => (ok (fst p), error (fst p)))
             (sendText (mockApiError 401 (lit "Invalid OAuth token")) makeConfig
                       (lit "393491234567") (lit "Hello") [])
  = Some (false, Some (lit "Invalid OAuth token")).
Proof. vm_compute. reflexivity. Qed.

(** ** Test vectors for the model of node:crypto *)

Example sha256_abc :
  hex (sha256 (Buffer_from (lit "abc")))
  = lit "ba7816bf8f01cfea414140de5dae2223b00361a396177a9cb410ff61f20015ad".
Proof. vm_compute. reflexivity. Qed.

Example sha256_two_blocks :
  hex (sha256 (Buffer_from
    (lit "abcdbcdecdefdefgefghfghighijhijkijkljklmklmnlmnomnopnopq")))
  = lit "248d6a61d20638b8e5c026930c3e6039a33ce45964ff2167f6ecedd419db06c1".
Proof. vm_compute. reflexivity. Qed.

Example hmac_rfc4231_case2 :
  createHmac_sha256_hex (lit "Jefe") (lit "what do ya want for nothing?")
  = lit "5bdcc146bf60754e6a042426089575c75a003f089d2739839dec58b964ec3843".
Proof. vm_compute. reflexivity. Qed.

(* ====================================================================== *)
(** * Further properties of the listener *)
(* ====================================================================== *)

Lemma observed_flat_map {A B C : Type} (g : B -> list C) (f : A -> list B) (l : list A) :
  flat_map g (flat_map f l) = flat_map (fun a => flat_map g (f a)) l.
Proof.
  induction l as [|a l IH]; simpl; [reflexivity|].
  now rewrite flat_map_app, IH.
Qed.

Lemma observed_nothing {A B C : Type} (g : B -> list C) (f : A -> list B) (l : list A) :
  (forall a, flat_map g (f a) = []) -> flat_map g (flat_map f l) = [].
Proof.
  intros H. rewrite observed_flat_map.
  induction l as [|a l IH]; simpl; [reflexivity|]. now rewrite H, IH.
Qed.

Lemma observed_map_nothing {A B C : Type} (g : B -> list C) (f : A -> B) (l : list A) :
  (forall a, g (f a) = []) -> flat_map g (map f l) = [].
Proof.
  intros H. induction l as [|a l IH]; simpl; [reflexivity|]. now rewrite H, IH.
Qed.

Section EveryRequest.

Variable JSON_parse : jsstring -> ParseResult.
Variable URL_parse : jsstring -> jsstring -> UrlResult.
Variable config : WhatsAppCloudConfig.
Variable onStatus : bool.

(** Once the URL has parsed, exactly one response is written: one status
    line followed by one body, with status 200, 403 or 404. *)
Lemma server_answers_once (req : HttpRequest) :
  exists status contentType responseBody,
    responseOf (server JSON_parse config onStatus req)
    = [WriteHead status contentType; End_ responseBody]
    /\ (status = 200 \/ status = 403 \/ status = 404).
Proof.
  unfold server.
  destruct (streq (method req) (lit "GET") && streq (pathname req) (webhookPath config)).
  - unfold handleVerification.
    destruct (opt_streq _ (lit "subscribe") && opt_streq _ (verifyToken config)
              && opt_truthy _); cbn; eauto 8.
  - destruct (streq (method req) (lit "POST") && streq (pathname req) (webhookPath config)).
    + destruct (handleIncoming_response_first JSON_parse req config onStatus)
        as (rest & -> & Hrest).
      cbn [responseOf filter]. fold (responseOf rest). rewrite Hrest. eauto 8.
    + destruct (streq (method req) (lit "GET") && streq (pathname req) (lit "/health"));
        cbn; eauto 8.
Qed.

(** The last branch of the listener. *)
Lemma server_unknown_route (req : HttpRequest) :
  (pathname req <> webhookPath config
   \/ (method req <> lit "GET" /\ method req <> lit "POST")) ->
  (pathname req <> lit "/health" \/ method req <> lit "GET") ->
  server JSON_parse config onStatus req = [WriteHead 404 None; End_ (lit "Not found")].
Proof.
  intros Hhook Hhealth. unfold server.
  assert (H1 : streq (method req) (lit "GET") && streq (pathname req) (webhookPath config)
               = false).
  { apply andb_false_iff. destruct Hhook as [H | [H _]];
      [right | left]; now apply streq_false_iff. }
  assert (H2 : streq (method req) (lit "POST") && streq (pathname req) (webhookPath config)
               = false).
  { apply andb_false_iff. destruct Hhook as [H | [_ H]];
      [right | left]; now apply streq_false_iff. }
  assert (H3 : streq (method req) (lit "GET") && streq (pathname req) (lit "/health")
               = false).
  { apply andb_false_iff. destruct Hhealth as [H | H];
      [right | left]; now apply streq_false_iff. }
  now rewrite H1, H2, H3.
Qed.

(** X1.  The listener answers a request exactly when its URL parses, and
    then exactly once: one status line followed by one body, with status
    200, 403 or 404.  When [new URL] throws on the request target the
    listener is left before anything is written: the request gets no
    response, not even a 404. *)
Theorem every_request_answered_once (req : IncomingRequest) :
  (listener JSON_parse URL_parse config onStatus req = None
   <-> URL_parse (nullish (req_url req) (lit "/"))
                 (lit "http://" ++ nullish (req_host req) (lit "localhost"))
       = UrlThrows)
  /\ (forall trace,
        listener JSON_parse URL_parse config onStatus req = Some trace ->
        exists status contentType responseBody,
          responseOf trace = [WriteHead status contentType; End_ responseBody]
          /\ (status = 200 \/ status = 403 \/ status = 404)).
Proof.
  unfold listener.
  destruct (URL_parse _ _) as [|path params].
  - split; [split; reflexivity | discriminate].
  - split; [split; discriminate|].
    intros trace H. injection H as <-. apply server_answers_once.
Qed.

(** X2.  A request whose URL parses and that is neither a GET or POST on
    the webhook path nor a GET on [/health] gets 404 ["Not found"], and
    nothing else happens: no log line, no callback. *)
Theorem unknown_route_not_found
    (req : IncomingRequest) (path : jsstring) (params : list (jsstring * jsstring)) :
  URL_parse (nullish (req_url req) (lit "/"))
            (lit "http://" ++ nullish (req_host req) (lit "localhost"))
  = UrlParsed path params ->
  (path <> webhookPath config
   \/ (req_method req <> lit "GET" /\ req_method req <> lit "POST")) ->
  (path <> lit "/health" \/ req_method req <> lit "GET") ->
  listener JSON_parse URL_parse config onStatus req
  = Some [WriteHead 404 None; End_ (lit "Not found")].
Proof.
  intros Hurl Hhook Hhealth. unfold listener. rewrite Hurl. f_equal.
  apply server_unknown_route; assumption.
Qed.

(** X3.  The liveness check answers a GET on [/health] with the fixed
    JSON body, unless the webhook itself is configured on [/health]: the
    request is then taken for a verification challenge. *)
Theorem health_check_unless_shadowed (req : HttpRequest) :
  method req = lit "GET" -> pathname req = lit "/health" ->
  (webhookPath config <> lit "/health" ->
   server JSON_parse config onStatus req
   = [WriteHead 200 (Some (lit "application/json"));
      End_ (lit "{" ++ DQUOTE ++ lit "status" ++ DQUOTE ++ lit ":"
            ++ DQUOTE ++ lit "ok" ++ DQUOTE ++ lit ","
            ++ DQUOTE ++ lit "channel" ++ DQUOTE ++ lit ":"
            ++ DQUOTE ++ lit "whatsapp-cloud" ++ DQUOTE ++ lit "}")])
  /\ (webhookPath config = lit "/health" ->
      server JSON_parse config onStatus req = handleVerification (searchParams req) config).
Proof.
  intros Hm Hp. unfold server. rewrite Hm, Hp. split; intros Hw.
  - assert (H : streq (lit "/health") (webhookPath config) = false)
      by (apply streq_false_iff; congruence).
    rewrite H. reflexivity.
  - rewrite Hw. reflexivity.
Qed.

End EveryRequest.

Lemma every_request_answered_once_witness :
  listener (fun _ => ParsedUntyped) (urlOnly (lit "/unknown") (lit "/unknown") [])
           makeConfig true (bareRequest (lit "GET") (lit "//"))
  = None
  /\ exists status contentType responseBody,
       responseOf [WriteHead 404 None; End_ (lit "Not found")]
       = [WriteHead status contentType; End_ responseBody]
       /\ (status = 200 \/ status = 403 \/ status = 404).
Proof.
  split.
  - apply (proj1 (every_request_answered_once
                    (fun _ => ParsedUntyped)
                    (urlOnly (lit "/unknown") (lit "/unknown") [])
                    makeConfig true (bareRequest (lit "GET") (lit "//")))).
    reflexivity.
  - apply (proj2 (every_request_answered_once
                    (fun _ => ParsedUntyped)
                    (urlOnly (lit "/unknown") (lit "/unknown") [])
                    makeConfig true (bareRequest (lit "GET") (lit "/unknown")))).
    reflexivity.
Defined.

Lemma unknown_route_not_found_witness :
  listener (fun _ => ParsedUntyped) (urlOnly (lit "/unknown") (lit "/unknown") [])
           makeConfig true (bareRequest (lit "GET") (lit "/unknown"))
  = Some [WriteHead 404 None; End_ (lit "Not found")].
Proof.
  apply (unknown_route_not_found
           (fun _ => ParsedUntyped) (urlOnly (lit "/unknown") (lit "/unknown") [])
           makeConfig true (bareRequest (lit "GET") (lit "/unknown"))
           (lit "/unknown") []).
  - reflexivity.
  - left. discriminate.
  - left. discriminate.
Defined.

Lemma health_check_unless_shadowed_witness :
  responseOf
    (server (fun _ => ParsedUntyped) makeConfig true
       {| method := lit "GET"; pathname := lit "/health"; searchParams := [];
          x_hub_signature_256 := None; chunks := [] |})
  = [WriteHead 200 (Some (lit "application/json"));
     End_ (lit "{" ++ DQUOTE ++ lit "status" ++ DQUOTE ++ lit ":"
           ++ DQUOTE ++ lit "ok" ++ DQUOTE ++ lit ","
           ++ DQUOTE ++ lit "channel" ++ DQUOTE ++ lit ":"
           ++ DQUOTE ++ lit "whatsapp-cloud" ++ DQUOTE ++ lit "}")].
Proof.
  rewrite (proj1 (health_check_unless_shadowed (fun _ => ParsedUntyped) makeConfig true
                    {| method := lit "GET"; pathname := lit "/health"; searchParams := [];
                       x_hub_signature_256 := None; chunks := [] |} eq_refl eq_refl)).
  - reflexivity.
  - discriminate.
Defined.

(** ** What a POST sets off *)

Lemma map_flat_map {A B C : Type} (f : B -> C) (g : A -> list B) (l : list A) :
  map f (flat_map g l) = flat_map (fun a => map f (g a)) l.
Proof.
  induction l as [|a l IH]; simpl; [reflexivity|]. now rewrite map_app, IH.
Qed.

Lemma filter_flat_map {A B : Type} (p : B -> bool) (g : A -> list B) (l : list A) :
  filter p (flat_map g l) = flat_map (fun a => filter p (g a)) l.
Proof.
  induction l as [|a l IH]; simpl; [reflexivity|]. now rewrite filter_app, IH.
Qed.

Lemma readReceipts_app (t1 t2 : list Event) :
  readReceipts (t1 ++ t2) = readReceipts t1 ++ readReceipts t2.
Proof. unfold readReceipts. apply flat_map_app. Qed.

Lemma statusUpdates_app (t1 t2 : list Event) :
  statusUpdates (t1 ++ t2) = statusUpdates t1 ++ statusUpdates t2.
Proof. unfold statusUpdates. apply flat_map_app. Qed.

(** One message: dispatched if and only if the policy admits its sender. *)
Lemma processMessage_dispatched_id
    (msg : IncomingMessage) (contacts : list WebhookContact) (config : WhatsAppCloudConfig) :
  map messageId (dispatched (processMessage msg contacts config))
  = if admits config (msg_from msg) then [msg_id msg] else [].
Proof.
  rewrite processMessage_dispatched. unfold admits.
  destruct (dmPolicy config); [reflexivity|].
  destruct (existsb _ (allowFrom config)); reflexivity.
Qed.

(** One message: a read receipt exactly when it is dispatched and
    receipts are switched on. *)
Lemma processMessage_readReceipts
    (msg : IncomingMessage) (contacts : list WebhookContact) (config : WhatsAppCloudConfig) :
  readReceipts (processMessage msg contacts config)
  = if sendReadReceipts config
    then map messageId (dispatched (processMessage msg contacts config)) else [].
Proof.
  rewrite processMessage_dispatched_id. unfold processMessage, admits.
  destruct (dmPolicy config); cbn [negb].
  - cbv zeta. destruct (sendReadReceipts config); reflexivity.
  - destruct (existsb _ (allowFrom config)); cbn [negb].
    + cbv zeta. destruct (sendReadReceipts config); reflexivity.
    + destruct (sendReadReceipts config); reflexivity.
Qed.

Lemma processMessage_statusUpdates
    (msg : IncomingMessage) (contacts : list WebhookContact) (config : WhatsAppCloudConfig) :
  statusUpdates (processMessage msg contacts config) = [].
Proof.
  unfold processMessage.
  destruct (match dmPolicy config with
            | policy_allowlist => _ | policy_open => false end); [reflexivity|].
  cbv zeta. destruct (sendReadReceipts config); reflexivity.
Qed.

Lemma messages_dispatched_ids
    (msgs : list IncomingMessage) (contacts : list WebhookContact)
    (config : WhatsAppCloudConfig) :
  map messageId (dispatched (flat_map (fun msg => processMessage msg contacts config) msgs))
  = map msg_id (filter (fun m => admits config (msg_from m)) msgs).
Proof.
  induction msgs as [|msg msgs IH]; [reflexivity|].
  cbn [flat_map filter]. rewrite dispatched_app, map_app, IH, processMessage_dispatched_id.
  destruct (admits config (msg_from msg)); reflexivity.
Qed.

Lemma messages_readReceipts
    (msgs : list IncomingMessage) (contacts : list WebhookContact)
    (config : WhatsAppCloudConfig) :
  readReceipts (flat_map (fun msg => processMessage msg contacts config) msgs)
  = if sendReadReceipts config
    then map messageId
           (dispatched (flat_map (fun msg => processMessage msg contacts config) msgs))
    else [].
Proof.
  induction msgs as [|msg msgs IH]; [now destruct (sendReadReceipts config)|].
  cbn [flat_map]. rewrite readReceipts_app, dispatched_app, map_app, IH,
    processMessage_readReceipts.
  destruct (sendReadReceipts config); reflexivity.
Qed.

Lemma processChange_dispatched_ids
    (change : WebhookChange) (config : WhatsAppCloudConfig) (onStatus : bool) :
  map messageId (dispatched (processChange change config onStatus))
  = map msg_id
      (filter (fun m => admits config (msg_from m))
         (if streq (change_field change) (lit "messages")
          then nullish (value_messages (change_value change)) [] else [])).
Proof.
  unfold processChange.
  destruct (streq (change_field change) (lit "messages")); [|reflexivity].
  cbn [negb]. cbv beta iota zeta. rewrite !dispatched_app.
  replace (dispatched (map _ (nullish (value_errors (change_value change)) [])))
    with (@nil ParsedInboundMessage)
    by (symmetry; apply observed_map_nothing; reflexivity).
  replace (dispatched (if onStatus then _ else _)) with (@nil ParsedInboundMessage)
    by (destruct onStatus; [symmetry; apply observed_map_nothing|]; reflexivity).
  apply messages_dispatched_ids.
Qed.

Lemma processChange_readReceipts
    (change : WebhookChange) (config : WhatsAppCloudConfig) (onStatus : bool) :
  readReceipts (processChange change config onStatus)
  = if sendReadReceipts config
    then map messageId (dispatched (processChange change config onStatus)) else [].
Proof.
  unfold processChange.
  destruct (streq (change_field change) (lit "messages"));
    [|now destruct (sendReadReceipts config)].
  cbn [negb]. cbv beta iota zeta. rewrite !dispatched_app, !readReceipts_app.
  replace (dispatched (map _ (nullish (value_errors (change_value change)) [])))
    with (@nil ParsedInboundMessage)
    by (symmetry; apply observed_map_nothing; reflexivity).
  replace (readReceipts (map _ (nullish (value_errors (change_value change)) [])))
    with (@nil jsstring)
    by (symmetry; apply observed_map_nothing; reflexivity).
  replace (dispatched (if onStatus then _ else _)) with (@nil ParsedInboundMessage)
    by (destruct onStatus; [symmetry; apply observed_map_nothing|]; reflexivity).
  replace (readReceipts (if onStatus then _ else _)) with (@nil jsstring)
    by (destruct onStatus; [symmetry; apply observed_map_nothing|]; reflexivity).
  apply messages_readReceipts.
Qed.

Lemma processChange_statusUpdates
    (change : WebhookChange) (config : WhatsAppCloudConfig) (onStatus : bool) :
  statusUpdates (processChange change config onStatus)
  = if onStatus
    then map (fun s => (status_id s, status_status s, recipient_id s))
           (if streq (change_field change) (lit "messages")
            then nullish (value_statuses (change_value change)) [] else [])
    else [].
Proof.
  unfold processChange.
  destruct (streq (change_field change) (lit "messages"));
    [|now destruct onStatus].
  cbn [negb]. cbv beta iota zeta. rewrite !statusUpdates_app.
  replace (statusUpdates (map _ (nullish (value_errors (change_value change)) [])))
    with (@nil (jsstring * jsstring * jsstring))
    by (symmetry; apply observed_map_nothing; reflexivity).
  replace (statusUpdates (flat_map _ (nullish (value_messages (change_value change)) [])))
    with (@nil (jsstring * jsstring * jsstring))
    by (symmetry; apply observed_nothing; intros; apply processMessage_statusUpdates).
  rewrite app_nil_r. cbn [app]. destruct onStatus; [|reflexivity].
  generalize (nullish (value_statuses (change_value change)) []).
  intros l. induction l as [|s l IH]; [reflexivity|].
  cbn [map]. unfold statusUpdates in *. cbn [flat_map app]. now rewrite IH.
Qed.

Lemma lift_dispatched_ids {A : Type} (f : A -> list Event) (g : A -> list IncomingMessage)
    (p : IncomingMessage -> bool) (l : list A) :
  (forall a, map messageId (dispatched (f a)) = map msg_id (filter p (g a))) ->
  map messageId (dispatched (flat_map f l)) = map msg_id (filter p (flat_map g l)).
Proof.
  intros H. induction l as [|a l IH]; [reflexivity|].
  cbn [flat_map]. now rewrite dispatched_app, filter_app, !map_app, H, IH.
Qed.

Lemma lift_readReceipts {A : Type} (f : A -> list Event) (b : bool) (l : list A) :
  (forall a, readReceipts (f a) = if b then map messageId (dispatched (f a)) else []) ->
  readReceipts (flat_map f l) = if b then map messageId (dispatched (flat_map f l)) else [].
Proof.
  intros H. induction l as [|a l IH]; [now destruct b|].
  cbn [flat_map]. rewrite readReceipts_app, dispatched_app, map_app, H, IH.
  now destruct b.
Qed.

Lemma lift_statusUpdates {A B : Type} (f : A -> list Event) (g : A -> list B)
    (k : B -> jsstring * jsstring * jsstring) (b : bool) (l : list A) :
  (forall a, statusUpdates (f a) = if b then map k (g a) else []) ->
  statusUpdates (flat_map f l) = if b then map k (flat_map g l) else [].
Proof.
  intros H. induction l as [|a l IH]; [now destruct b|].
  cbn [flat_map]. rewrite statusUpdates_app, map_app, H, IH. now destruct b.
Qed.

Section Processing.

Variable JSON_parse : jsstring -> ParseResult.
Variable config : WhatsAppCloudConfig.
Variable onStatus : bool.

(** The events of the entries of a payload. *)
Let entriesTrace (payload : WebhookPayload) : list Event :=
  flat_map (fun entry =>
              flat_map (fun change => processChange change config onStatus)
                       (entry_changes entry))
           (payload_entry payload).

Lemma entries_dispatched_ids (payload : WebhookPayload) :
  map messageId (dispatched (entriesTrace payload))
  = map msg_id (filter (fun m => admits config (msg_from m)) (inboundMessages payload)).
Proof.
  unfold entriesTrace, inboundMessages, messageChanges.
  rewrite observed_flat_map.
  apply lift_dispatched_ids. intros entry.
  rewrite observed_flat_map.
  apply lift_dispatched_ids. intros change.
  rewrite processChange_dispatched_ids.
  destruct (streq (change_field change) (lit "messages")); [|reflexivity].
  cbn [flat_map]. now rewrite app_nil_r.
Qed.

Lemma entries_statusUpdates (payload : WebhookPayload) :
  statusUpdates (entriesTrace payload)
  = if onStatus
    then map (fun s => (status_id s, status_status s, recipient_id s))
           (inboundStatuses payload)
    else [].
Proof.
  unfold entriesTrace, inboundStatuses, messageChanges.
  rewrite observed_flat_map.
  apply lift_statusUpdates. intros entry.
  rewrite observed_flat_map.
  apply lift_statusUpdates. intros change.
  rewrite processChange_statusUpdates.
  destruct (streq (change_field change) (lit "messages")); [|reflexivity].
  cbn [flat_map]. now rewrite app_nil_r.
Qed.

Lemma entries_readReceipts (payload : WebhookPayload) :
  readReceipts (entriesTrace payload)
  = if sendReadReceipts config
    then map messageId (dispatched (entriesTrace payload)) else [].
Proof.
  unfold entriesTrace.
  apply lift_readReceipts. intros entry.
  apply lift_readReceipts. intros change.
  apply processChange_readReceipts.
Qed.

(** A POST that passes the signature gate (no secret configured, or the
    header is the signature of the body) and parses to a payload of the
    provider: the response and at most a debug line, then the entries. *)
Lemma handleIncoming_passes (req : HttpRequest) (payload : WebhookPayload) :
  (appSecret config = []
   \/ x_hub_signature_256 req = Some (sign (concat (chunks req)) (appSecret config))) ->
  JSON_parse (concat (chunks req)) = Parsed payload ->
  payload_object payload = lit "whatsapp_business_account" ->
  exists before,
    handleIncoming JSON_parse req config onStatus = before ++ entriesTrace payload
    /\ dispatched before = [] /\ statusUpdates before = [] /\ readReceipts before = [].
Proof.
  intros Hgate Hparse Hobject. unfold handleIncoming.
  assert (Hopen : truthy (appSecret config)
                  && negb (verifyWebhookSignature (concat (chunks req))
                             (x_hub_signature_256 req) (appSecret config)) = false).
  { destruct (truthy (appSecret config)) eqn:Es; [|reflexivity].
    apply truthy_true_iff in Es.
    destruct Hgate as [Hnil | Hsig]; [contradiction|].
    assert (Hv : verifyWebhookSignature (concat (chunks req))
                   (x_hub_signature_256 req) (appSecret config) = true).
    { apply verifyWebhookSignature_true_iff. eexists. split; [exact Hsig|].
      split; [unfold sign; discriminate|]. auto. }
    now rewrite Hv. }
  rewrite Hopen, Hparse, Hobject, streq_refl. cbn [negb].
  fold (entriesTrace payload).
  eexists. rewrite !app_assoc. split; [reflexivity|].
  destruct (truthy (appSecret config)); repeat split; reflexivity.
Qed.

(** X4.  The messages of a batch reach [onMessage] one by one, in array
    order across entries and changes, each one if and only if the access
    policy admits its own sender: a batch can mix admitted and blocked
    senders.  This holds for a POST whose header is the signature of its
    body, and for any POST when no [appSecret] is configured. *)
Theorem batch_dispatched_in_order_per_sender (req : HttpRequest) (payload : WebhookPayload) :
  method req = lit "POST" -> pathname req = webhookPath config ->
  (appSecret config = []
   \/ x_hub_signature_256 req = Some (sign (concat (chunks req)) (appSecret config))) ->
  JSON_parse (concat (chunks req)) = Parsed payload ->
  payload_object payload = lit "whatsapp_business_account" ->
  map messageId (dispatched (server JSON_parse config onStatus req))
  = map msg_id (filter (fun m => admits config (msg_from m)) (inboundMessages payload)).
Proof.
  intros Hm Hp Hgate Hparse Hobject.
  rewrite (server_POST JSON_parse _ _ _ Hm Hp).
  destruct (handleIncoming_passes req payload Hgate Hparse Hobject)
    as (before & -> & Hd & _ & _).
  rewrite dispatched_app, Hd. apply entries_dispatched_ids.
Qed.

(** X5.  Status updates go to [onStatus] in array order when a status
    handler is registered, and nowhere otherwise; the access policy does
    not apply to them. *)
Theorem statuses_forwarded_regardless_of_policy
    (req : HttpRequest) (payload : WebhookPayload) :
  method req = lit "POST" -> pathname req = webhookPath config ->
  (appSecret config = []
   \/ x_hub_signature_256 req = Some (sign (concat (chunks req)) (appSecret config))) ->
  JSON_parse (concat (chunks req)) = Parsed payload ->
  payload_object payload = lit "whatsapp_business_account" ->
  statusUpdates (server JSON_parse config onStatus req)
  = if onStatus
    then map (fun s => (status_id s, status_status s, recipient_id s))
           (inboundStatuses payload)
    else [].
Proof.
  intros Hm Hp Hgate Hparse Hobject.
  rewrite (server_POST JSON_parse _ _ _ Hm Hp).
  destruct (handleIncoming_passes req payload Hgate Hparse Hobject)
    as (before & -> & _ & Hs & _).
  rewrite statusUpdates_app, Hs. apply entries_statusUpdates.
Qed.

(** X6.  Read receipts follow dispatch: on every request, the listener
    asks for a read receipt for exactly the messages it hands to
    [onMessage], in the same order, when [sendReadReceipts] is set, and
    for none otherwise.  A blocked sender never gets one. *)
Theorem read_receipts_follow_dispatch (req : HttpRequest) :
  readReceipts (server JSON_parse config onStatus req)
  = if sendReadReceipts config
    then map messageId (dispatched (server JSON_parse config onStatus req))
    else [].
Proof.
  assert (Hnone : forall t, readReceipts t = [] -> dispatched t = [] ->
                            readReceipts t
                            = if sendReadReceipts config
                              then map messageId (dispatched t) else []).
  { intros t -> ->. now destruct (sendReadReceipts config). }
  unfold server.
  destruct (streq (method req) (lit "GET") && streq (pathname req) (webhookPath config)).
  { unfold handleVerification.
    destruct (opt_streq _ (lit "subscribe") && opt_streq _ (verifyToken config)
              && opt_truthy _); apply Hnone; reflexivity. }
  destruct (streq (method req) (lit "POST") && streq (pathname req) (webhookPath config)).
  2:{ destruct (streq (method req) (lit "GET") && streq (pathname req) (lit "/health"));
        apply Hnone; reflexivity. }
  unfold handleIncoming.
  destruct (truthy (appSecret config)
            && negb (verifyWebhookSignature (concat (chunks req))
                       (x_hub_signature_256 req) (appSecret config)));
    [apply Hnone; reflexivity|].
  rewrite !readReceipts_app, !dispatched_app.
  replace (readReceipts (if truthy (appSecret config) then [] else _)) with (@nil jsstring)
    by (destruct (truthy (appSecret config)); reflexivity).
  replace (dispatched (if truthy (appSecret config) then [] else _))
    with (@nil ParsedInboundMessage)
    by (destruct (truthy (appSecret config)); reflexivity).
  cbn [readReceipts dispatched flat_map app].
  destruct (JSON_parse (concat (chunks req))) as [err|payload|];
    try (apply Hnone; reflexivity).
  destruct (negb (streq (payload_object payload) (lit "whatsapp_business_account")));
    [apply Hnone; reflexivity|].
  apply (entries_readReceipts payload).
Qed.

(** X7.  A body that does not parse, or that parses to an object other
    than ["whatsapp_business_account"], sets off no callback at all: no
    message, no status update, no read receipt. *)
Theorem unparseable_or_foreign_payload_ignored (req : HttpRequest) :
  method req = lit "POST" -> pathname req = webhookPath config ->
  ((exists err, JSON_parse (concat (chunks req)) = ParseThrows err)
   \/ (exists payload, JSON_parse (concat (chunks req)) = Parsed payload
                       /\ payload_object payload <> lit "whatsapp_business_account")) ->
  dispatched (server JSON_parse config onStatus req) = []
  /\ statusUpdates (server JSON_parse config onStatus req) = []
  /\ readReceipts (server JSON_parse config onStatus req) = [].
Proof.
  intros Hm Hp Hbad. rewrite (server_POST JSON_parse _ _ _ Hm Hp).
  unfold handleIncoming.
  destruct (truthy (appSecret config)
            && negb (verifyWebhookSignature (concat (chunks req))
                       (x_hub_signature_256 req) (appSecret config)));
    [repeat split; reflexivity|].
  destruct Hbad as [(err & ->) | (payload & -> & Hobject)].
  - destruct (truthy (appSecret config)); repeat split; reflexivity.
  - apply streq_false_iff in Hobject. rewrite Hobject. cbn [negb].
    destruct (truthy (appSecret config)); repeat split; reflexivity.
Qed.

(** X8.  With no [appSecret] configured the signature header is never
    looked at: two POSTs with the same body set off the same events,
    whatever their headers (and query strings). *)
Theorem unverified_mode_ignores_signature (req req' : HttpRequest) :
  appSecret config = [] ->
  method req = lit "POST" -> pathname req = webhookPath config ->
  method req' = lit "POST" -> pathname req' = webhookPath config ->
  chunks req = chunks req' ->
  server JSON_parse config onStatus req = server JSON_parse config onStatus req'.
Proof.
  intros Hs Hm Hp Hm' Hp' Hc.
  rewrite (server_POST JSON_parse _ _ _ Hm Hp), (server_POST JSON_parse _ _ _ Hm' Hp').
  unfold handleIncoming. rewrite Hs, Hc. reflexivity.
Qed.

End Processing.

Lemma batch_dispatched_in_order_per_sender_witness :
  map messageId
      (dispatched
         (server (parseOnly (lit "{batch}") mixedBatch)
                 (makeAllowlistConfig [lit "+39 349 123 4567"]) true
                 (postRequest (lit "{batch}") (Some (sign (lit "{batch}") APP_SECRET)))))
  = [lit "wamid.first"; lit "wamid.third"].
Proof.
  refine (eq_trans
            (batch_dispatched_in_order_per_sender
               (parseOnly (lit "{batch}") mixedBatch)
               (makeAllowlistConfig [lit "+39 349 123 4567"]) true
               (postRequest (lit "{batch}") (Some (sign (lit "{batch}") APP_SECRET)))
               mixedBatch eq_refl eq_refl (or_intror eq_refl) _ eq_refl) _).
  - vm_compute. reflexivity.
  - vm_compute. reflexivity.
Defined.

Lemma statuses_forwarded_regardless_of_policy_witness :
  statusUpdates
    (server (parseOnly (lit "{batch}") mixedBatch)
            (makeAllowlistConfig [lit "+39 349 123 4567"]) true
            (postRequest (lit "{batch}") (Some (sign (lit "{batch}") APP_SECRET))))
  = [(lit "wamid.sent123", lit "delivered", lit "393330000000")].
Proof.
  refine (eq_trans
            (statuses_forwarded_regardless_of_policy
               (parseOnly (lit "{batch}") mixedBatch)
               (makeAllowlistConfig [lit "+39 349 123 4567"]) true
               (postRequest (lit "{batch}") (Some (sign (lit "{batch}") APP_SECRET)))
               mixedBatch eq_refl eq_refl (or_intror eq_refl) _ eq_refl) _).
  - vm_compute. reflexivity.
  - vm_compute. reflexivity.
Defined.

Lemma unparseable_or_foreign_payload_ignored_witness :
  dispatched (server (fun _ => ParseThrows (lit "SyntaxError")) makeConfig true
                (postRequest (lit "not json")
                   (Some (sign (lit "not json") APP_SECRET)))) = []
  /\ statusUpdates (server (fun _ => ParseThrows (lit "SyntaxError")) makeConfig true
                      (postRequest (lit "not json")
                         (Some (sign (lit "not json") APP_SECRET)))) = []
  /\ readReceipts (server (fun _ => ParseThrows (lit "SyntaxError")) makeConfig true
                     (postRequest (lit "not json")
                        (Some (sign (lit "not json") APP_SECRET)))) = [].
Proof.
  apply (unparseable_or_foreign_payload_ignored
           (fun _ => ParseThrows (lit "SyntaxError")) makeConfig true
           (postRequest (lit "not json") (Some (sign (lit "not json") APP_SECRET)))
           eq_refl eq_refl).
  left. exists (lit "SyntaxError"). reflexivity.
Defined.

Lemma unverified_mode_ignores_signature_witness :
  server (parseOnly (lit "{batch}") mixedBatch) makeConfigWithoutSecret true
         (postRequest (lit "{batch}") None)
  = server (parseOnly (lit "{batch}") mixedBatch) makeConfigWithoutSecret true
           (postRequest (lit "{batch}") (Some (lit "sha256=forged"))).
Proof.
  apply (unverified_mode_ignores_signature
           (parseOnly (lit "{batch}") mixedBatch) makeConfigWithoutSecret true
           (postRequest (lit "{batch}") None)
           (postRequest (lit "{batch}") (Some (lit "sha256=forged"))));
    reflexivity.
Defined.

(** ** One message, continued *)

(** X9.  The display name of a dispatched message is the profile name of
    the first contact whose [wa_id] is the sender id, and the sender id
    itself when no contact matches. *)
Theorem sender_name_from_first_matching_contact
    (msg : IncomingMessage) (contacts : list WebhookContact) (config : WhatsAppCloudConfig)
    (m : ParsedInboundMessage) :
  In m (dispatched (processMessage msg contacts config)) ->
  ((forall c, In c contacts -> wa_id c <> msg_from msg) -> senderName m = msg_from msg)
  /\ (forall before c after,
        contacts = before ++ c :: after ->
        wa_id c = msg_from msg ->
        (forall c', In c' before -> wa_id c' <> msg_from msg) ->
        senderName m = profile_name c).
Proof.
  rewrite processMessage_dispatched.
  destruct (match dmPolicy config with
            | policy_allowlist => _ | policy_open => false end); [intros []|].
  intros [<- | []]. cbn [senderName]. split.
  - intros Hnone.
    replace (find (fun c => streq (wa_id c) (msg_from msg)) contacts) with (@None WebhookContact);
      [reflexivity|].
    symmetry. induction contacts as [|c cs IH]; [reflexivity|]. cbn [find].
    assert (Hc : streq (wa_id c) (msg_from msg) = false)
      by (apply streq_false_iff, Hnone; now left).
    rewrite Hc. apply IH. intros c' Hin. apply Hnone. now right.
  - intros before c after -> Hc Hbefore.
    replace (find (fun c0 => streq (wa_id c0) (msg_from msg)) (before ++ c :: after))
      with (Some c); [reflexivity|].
    symmetry. induction before as [|b before IH]; cbn [app find].
    + apply streq_true_iff in Hc. now rewrite Hc.
    + assert (Hb : streq (wa_id b) (msg_from msg) = false)
        by (apply streq_false_iff, Hbefore; now left).
      rewrite Hb. apply IH. intros c' Hin. apply Hbefore. now right.
Qed.

Lemma sender_name_from_first_matching_contact_witness :
  Forall (fun m => senderName m = lit "Test User")
         (dispatched
            (processMessage (textMessage (lit "393491234567") (lit "Ciao"))
               [{| profile_name := lit "Somebody Else"; wa_id := lit "393330000000" |};
                {| profile_name := lit "Test User"; wa_id := lit "393491234567" |};
                {| profile_name := lit "Later Name"; wa_id := lit "393491234567" |}]
               makeConfig)).
Proof.
  apply Forall_forall. intros m Hm.
  apply (proj2 (sender_name_from_first_matching_contact _ _ _ m Hm)
           [{| profile_name := lit "Somebody Else"; wa_id := lit "393330000000" |}]
           {| profile_name := lit "Test User"; wa_id := lit "393491234567" |}
           [{| profile_name := lit "Later Name"; wa_id := lit "393491234567" |}]).
  - reflexivity.
  - reflexivity.
  - intros c' [<- | []]. discriminate.
Defined.

(** X10.  [media] is populated exactly for the five media kinds when the
    object of that kind is present, with the id and MIME type of the
    payload; the caption is carried for image, video and document, the
    file name for document only. *)
Theorem media_populated_from_payload (msg : IncomingMessage) (mi : MediaInfo) :
  ec_media (extractMessageContent msg) = Some mi <->
  (msg_type msg = lit "image"
   /\ exists o, msg_image msg = Some o
        /\ mi = {| id := media_id o; mimeType := mime_type o;
                   media_caption := caption o; media_filename := None |})
  \/ (msg_type msg = lit "audio"
      /\ exists o, msg_audio msg = Some o
           /\ mi = {| id := media_id o; mimeType := mime_type o;
                      media_caption := None; media_filename := None |})
  \/ (msg_type msg = lit "video"
      /\ exists o, msg_video msg = Some o
           /\ mi = {| id := media_id o; mimeType := mime_type o;
                      media_caption := caption o; media_filename := None |})
  \/ (msg_type msg = lit "document"
      /\ exists d, msg_document msg = Some d
           /\ mi = {| id := media_id (doc_media d); mimeType := mime_type (doc_media d);
                      media_caption := caption (doc_media d);
                      media_filename := filename d |})
  \/ (msg_type msg = lit "sticker"
      /\ exists o, msg_sticker msg = Some o
           /\ mi = {| id := media_id o; mimeType := mime_type o;
                      media_caption := None; media_filename := None |}).
Proof.
  unfold extractMessageContent.
  repeat match goal with
         | |- context [if streq (msg_type msg) ?b then _ else _] =>
             let E := fresh "E" in
             destruct (streq (msg_type msg) b) eqn:E;
             [apply streq_true_iff in E | apply streq_false_iff in E]
         end;
    cbn [ec_media];
    repeat match goal with
           | H : msg_type msg = _ |- _ => rewrite H in *; clear H
           end;
    try (split;
         [ discriminate
         | intros [(H & _) | [(H & _) | [(H & _) | [(H & _) | (H & _)]]]];
           first [discriminate | congruence] ]).
  - (* image *)
    split.
    + destruct (msg_image msg) as [o|]; [|discriminate].
      intros H. injection H as <-. left. split; [reflexivity|]. eauto.
    + intros [(_ & o & -> & ->) | [(H & _) | [(H & _) | [(H & _) | (H & _)]]]];
        try discriminate. reflexivity.
  - (* audio *)
    split.
    + destruct (msg_audio msg) as [o|]; [|discriminate].
      intros H. injection H as <-. right; left. split; [reflexivity|]. eauto.
    + intros [(H & _) | [(_ & o & -> & ->) | [(H & _) | [(H & _) | (H & _)]]]];
        try discriminate. reflexivity.
  - (* video *)
    split.
    + destruct (msg_video msg) as [o|]; [|discriminate].
      intros H. injection H as <-. right; right; left. split; [reflexivity|]. eauto.
    + intros [(H & _) | [(H & _) | [(_ & o & -> & ->) | [(H & _) | (H & _)]]]];
        try discriminate. reflexivity.
  - (* document *)
    split.
    + destruct (msg_document msg) as [d|]; [|discriminate].
      intros H. injection H as <-. do 3 right; left. split; [reflexivity|]. eauto.
    + intros [(H & _) | [(H & _) | [(H & _) | [(_ & d & -> & ->) | (H & _)]]]];
        try discriminate. reflexivity.
  - (* sticker *)
    split.
    + destruct (msg_sticker msg) as [o|]; [|discriminate].
      intros H. injection H as <-. do 4 right. split; [reflexivity|]. eauto.
    + intros [(H & _) | [(H & _) | [(H & _) | [(H & _) | (_ & o & -> & ->)]]]];
        try discriminate. reflexivity.
  - (* interactive *)
    split.
    + destruct (msg_interactive msg) as [r|]; [|discriminate].
      destruct (if streq (interactive_type r) (lit "button_reply")
                then button_reply r else None); [discriminate|].
      destruct (if streq (interactive_type r) (lit "list_reply")
                then list_reply r else None); discriminate.
    + intros [(H & _) | [(H & _) | [(H & _) | [(H & _) | (H & _)]]]]; discriminate.
Qed.

(** X11.  [interactiveReply] is populated exactly for an interactive
    message whose [type] names a reply object that is present: the button
    reply for ["button_reply"], the list reply for ["list_reply"]; the text
    is then the title of that reply. *)
Theorem interactive_reply_populated_from_payload
    (msg : IncomingMessage) (ir : InteractiveReply) :
  ec_interactiveReply (extractMessageContent msg) = Some ir <->
  msg_type msg = lit "interactive"
  /\ exists r, msg_interactive msg = Some r
       /\ ((interactive_type r = lit "button_reply"
            /\ exists b, button_reply r = Some b
                 /\ ir = {| ir_id := reply_id b; title := reply_title b;
                            ir_type := button_reply_t |}
                 /\ ec_text (extractMessageContent msg) = reply_title b)
           \/ (interactive_type r = lit "list_reply"
               /\ exists l, list_reply r = Some l
                    /\ ir = {| ir_id := reply_id l; title := reply_title l;
                               ir_type := list_reply_t |}
                    /\ ec_text (extractMessageContent msg) = reply_title l)).
Proof.
  unfold extractMessageContent.
  repeat match goal with
         | |- context [if streq (msg_type msg) ?b then _ else _] =>
             let E := fresh "E" in
             destruct (streq (msg_type msg) b) eqn:E;
             [apply streq_true_iff in E | apply streq_false_iff in E]
         end;
    cbn [ec_interactiveReply];
    repeat match goal with
           | H : msg_type msg = _ |- _ => rewrite H in *; clear H
           end;
    try (split; [discriminate | intros (H & _); first [discriminate | congruence]]).
  destruct (msg_interactive msg) as [r|];
    [|split; [discriminate | intros (_ & r & H & _); discriminate]].
  destruct (streq (interactive_type r) (lit "button_reply")) eqn:Eb.
  - apply streq_true_iff in Eb.
    destruct (button_reply r) as [b|] eqn:Ebr.
    + cbn [ec_interactiveReply ec_text]. split.
      * intros H. injection H as <-. split; [reflexivity|].
        exists r. split; [reflexivity|]. left. split; [exact Eb|]. exists b. auto.
      * intros (_ & r' & Hr & [(_ & b' & Hb & -> & _) | (Hl & _)]);
          injection Hr as <-.
        -- rewrite Ebr in Hb. now injection Hb as <-.
        -- rewrite Eb in Hl. discriminate.
    + rewrite Eb. cbn. split; [discriminate|].
      intros (_ & r' & Hr & [(_ & b' & Hb & _) | (Hl & _)]); injection Hr as <-.
      * rewrite Ebr in Hb. discriminate.
      * rewrite Eb in Hl. discriminate.
  - destruct (streq (interactive_type r) (lit "list_reply")) eqn:El.
    + apply streq_true_iff in El. apply streq_false_iff in Eb.
      destruct (list_reply r) as [l|] eqn:Elr.
      * cbn [ec_interactiveReply ec_text]. split.
        -- intros H. injection H as <-. split; [reflexivity|].
           exists r. split; [reflexivity|]. right. split; [exact El|]. exists l. auto.
        -- intros (_ & r' & Hr & [(Hb & _) | (_ & l' & Hl & -> & _)]);
             injection Hr as <-.
           ++ contradiction.
           ++ rewrite Elr in Hl. now injection Hl as <-.
      * cbn. split; [discriminate|].
        intros (_ & r' & Hr & [(Hb & _) | (_ & l' & Hl & _)]); injection Hr as <-.
        -- contradiction.
        -- rewrite Elr in Hl. discriminate.
    + apply streq_false_iff in Eb, El. cbn. split; [discriminate|].
      intros (_ & r' & Hr & [(Hb & _) | (Hl & _)]); injection Hr as <-; contradiction.
Qed.

(** X12.  [normalizePhone] keeps the digits, in order, and nothing else:
    its result is made of digits only, a string of digits is left as it
    is, and normalising twice changes nothing. *)
Theorem normalizePhone_digits_only (phone : jsstring) :
  Forall (fun c => 48 <= c <= 57) (normalizePhone phone)
  /\ normalizePhone (normalizePhone phone) = normalizePhone phone
  /\ (Forall (fun c => 48 <= c <= 57) phone -> normalizePhone phone = phone).
Proof.
  assert (Hdigit : forall c, isDigit c = true <-> 48 <= c <= 57).
  { intros c. unfold isDigit. rewrite andb_true_iff, !Z.leb_le. tauto. }
  assert (Hkeep : forall s, Forall (fun c => 48 <= c <= 57) s -> normalizePhone s = s).
  { intros s Hs. unfold normalizePhone. induction Hs as [|c s Hc Hs IH]; [reflexivity|].
    cbn [filter]. apply Hdigit in Hc. now rewrite Hc, IH. }
  assert (Hall : Forall (fun c => 48 <= c <= 57) (normalizePhone phone)).
  { apply Forall_forall. intros c Hin. unfold normalizePhone in Hin.
    apply filter_In in Hin as [_ Hc]. now apply Hdigit. }
  split; [exact Hall|]. split; [now apply Hkeep | apply Hkeep].
Qed.

Lemma normalizePhone_digits_only_witness :
  normalizePhone (lit "+39 349-123 4567") = lit "393491234567"
  /\ normalizePhone (lit "393491234567") = lit "393491234567".
Proof.
  split; [reflexivity|].
  apply (proj2 (proj2 (normalizePhone_digits_only (lit "393491234567")))).
  repeat constructor; cbn; lia.
Defined.

(** ** src/crypto.ts, continued *)

Lemma ascii_bit7 (v : Z) : 0 <= v < 128 -> Z.testbit v 7 = false.
Proof.
  intros Hv. destruct (Z.eq_dec v 0) as [->|Hnz]; [reflexivity|].
  apply Z.bits_above_log2; [lia|].
  apply Z.log2_lt_pow2; lia.
Qed.

Lemma lead_byte_not_ascii (a x : Z) :
  Z.testbit a 7 = true -> ~ (0 <= Z.lor a x < 128).
Proof.
  intros Ha Hv. apply ascii_bit7 in Hv.
  rewrite Z.lor_spec, Ha in Hv. discriminate.
Qed.

Lemma utf8_of_codepoint_ascii (cp : Z) :
  ascii_only (utf8_of_codepoint cp) -> utf8_of_codepoint cp = [cp].
Proof.
  unfold utf8_of_codepoint, ascii_only.
  destruct (cp <? 128); [reflexivity|].
  destruct (cp <? 2048); [|destruct (cp <? 65536)];
    intros H; apply Forall_inv in H;
    exfalso; revert H; apply lead_byte_not_ascii; reflexivity.
Qed.

(** A string whose UTF-8 encoding is plain ASCII is that encoding. *)
Lemma Buffer_from_ascii_inv (s : jsstring) :
  ascii_only (Buffer_from s) -> Buffer_from s = s.
Proof.
  induction s as [|c s IH]; [reflexivity|].
  cbn [Buffer_from].
  destruct (isHighSurrogate c) eqn:Ehigh.
  - destruct s as [|d s'].
    + intros H. inversion H; subst. lia.
    + destruct (isLowSurrogate d) eqn:Elow.
      * intros H. apply Forall_app in H as [H _]. exfalso.
        unfold isHighSurrogate in Ehigh. unfold isLowSurrogate in Elow.
        apply andb_true_iff in Ehigh as [Hc1 Hc2].
        apply andb_true_iff in Elow as [Hd1 Hd2].
        apply Z.leb_le in Hc1, Hc2, Hd1, Hd2.
        unfold utf8_of_codepoint in H.
        replace (65536 + (c - 55296) * 1024 + (d - 56320) <? 128) with false in H
          by (symmetry; apply Z.ltb_ge; lia).
        replace (65536 + (c - 55296) * 1024 + (d - 56320) <? 2048) with false in H
          by (symmetry; apply Z.ltb_ge; lia).
        replace (65536 + (c - 55296) * 1024 + (d - 56320) <? 65536) with false in H
          by (symmetry; apply Z.ltb_ge; lia).
        apply Forall_inv in H.
        revert H. apply lead_byte_not_ascii. reflexivity.
      * intros H. inversion H; subst. lia.
  - destruct (isLowSurrogate c).
    + intros H. inversion H; subst. lia.
    + intros H. apply Forall_app in H as [Hc Hs].
      rewrite (utf8_of_codepoint_ascii c Hc), (IH Hs). reflexivity.
Qed.

(** An accepted header is the expected signature, character for
    character. *)
Lemma accepted_header_is_signature (rawBody h appSecret : jsstring) :
  verifyWebhookSignature rawBody (Some h) appSecret = true ->
  appSecret <> [] /\ h = sign rawBody appSecret.
Proof.
  rewrite verifyWebhookSignature_true_iff.
  intros (h' & Hh & _ & Hs & Hbuf). injection Hh as <-. split; [exact Hs|].
  rewrite (Buffer_from_ascii (sign rawBody appSecret)) in Hbuf by apply sign_ascii.
  rewrite <- Hbuf. symmetry. apply Buffer_from_ascii_inv.
  rewrite Hbuf. apply sign_ascii.
Qed.

(** X13.  The verifier accepts one header value only: the string
    ["sha256=" + hex digest] itself, under a non-empty secret.  No other
    string, whatever its characters, has the same UTF-8 bytes. *)
Theorem verifyWebhookSignature_accepts_exactly_the_signature
    (rawBody : jsstring) (signatureHeader : option jsstring) (appSecret : jsstring) :
  verifyWebhookSignature rawBody signatureHeader appSecret = true
  <-> appSecret <> [] /\ signatureHeader = Some (sign rawBody appSecret).
Proof.
  split.
  - destruct signatureHeader as [h|].
    + intros H. apply accepted_header_is_signature in H as (Hs & ->). now split.
    + intros H. apply verifyWebhookSignature_true_iff in H as (h & Hh & _). discriminate.
  - intros (Hs & ->). apply verifyWebhookSignature_true_iff.
    eexists. split; [reflexivity|].
    split; [unfold sign; discriminate|]. auto.
Qed.

Lemma round_length (st : list Z) (kw : Z * Z) : length (round st kw) = length st.
Proof.
  unfold round.
  destruct st as [|a [|b [|c [|d [|e [|f [|g [|h [|i st]]]]]]]]]; reflexivity.
Qed.

Lemma compress_length (st block : list Z) : length (compress st block) = length st.
Proof.
  unfold compress. rewrite length_map, length_combine.
  assert (H : forall kws st0, length (fold_left round kws st0) = length st0).
  { intros kws. induction kws as [|kw kws IH]; intros st0; [reflexivity|].
    cbn [fold_left]. now rewrite IH, round_length. }
  rewrite H. apply Nat.min_id.
Qed.

Lemma sha256_length (msg : list Z) : length (sha256 msg) = 32%nat.
Proof.
  unfold sha256.
  assert (H : forall bl st, length (fold_left compress bl st) = length st).
  { intros bl. induction bl as [|b bl IH]; intros st; [reflexivity|].
    cbn [fold_left]. now rewrite IH, compress_length. }
  specialize (H (blocks (length (pad msg)) (pad msg)) H256_init).
  revert H. generalize (fold_left compress (blocks (length (pad msg)) (pad msg)) H256_init).
  intros ws Hws. change (length H256_init) with 8%nat in Hws.
  do 9 (destruct ws as [|? ws]; try discriminate Hws). reflexivity.
Qed.

Lemma hex_length (bs : list Z) : length (hex bs) = (2 * length bs)%nat.
Proof.
  induction bs as [|b bs IH]; [reflexivity|].
  cbn [hex flat_map app length] in *. fold (hex bs). rewrite IH. lia.
Qed.

Lemma hexDigit_lower (n : Z) : 0 <= n < 16 -> isLowerHex (hexDigit n) = true.
Proof.
  intros H. unfold hexDigit, isLowerHex.
  destruct (n <? 10) eqn:E; [apply Z.ltb_lt in E | apply Z.ltb_ge in E];
    apply orb_true_iff; [left | right]; apply andb_true_iff; split; apply Z.leb_le; lia.
Qed.

Lemma hex_lower (bs : list Z) :
  Forall (fun b => 0 <= b < 256) bs -> forallb isLowerHex (hex bs) = true.
Proof.
  induction 1 as [|b bs Hb Hbs IH]; [reflexivity|].
  cbn [hex flat_map app forallb]. fold (hex bs). rewrite IH.
  rewrite !hexDigit_lower; [reflexivity| |].
  - change 15 with (Z.ones 4). rewrite Z.land_ones by lia.
    change (2 ^ 4) with 16. apply Z.mod_pos_bound. lia.
  - rewrite Z.shiftr_div_pow2 by lia. change (2 ^ 4) with 16.
    split; [apply Z.div_pos; lia | apply Z.div_lt_upper_bound; lia].
Qed.

(** X14.  The signature the verifier expects always has the same shape:
    ["sha256="] followed by exactly 64 lowercase hexadecimal digits, 71
    characters in all; a header of any other length is rejected. *)
Theorem expected_signature_shape (rawBody appSecret : jsstring) :
  exists digest,
    sign rawBody appSecret = lit "sha256=" ++ digest
    /\ length digest = 64%nat
    /\ forallb isLowerHex digest = true
    /\ forall h, length h <> 71%nat ->
                 verifyWebhookSignature rawBody (Some h) appSecret = false.
Proof.
  exists (createHmac_sha256_hex appSecret rawBody).
  assert (Hlen : length (createHmac_sha256_hex appSecret rawBody) = 64%nat).
  { unfold createHmac_sha256_hex, hmac_sha256. now rewrite hex_length, sha256_length. }
  split; [reflexivity|]. split; [exact Hlen|]. split.
  - unfold createHmac_sha256_hex, hmac_sha256. apply hex_lower, sha256_range.
  - intros h Hh.
    destruct (verifyWebhookSignature rawBody (Some h) appSecret) eqn:E; [|reflexivity].
    apply accepted_header_is_signature in E as (_ & ->). exfalso. apply Hh.
    unfold sign. rewrite length_app, Hlen. reflexivity.
Qed.

Lemma expected_signature_shape_witness :
  length (sign (lit "{}") APP_SECRET) = 71%nat
  /\ verifyWebhookSignature (lit "{}") (Some (lit "sha256=abc")) APP_SECRET = false.
Proof.
  destruct (expected_signature_shape (lit "{}") APP_SECRET)
    as (digest & Hsign & Hlen & _ & Hreject).
  split.
  - rewrite Hsign, length_app, Hlen. reflexivity.
  - apply Hreject. cbn. lia.
Defined.

(** ** src/api.ts, continued *)

(** X15.  [sendRequest] reports success exactly when [fetch] resolved
    with a 2xx response whose body parsed to a value other than [null]; it
    then returns the id of the first sent message and logs nothing.  In
    every other case it returns [ok = false] with an error message and
    logs that message once, at error level.  On a response that is not
    2xx the message is the remote [error.message] if the body has one and
    ["HTTP <status> <statusText>"] if not, logged as an API error.  When
    [fetch] rejects, when the body of a 2xx response does not parse, or
    when it is [null], the message is that of the exception, logged as a
    network error. *)
Theorem sendRequest_outcome
    (fetch : World -> FetchRequest -> FetchResult)
    (config : WhatsAppCloudConfig) (to_ chunk : jsstring) (w : World) :
  let result := fst (sendRequest fetch config (textRequest to_ chunk) w) in
  let w' := snd (sendRequest fetch config (textRequest to_ chunk) w) in
  let request := textFetch config to_ chunk in
  let fails prefix errorMsg :=
    result = {| ok := false; sent_messageId := None; error := Some errorMsg |}
    /\ w' = w ++ [Fetched request; Logged LError (prefix ++ errorMsg)] in
  (ok result = true <->
   exists response unused first_id,
     fetch w request = FetchResolves response
     /\ response_ok response = true
     /\ response_json response = JsonValue unused first_id)
  /\ (forall response unused first_id,
        fetch w request = FetchResolves response ->
        response_ok response = true ->
        response_json response = JsonValue unused first_id ->
        result = {| ok := true; sent_messageId := first_id; error := None |}
        /\ w' = w ++ [Fetched request])
  /\ (forall message,
        fetch w request = FetchRejects message ->
        fails (lit "[whatsapp-cloud] Network error: ") message)
  /\ (forall response message,
        fetch w request = FetchResolves response ->
        response_ok response = true ->
        response_json response = JsonRejects message ->
        fails (lit "[whatsapp-cloud] Network error: ") message)
  /\ (forall response,
        fetch w request = FetchResolves response ->
        response_ok response = true ->
        response_json response = JsonNull ->
        fails (lit "[whatsapp-cloud] Network error: ") READ_OF_NULL)
  /\ (forall response,
        fetch w request = FetchResolves response ->
        response_ok response = false ->
        fails (lit "[whatsapp-cloud] API error: ")
              match response_json response with
              | JsonValue (Some m) _ => m
              | _ => lit "HTTP " ++ decimal (response_status response)
                     ++ lit " " ++ response_statusText response
              end).
Proof.
  cbv zeta. unfold sendRequest. fold (textFetch config to_ chunk).
  destruct (fetch w (textFetch config to_ chunk)) as [message|response] eqn:Efetch;
    [|destruct (response_ok response) eqn:Eok; cbn [negb];
      [destruct (response_json response) as [message| |unused first_id] eqn:Ejson|]];
    cbn [fst snd ok];
    (split; [|split; [|split; [|split; [|split]]]]);
    try (intros; first [congruence | split; congruence]).
  - split; [discriminate | intros (r & u & f & H & _); congruence].
  - split; [discriminate | intros (r & u & f & H & _ & Hj); congruence].
  - split; [discriminate | intros (r & u & f & H & _ & Hj); congruence].
  - split; [intros _; exists response, unused, first_id; auto | reflexivity].
  - split; [discriminate | intros (r & u & f & H & Hr & _); congruence].
  - intros r H _. assert (Hr : r = response) by congruence. subst r.
    destruct (response_json response) as [| |[m|] ?]; split; reflexivity.
Qed.

Lemma sendRequest_outcome_witness :
  fst (sendRequest (mockApiError 400 (lit "Invalid phone number")) makeConfig
         (textRequest (lit "393491234567") (lit "Ciao!")) [])
  = {| ok := false; sent_messageId := None; error := Some (lit "Invalid phone number") |}
  /\ fst (sendRequest mockApiNullBody makeConfig
            (textRequest (lit "393491234567") (lit "Ciao!")) [])
     = {| ok := false; sent_messageId := None; error := Some READ_OF_NULL |}.
Proof.
  split.
  - destruct (sendRequest_outcome (mockApiError 400 (lit "Invalid phone number")) makeConfig
                (lit "393491234567") (lit "Ciao!") [])
      as (_ & _ & _ & _ & _ & Hfail).
    exact (proj1 (Hfail _ eq_refl eq_refl)).
  - destruct (sendRequest_outcome mockApiNullBody makeConfig
                (lit "393491234567") (lit "Ciao!") [])
      as (_ & _ & _ & _ & Hnull & _).
    exact (proj1 (Hnull _ eq_refl eq_refl eq_refl)).
Defined.

(** X16.  Every request [sendText] issues is a POST to
    [https://graph.facebook.com/<apiVersion>/<phoneNumberId>/messages]
    carrying the bearer token, addressed to the recipient, of type text
    with link previews off, and a body of at most 4096 characters. *)
Theorem sendText_requests_shape
    (fetch : World -> FetchRequest -> FetchResult)
    (config : WhatsAppCloudConfig) (to_ text_ : jsstring) (w : World)
    (r : SendResult) (w' : World) :
  sendText fetch config to_ text_ w = Some (r, w') ->
  exists issued,
    requestsOf w' = requestsOf w ++ issued
    /\ Forall (fun q =>
                 fetch_url q = lit "https://graph.facebook.com/" ++ apiVersion config
                               ++ lit "/" ++ phoneNumberId config ++ lit "/messages"
                 /\ fetch_method q = lit "POST"
                 /\ Authorization (fetch_headers q) = lit "Bearer " ++ accessToken config
                 /\ Content_Type (fetch_headers q) = lit "application/json"
                 /\ messaging_product (fetch_body q) = lit "whatsapp"
                 /\ recipient_type (fetch_body q) = lit "individual"
                 /\ to (fetch_body q) = to_
                 /\ req_type (fetch_body q) = lit "text"
                 /\ preview_url (fetch_body q) = false
                 /\ len (body (fetch_body q)) <= 4096)
              issued.
Proof.
  unfold sendText.
  destruct (splitMessage_returns text_ 4096 ltac:(lia))
    as (chunks & Hsplit & _ & Hlen & _).
  rewrite Hsplit. intros H. injection H as Hr.
  destruct (sendText_loop_run fetch config to_ chunks NO_CHUNKS w)
    as (sent & skipped & results & Hparts & Hrun & _).
  pose proof (sendEach_requests fetch config to_ sent w) as Hreq.
  rewrite Hrun in Hreq. cbn [snd] in Hreq. rewrite Hr in Hreq. cbn [snd] in Hreq.
  exists (map (textFetch config to_) sent). split; [exact Hreq|].
  apply Forall_forall. intros q Hin. apply in_map_iff in Hin as (chunk & <- & Hchunk).
  assert (Hc : len chunk <= 4096).
  { rewrite Forall_forall in Hlen. apply Hlen. rewrite Hparts.
    apply in_or_app. now left. }
  cbn. unfold apiUrl, API_BASE. repeat split; try reflexivity; exact Hc.
Qed.

Lemma sendText_requests_shape_witness :
  exists issued,
    issued <> []
    /\ Forall (fun q => fetch_url q = lit "https://graph.facebook.com/v21.0/111222333/messages"
                        /\ Authorization (fetch_headers q) = lit "Bearer test_token")
              issued.
Proof.
  destruct (sendText (mockApiSuccess (lit "wamid.sent123")) makeConfig
              (lit "393491234567") (lit "Ciao!") []) as [[r w']|] eqn:E;
    [|vm_compute in E; discriminate].
  destruct (sendText_requests_shape _ _ _ _ _ _ _ E) as (issued & Hreq & Hall).
  exists issued. split.
  - intros ->. vm_compute in E. injection E as _ <-. discriminate.
  - apply Forall_forall. intros q Hq. rewrite Forall_forall in Hall.
    destruct (Hall q Hq) as (Hurl & _ & Hauth & _). split; assumption.
Defined.

(** *** What chunking keeps *)

Lemma slice_partition (s : jsstring) (k : Z) : slice s 0 k ++ sliceFrom s k = s.
Proof.
  unfold sliceFrom, slice.
  set (r := relIndex (len s) k).
  assert (Hr : 0 <= r <= len s).
  { subst r. unfold relIndex, len.
    destruct (k <? 0) eqn:E; [apply Z.ltb_lt in E|]; lia. }
  assert (H0 : relIndex (len s) 0 = 0)
    by (unfold relIndex; rewrite Z.ltb_irrefl; unfold len; lia).
  assert (Hl : relIndex (len s) (len s) = len s)
    by (unfold relIndex, len; destruct (_ <? 0) eqn:E; [apply Z.ltb_lt in E|]; lia).
  rewrite H0, Hl. cbn [Z.to_nat skipn]. rewrite Z.sub_0_r.
  rewrite (firstn_all2 (skipn (Z.to_nat r) s)).
  - apply firstn_skipn.
  - rewrite length_skipn. unfold len in *. lia.
Qed.

Lemma trimStart_keeps_content (s : jsstring) :
  filter (fun c => negb (isWhiteSpace c)) (trimStart s)
  = filter (fun c => negb (isWhiteSpace c)) s.
Proof.
  induction s as [|c s IH]; [reflexivity|]. cbn [trimStart].
  destruct (isWhiteSpace c) eqn:E; [|reflexivity].
  cbn [filter]. now rewrite E.
Qed.

Lemma filter_rev {A : Type} (p : A -> bool) (l : list A) :
  filter p (rev l) = rev (filter p l).
Proof.
  induction l as [|a l IH]; [reflexivity|].
  cbn [rev filter]. rewrite filter_app, IH. cbn [filter].
  destruct (p a); [reflexivity | now rewrite app_nil_r].
Qed.

Lemma trimEnd_keeps_content (s : jsstring) :
  filter (fun c => negb (isWhiteSpace c)) (trimEnd s)
  = filter (fun c => negb (isWhiteSpace c)) s.
Proof.
  unfold trimEnd.
  now rewrite filter_rev, trimStart_keeps_content, filter_rev, rev_involutive.
Qed.

Lemma splitMessage_loop_keeps_content (maxLength : Z) (fuel : nat) :
  forall (remaining : jsstring) (chunks out : list jsstring) (rest : jsstring),
    splitMessage_loop fuel maxLength remaining chunks = Some (out, rest) ->
    filter (fun c => negb (isWhiteSpace c)) (concat out ++ rest)
    = filter (fun c => negb (isWhiteSpace c)) (concat chunks ++ remaining).
Proof.
  induction fuel as [|fuel IH]; intros remaining chunks out rest; cbn [splitMessage_loop];
    destruct (maxLength <? len remaining); try discriminate;
    try (intros H; injection H as <- <-; reflexivity).
  cbv zeta. intros H. apply IH in H. rewrite H.
  rewrite concat_app. cbn [concat]. rewrite app_nil_r, !filter_app.
  rewrite trimStart_keeps_content, trimEnd_keeps_content, <- !app_assoc.
  f_equal. rewrite <- filter_app. now rewrite slice_partition.
Qed.

(** X17.  Chunking loses nothing but white space: whenever [splitMessage]
    returns, the characters of the chunks that are not white space are
    those of the text, in the same order. *)
Theorem splitMessage_keeps_content
    (text_ : jsstring) (maxLength : Z) (chunks : list jsstring) :
  splitMessage text_ maxLength = Some chunks ->
  filter (fun c => negb (isWhiteSpace c)) (concat chunks)
  = filter (fun c => negb (isWhiteSpace c)) text_.
Proof.
  unfold splitMessage. destruct (len text_ <=? maxLength).
  - intros H. injection H as <-. cbn [concat]. now rewrite app_nil_r.
  - destruct (splitMessage_loop (length text_) maxLength text_ [])
      as [[out rest]|] eqn:Erun; [|discriminate].
    apply splitMessage_loop_keeps_content in Erun. cbn [concat app] in Erun.
    intros H. injection H as <-. rewrite <- Erun.
    destruct (0 <? len rest) eqn:E.
    + rewrite concat_app. cbn [concat]. now rewrite app_nil_r.
    + apply Z.ltb_ge in E. destruct rest; [now rewrite app_nil_r|].
      unfold len in E. cbn in E. lia.
Qed.

Lemma splitMessage_keeps_content_witness :
  filter (fun c => negb (isWhiteSpace c)) (concat [repeat 65 3000; repeat 66 3000])
  = filter (fun c => negb (isWhiteSpace c)) (repeat 65 3000 ++ [32] ++ repeat 66 3000).
Proof.
  apply (splitMessage_keeps_content (repeat 65 3000 ++ [32] ++ repeat 66 3000) 4096).
  vm_compute. reflexivity.
Defined.

(** *** Where chunks are cut *)

Lemma trimStart_idempotent (s : jsstring) : trimStart (trimStart s) = trimStart s.
Proof.
  induction s as [|c s IH]; [reflexivity|]. cbn [trimStart].
  destruct (isWhiteSpace c) eqn:E; [exact IH|]. cbn [trimStart]. now rewrite E.
Qed.

Lemma trimEnd_idempotent (s : jsstring) : trimEnd (trimEnd s) = trimEnd s.
Proof.
  unfold trimEnd. now rewrite rev_involutive, trimStart_idempotent.
Qed.

Lemma trimStart_fixed_head (x : Z) (s : jsstring) :
  trimStart (x :: s) = x :: s <-> isWhiteSpace x = false.
Proof.
  cbn [trimStart]. destruct (isWhiteSpace x) eqn:E; split; try reflexivity; try discriminate.
  intros H. pose proof (trimStart_length s) as Hlen. rewrite H in Hlen.
  cbn [length] in Hlen. lia.
Qed.

Lemma trimStart_keeps_last (l : jsstring) (x : Z) :
  isWhiteSpace x = false -> exists u, trimStart (l ++ [x]) = u ++ [x].
Proof.
  intros Hx. induction l as [|a l IH]; cbn [app trimStart].
  - rewrite Hx. now exists [].
  - destruct (isWhiteSpace a); [exact IH|]. now exists (a :: l).
Qed.

Lemma trimEnd_keeps_head (x : Z) (s : jsstring) :
  isWhiteSpace x = false -> exists t, trimEnd (x :: s) = x :: t.
Proof.
  intros Hx. unfold trimEnd. cbn [rev].
  destruct (trimStart_keeps_last (rev s) x Hx) as (u & ->).
  rewrite rev_app_distr. cbn. now exists (rev u).
Qed.

Lemma slice_prefix_head (x : Z) (s : jsstring) (k : Z) :
  1 <= k -> exists t, slice (x :: s) 0 k = x :: t.
Proof.
  intros Hk. unfold slice, relIndex.
  rewrite Z.ltb_irrefl.
  replace (k <? 0) with false by (symmetry; apply Z.ltb_ge; lia).
  assert (H0 : Z.min 0 (len (x :: s)) = 0) by (unfold len; lia).
  rewrite H0. cbn [Z.to_nat skipn]. rewrite Z.sub_0_r.
  destruct (Z.to_nat (Z.min k (len (x :: s)))) as [|n] eqn:E.
  - unfold len in E. cbn [length] in E. lia.
  - cbn [firstn]. eauto.
Qed.

(** A chunk cut from a text that does not start with white space is not
    empty and has no white space at either end. *)
Lemma cut_chunk_trimmed (remaining : jsstring) (k : Z) :
  1 <= k -> remaining <> [] -> trimStart remaining = remaining ->
  let chunk := trimEnd (slice remaining 0 k) in
  chunk <> [] /\ trimStart chunk = chunk /\ trimEnd chunk = chunk.
Proof.
  intros Hk Hne Hfixed. destruct remaining as [|x s]; [contradiction|].
  apply trimStart_fixed_head in Hfixed.
  destruct (slice_prefix_head x s k Hk) as (t & Hslice).
  cbv zeta. rewrite Hslice.
  destruct (trimEnd_keeps_head x t Hfixed) as (t' & Ht).
  split; [rewrite Ht; discriminate|]. split.
  - rewrite Ht. now apply trimStart_fixed_head.
  - apply trimEnd_idempotent.
Qed.

Lemma splitMessage_loop_trimmed (maxLength : Z) (fuel : nat) :
  1 <= maxLength ->
  forall (remaining : jsstring) (chunks out : list jsstring) (rest : jsstring),
    trimStart remaining = remaining ->
    splitMessage_loop fuel maxLength remaining chunks = Some (out, rest) ->
    exists added,
      out = chunks ++ added
      /\ Forall (fun c => c <> [] /\ trimStart c = c /\ trimEnd c = c) added
      /\ trimStart rest = rest.
Proof.
  intros Hmax. induction fuel as [|fuel IH]; intros remaining chunks out rest Hfixed;
    cbn [splitMessage_loop];
    destruct (maxLength <? len remaining) eqn:Eloop; try discriminate;
    try (intros H; injection H as <- <-; exists []; rewrite app_nil_r; auto).
  apply Z.ltb_lt in Eloop.
  pose proof (splitIndex_range remaining maxLength Hmax) as Hidx.
  cbv zeta in Hidx |- *. intros H.
  apply IH in H as (added & -> & Hadded & Hrest); [|apply trimStart_idempotent].
  eexists. rewrite <- app_assoc. split; [reflexivity|]. split; [|exact Hrest].
  constructor; [|exact Hadded].
  apply cut_chunk_trimmed; [lia | | exact Hfixed].
  intros ->. unfold len in Eloop. cbn in Eloop. lia.
Qed.

(** X18.  With a positive limit, chunks are trimmed where the text was
    cut: every chunk but the last has no trailing white space, and every
    chunk after the first is non-empty and has no leading white space.
    Only the first chunk can be empty. *)
Theorem splitMessage_chunks_trimmed
    (text_ : jsstring) (maxLength : Z) (chunks : list jsstring) :
  1 <= maxLength ->
  splitMessage text_ maxLength = Some chunks ->
  Forall (fun c => trimEnd c = c) (removelast chunks)
  /\ Forall (fun c => c <> [] /\ trimStart c = c) (tl chunks).
Proof.
  intros Hmax. unfold splitMessage. destruct (len text_ <=? maxLength) eqn:Efits.
  { intros H. injection H as <-. split; constructor. }
  apply Z.leb_gt in Efits.
  destruct (length text_) as [|fuel] eqn:Elen;
    [unfold len in Efits; rewrite Elen in Efits; cbn in Efits; lia|].
  cbn [splitMessage_loop].
  replace (maxLength <? len text_) with true by (symmetry; apply Z.ltb_lt; lia).
  pose proof (splitIndex_range text_ maxLength Hmax) as Hidx.
  cbv zeta in Hidx |- *.
  match goal with
  | |- context [splitMessage_loop fuel maxLength ?rem ?acc] =>
      destruct (splitMessage_loop fuel maxLength rem acc) as [[out rest]|] eqn:Erun;
        [|discriminate];
      apply (splitMessage_loop_trimmed maxLength fuel Hmax) in Erun
        as (added & -> & Hadded & Hrest); [|apply trimStart_idempotent]
  end.
  cbn [app].
  assert (Hends : Forall (fun c => trimEnd c = c) added)
    by (eapply Forall_impl; [|exact Hadded]; cbn; tauto).
  assert (Hstarts : Forall (fun c => c <> [] /\ trimStart c = c) added)
    by (eapply Forall_impl; [|exact Hadded]; cbn; tauto).
  intros H. injection H as <-.
  destruct (0 <? len rest) eqn:Erest.
  - split.
    + change (?c :: added ++ [rest]) with ((c :: added) ++ [rest]).
      rewrite removelast_last. constructor; [apply trimEnd_idempotent | exact Hends].
    + cbn [tl]. apply Forall_app. split; [exact Hstarts|].
      constructor; [|constructor]. split; [|exact Hrest].
      intros ->. discriminate.
  - split; [|exact Hstarts].
    destruct added as [|a added] using rev_ind; [constructor|].
    change (?c :: added ++ [a]) with ((c :: added) ++ [a]).
    rewrite removelast_last.
    apply Forall_app in Hends as [Hends _].
    constructor; [apply trimEnd_idempotent | exact Hends].
Qed.

Lemma splitMessage_chunks_trimmed_witness :
  Forall (fun c => trimEnd c = c) (removelast [repeat 65 3000; repeat 66 3000])
  /\ Forall (fun c => c <> [] /\ trimStart c = c) (tl [repeat 65 3000; repeat 66 3000]).
Proof.
  apply (splitMessage_chunks_trimmed (repeat 65 3000 ++ [32] ++ repeat 66 3000) 4096).
  - lia.
  - vm_compute. reflexivity.
Defined.

(* ====================================================================== *)
(** * Further properties of the senders and of the plugin *)
(* ====================================================================== *)

Section Senders.

Import Outbound.

Variable remote : History -> FetchCall -> FetchResult.
Variable config : WhatsAppCloudConfig.

Lemma callsOf_app (h1 h2 : History) : callsOf (h1 ++ h2) = callsOf h1 ++ callsOf h2.
Proof. unfold callsOf. apply flat_map_app. Qed.

Lemma callsOf_liftEvent (w : World) :
  callsOf (map liftEvent w) = map callOfText (requestsOf w).
Proof.
  induction w as [|e w IH]; [reflexivity|].
  destruct e; cbn [map liftEvent]; unfold callsOf, requestsOf in *;
    cbn [flat_map app]; now rewrite IH.
Qed.

(** One [sendRequest], one [fetch], whatever the body and the outcome. *)
Lemma sendRequest_calls (body : RequestBody) (h : History) :
  callsOf (snd (Outbound.sendRequest remote config body h))
  = callsOf h ++ [messagesCall config body].
Proof.
  unfold Outbound.sendRequest. fold (messagesCall config body).
  destruct (remote h (messagesCall config body)) as [msg|response]; cbn [snd].
  - now rewrite callsOf_app.
  - destruct (negb (response_ok response)); cbn [snd].
    + now rewrite callsOf_app.
    + destruct (response_json response); cbn [snd]; now rewrite callsOf_app.
Qed.

(** [s.slice(0, n)] is the prefix of length [n]. *)
Lemma slice_from_start (s : jsstring) (n : nat) : slice s 0 (Z.of_nat n) = firstn n s.
Proof.
  unfold slice, relIndex, len. rewrite Z.ltb_irrefl.
  destruct (Z.of_nat n <? 0) eqn:E; [apply Z.ltb_lt in E; lia|].
  replace (Z.min 0 (Z.of_nat (length s))) with 0 by lia.
  cbn [Z.to_nat skipn]. rewrite Z.sub_0_r.
  destruct (Nat.le_gt_cases n (length s)) as [Hn|Hn].
  - replace (Z.to_nat (Z.min (Z.of_nat n) (Z.of_nat (length s)))) with n by lia.
    reflexivity.
  - replace (Z.to_nat (Z.min (Z.of_nat n) (Z.of_nat (length s)))) with (length s) by lia.
    rewrite firstn_all, firstn_all2 by lia. reflexivity.
Qed.

(** X19.  [sendButtons] issues one interactive request of kind "button"
    carrying the first three buttons given, in order, with their ids
    unchanged and each title cut to its first 20 characters; further
    buttons are dropped without notice. *)
Theorem sendButtons_request_shape
    (to_ bodyText : jsstring) (buttons : list ButtonInput) (h : History) :
  exists request sent,
    callsOf (snd (sendButtons remote config to_ bodyText buttons h))
    = callsOf h ++ [messagesCall config (InteractiveBody request)]
    /\ si_messaging_product request = lit "whatsapp"
    /\ si_to request = to_
    /\ si_type request = lit "interactive"
    /\ interactive_kind (si_interactive request) = lit "button"
    /\ interactive_body (si_interactive request) = bodyText
    /\ action_buttons (interactive_action (si_interactive request)) = Some sent
    /\ sent = map (fun b => {| reply_button_id := input_id b;
                               reply_button_title := firstn 20 (input_title b) |})
                  (firstn 3 buttons)
    /\ length sent = Nat.min 3 (length buttons)
    /\ Forall (fun b => (length (reply_button_title b) <= 20)%nat) sent.
Proof.
  unfold sendButtons, sendInteractive. rewrite sendRequest_calls.
  eexists. eexists. split; [reflexivity|].
  assert (Hsent :
            map (fun b => {| reply_button_id := input_id b;
                             reply_button_title := slice (input_title b) 0 20 |})
                (firstn 3 buttons)
            = map (fun b => {| reply_button_id := input_id b;
                               reply_button_title := firstn 20 (input_title b) |})
                  (firstn 3 buttons)).
  { apply map_ext. intros b. f_equal. apply (slice_from_start (input_title b) 20). }
  repeat (split; [reflexivity|]). split; [exact Hsent|]. split.
  - now rewrite length_map, length_firstn.
  - rewrite Hsent. apply Forall_forall. intros b Hb.
    apply in_map_iff in Hb as (b0 & <- & _). cbn [reply_button_title].
    rewrite length_firstn. lia.
Qed.

(** X20.  [sendTypingIndicator] sends the request of [markAsRead] with a
    typing indicator added: same endpoint, same headers, status "read"
    for the same message, so that showing the indicator also marks the
    message as read.  Both make one call; a rejected call leaves one
    debug line and nothing else. *)
Theorem typing_indicator_also_marks_read (messageId : jsstring) (h : History) :
  exists receipt typing,
    callsOf (markAsRead remote config messageId h)
    = callsOf h ++ [messagesCall config (StatusBody receipt)]
    /\ callsOf (sendTypingIndicator remote config messageId h)
       = callsOf h ++ [messagesCall config (StatusBody typing)]
    /\ st_status receipt = lit "read" /\ st_message_id receipt = messageId
    /\ st_typing_indicator receipt = None
    /\ typing = {| st_messaging_product := st_messaging_product receipt;
                   st_status := st_status receipt;
                   st_message_id := st_message_id receipt;
                   st_typing_indicator := Some (lit "text") |}
    /\ (markAsRead remote config messageId h
        = h ++ [Called (messagesCall config (StatusBody receipt))]
        \/ exists err,
             remote h (messagesCall config (StatusBody receipt)) = FetchRejects err
             /\ markAsRead remote config messageId h
                = h ++ [Called (messagesCall config (StatusBody receipt));
                        NotedError LDebug
                          (lit "[whatsapp-cloud] Failed to send read receipt: ") err])
    /\ (sendTypingIndicator remote config messageId h
        = h ++ [Called (messagesCall config (StatusBody typing))]
        \/ exists err,
             remote h (messagesCall config (StatusBody typing)) = FetchRejects err
             /\ sendTypingIndicator remote config messageId h
                = h ++ [Called (messagesCall config (StatusBody typing));
                        NotedError LDebug
                          (lit "[whatsapp-cloud] Failed to send typing indicator: ") err]).
Proof.
  unfold markAsRead, sendTypingIndicator, statusCall.
  eexists. eexists.
  split; [|split; [|split; [|split; [|split; [|split; [|split]]]]]].
  - fold (messagesCall config
            (StatusBody {| st_messaging_product := lit "whatsapp"; st_status := lit "read";
                           st_message_id := messageId; st_typing_indicator := None |})).
    destruct (remote h _); rewrite callsOf_app; reflexivity.
  - fold (messagesCall config
            (StatusBody {| st_messaging_product := lit "whatsapp"; st_status := lit "read";
                           st_message_id := messageId;
                           st_typing_indicator := Some (lit "text") |})).
    destruct (remote h _); rewrite callsOf_app; reflexivity.
  - reflexivity.
  - reflexivity.
  - reflexivity.
  - reflexivity.
  - unfold messagesCall. destruct (remote h _) as [err|response] eqn:E.
    + right. exists err. split; reflexivity.
    + left. reflexivity.
  - unfold messagesCall. destruct (remote h _) as [err|response] eqn:E.
    + right. exists err. split; reflexivity.
    + left. reflexivity.
Qed.

(** [sendText] returns, having issued at least one request, all of them
    text requests to the recipient. *)
Lemma sendText_calls (to_ text_ : jsstring) (h : History) :
  exists r h' sent,
    Outbound.sendText remote config to_ text_ h = Some (r, h')
    /\ sent <> []
    /\ callsOf h'
       = callsOf h ++ map (fun chunk => messagesCall config (TextBody (textRequest to_ chunk)))
                          sent.
Proof.
  unfold Outbound.sendText, Api.sendText.
  destruct (splitMessage_returns text_ 4096 ltac:(lia)) as (chunks & -> & Hne & _).
  set (fetch := fun w request => remote (h ++ map liftEvent w) (callOfText request)).
  destruct (sendText_loop_run fetch config to_ chunks NO_CHUNKS [])
    as (sent & skipped & results & _ & Hrun & _ & _ & _ & Hsent).
  pose proof (sendEach_requests fetch config to_ sent []) as Hreq.
  rewrite Hrun in Hreq. cbn [snd] in Hreq. clear Hrun. subst fetch.
  destruct (sendText_loop _ config to_ chunks NO_CHUNKS []) as [r w].
  cbn [snd] in Hreq.
  exists r, (h ++ map liftEvent w), sent.
  split; [reflexivity|]. split; [exact (Hsent Hne)|].
  rewrite callsOf_app, callsOf_liftEvent, Hreq. cbn [requestsOf flat_map app].
  now rewrite map_map.
Qed.

End Senders.

Section PluginProperties.

Import Outbound Setup Plugin.

Variable remote : History -> FetchCall -> FetchResult.

Lemma sendMedia_each_calls (config : WhatsAppCloudConfig) (sender : jsstring)
    (urls : list jsstring) (h : History) :
  callsOf (fold_left
             (fun hh url => snd (sendMedia remote config sender media_image (linkOnly url) hh))
             urls h)
  = callsOf h ++ map (fun url => messagesCall config (imageLink sender url)) urls.
Proof.
  revert h. induction urls as [|url urls IH]; intros h; cbn [fold_left map].
  - now rewrite app_nil_r.
  - rewrite IH. unfold sendMedia. rewrite sendRequest_calls, <- app_assoc.
    reflexivity.
Qed.

(** X21.  [deliver] sends the parts of a reply in a fixed order: the
    text first, in chunks, when there is a non-empty text; then the
    single media URL when there is one; then every URL of [mediaUrls], in
    order, each as an image link to the sender.  The media requests are
    all made whatever the outcome of the sends before them. *)
Theorem deliver_text_then_media
    (config : WhatsAppCloudConfig) (sender : jsstring) (payload : ReplyPayload)
    (h : History) :
  exists h' textChunks,
    deliver remote config sender payload h = Some h'
    /\ (textChunks <> [] <-> opt_truthy (reply_text payload) = true)
    /\ callsOf h'
       = callsOf h
         ++ map (fun chunk => messagesCall config (TextBody (textRequest sender chunk)))
                textChunks
         ++ map (fun url => messagesCall config (imageLink sender url))
                ((if opt_truthy (mediaUrl payload)
                  then [nullish (mediaUrl payload) []] else [])
                 ++ nullish (mediaUrls payload) []).
Proof.
  unfold deliver.
  assert (Hmedia : forall h1,
             callsOf (fold_left
                        (fun hh url =>
                           snd (sendMedia remote config sender media_image (linkOnly url) hh))
                        (nullish (mediaUrls payload) [])
                        (if opt_truthy (mediaUrl payload)
                         then snd (sendMedia remote config sender media_image
                                     (linkOnly (nullish (mediaUrl payload) [])) h1)
                         else h1))
             = callsOf h1
               ++ map (fun url => messagesCall config (imageLink sender url))
                      ((if opt_truthy (mediaUrl payload)
                        then [nullish (mediaUrl payload) []] else [])
                       ++ nullish (mediaUrls payload) [])).
  { intros h1. rewrite sendMedia_each_calls.
    destruct (opt_truthy (mediaUrl payload)); [|reflexivity].
    unfold sendMedia. rewrite sendRequest_calls, <- app_assoc. reflexivity. }
  destruct (opt_truthy (reply_text payload)) eqn:Etext.
  - destruct (sendText_calls remote config sender (nullish (reply_text payload) []) h)
      as (r & h1 & sent & -> & Hne & Hcalls).
    cbn [option_map snd]. eexists. exists sent. split; [reflexivity|]. split.
    + split; [reflexivity | intros _; exact Hne].
    + rewrite Hmedia, Hcalls, <- app_assoc. reflexivity.
  - eexists. exists []. split; [reflexivity|]. split.
    + split; [congruence | discriminate].
    + rewrite Hmedia. reflexivity.
Qed.

(** X22.  The outbound adapter throws, without sending anything, when
    the runtime was never set or when [accessToken] or [phoneNumberId]
    resolves to the empty string.  Otherwise it sends the text, and
    returns the id of the last sent chunk (["unknown"] when the answer
    carried none) if the send succeeded, and throws with the error of
    the failed send if not. *)
Theorem outbound_sendText_outcome
    (runtimeSet : bool) (cfg : option HostConfig) (to_ text_ : jsstring) (h : History) :
  exists outcome h',
    outbound_sendText remote runtimeSet cfg to_ text_ h = Some (outcome, h')
    /\ (runtimeSet = false \/ accessToken (resolveConfig cfg) = []
        \/ phoneNumberId (resolveConfig cfg) = [] ->
        h' = h /\ exists message, outcome = Thrown message)
    /\ (runtimeSet = true /\ accessToken (resolveConfig cfg) <> []
        /\ phoneNumberId (resolveConfig cfg) <> [] ->
        exists r,
          Outbound.sendText remote (resolveConfig cfg) to_ text_ h = Some (r, h')
          /\ callsOf h' <> callsOf h
          /\ (ok r = true ->
              outcome = Returned {| channel := lit "whatsapp-cloud";
                                    delivered_messageId :=
                                      nullish (sent_messageId r) (lit "unknown");
                                    chatId := to_ |})
          /\ (ok r = false ->
              outcome = Thrown (lit "WhatsApp Cloud API send failed: "
                                ++ nullish (error r) (lit "undefined")))).
Proof.
  unfold outbound_sendText.
  destruct runtimeSet; cbn [negb].
  2:{ eexists. eexists. split; [reflexivity|]. split.
      - intros _. split; [reflexivity|]. eexists. reflexivity.
      - intros (H & _). discriminate. }
  destruct (accessToken (resolveConfig cfg)) as [|a at_] eqn:Eat; cbn [truthy negb orb].
  { eexists. eexists. split; [reflexivity|]. split.
    - intros _. split; [reflexivity|]. eexists. reflexivity.
    - intros (_ & H & _). contradiction. }
  destruct (phoneNumberId (resolveConfig cfg)) as [|p pn] eqn:Epn; cbn [truthy negb].
  { eexists. eexists. split; [reflexivity|]. split.
    - intros _. split; [reflexivity|]. eexists. reflexivity.
    - intros (_ & _ & H). contradiction. }
  destruct (sendText_calls remote (resolveConfig cfg) to_ text_ h)
    as (r & h' & sent & -> & Hne & Hcalls).
  exists (if negb (ok r)
          then Thrown (lit "WhatsApp Cloud API send failed: "
                       ++ nullish (error r) (lit "undefined"))
          else Returned {| channel := lit "whatsapp-cloud";
                           delivered_messageId :=
                             nullish (sent_messageId r) (lit "unknown");
                           chatId := to_ |}), h'.
  split; [destruct (ok r); reflexivity|]. split.
  - intros [H | [H | H]]; discriminate.
  - intros _. exists r. split; [reflexivity|]. split; [|split].
    + rewrite Hcalls. intros H. apply Hne.
      rewrite <- (app_nil_r (callsOf h)) in H at 2. apply app_inv_head in H.
      destruct sent; [reflexivity | discriminate].
    + intros ->. reflexivity.
    + intros ->. reflexivity.
Qed.

End PluginProperties.

Lemma outbound_sendText_outcome_witness :
  exists h',
    Plugin.outbound_sendText (Plugin.remoteSuccess (lit "wamid.sent123")) true
      (Some (Plugin.hostConfigOf makeConfig)) (lit "393491234567") (lit "Ciao!") []
    = Some (Plugin.Returned {| Plugin.channel := lit "whatsapp-cloud";
                               Plugin.delivered_messageId := lit "wamid.sent123";
                               Plugin.chatId := lit "393491234567" |}, h').
Proof.
  destruct (outbound_sendText_outcome (Plugin.remoteSuccess (lit "wamid.sent123")) true
              (Some (Plugin.hostConfigOf makeConfig)) (lit "393491234567") (lit "Ciao!") [])
    as (outcome & h' & Hrun & _ & Hready).
  destruct Hready as (r & Hsend & _ & Hok & _).
  { split; [reflexivity|]. split; discriminate. }
  exists h'. rewrite Hrun.
  vm_compute in Hsend. injection Hsend as <- _.
  rewrite (Hok eq_refl). reflexivity.
Defined.

(** ** Access control as the plugin reports it *)

Lemma whitespace_not_digit (c : Z) : isWhiteSpace c = true -> isDigit c = false.
Proof.
  intros E. destruct (isDigit c) eqn:D; [|reflexivity]. exfalso.
  unfold isDigit in D. apply andb_true_iff in D. rewrite !Z.leb_le in D.
  unfold isWhiteSpace in E.
  rewrite ?orb_true_iff, ?andb_true_iff, ?Z.leb_le, ?Z.eqb_eq in E. lia.
Qed.

Lemma normalizePhone_trimStart (s : jsstring) :
  normalizePhone (trimStart s) = normalizePhone s.
Proof.
  unfold normalizePhone. induction s as [|c s IH]; [reflexivity|].
  cbn [trimStart]. destruct (isWhiteSpace c) eqn:E; [|reflexivity].
  cbn [filter]. now rewrite (whitespace_not_digit c E).
Qed.

Lemma normalizePhone_trim (s : jsstring) : normalizePhone (trim s) = normalizePhone s.
Proof.
  unfold trim, trimEnd.
  rewrite <- (normalizePhone_trimStart s).
  generalize (trimStart s) as t. intros t.
  unfold normalizePhone at 1. rewrite filter_rev.
  fold (normalizePhone (trimStart (rev t))). rewrite normalizePhone_trimStart.
  unfold normalizePhone. now rewrite filter_rev, rev_involutive.
Qed.

Lemma normalizePhone_keeping_plus (s : jsstring) :
  normalizePhone (filter (fun c => isDigit c || (c =? 43)) s) = normalizePhone s.
Proof.
  unfold normalizePhone. induction s as [|c s IH]; [reflexivity|].
  cbn [filter]. destruct (isDigit c) eqn:D; cbn [orb].
  - cbn [filter]. now rewrite D, IH.
  - destruct (c =? 43); [cbn [filter]; rewrite D|]; exact IH.
Qed.

(** X23.  [security.isAllowed] and the listener decide alike when the
    host configuration has a channel section: a sender is allowed exactly
    when a message from that sender would be dispatched.  Without a
    channel section [isAllowed] lets everyone through. *)
Theorem isAllowed_agrees_with_listener
    (cfg : Plugin.HostConfig) (msg : IncomingMessage) (contacts : list WebhookContact) :
  (Plugin.channel_section cfg <> None ->
   (Plugin.isAllowed cfg (msg_from msg) = true
    <-> dispatched (processMessage msg contacts (Plugin.resolveConfig (Some cfg))) <> []))
  /\ (Plugin.channel_section cfg = None -> Plugin.isAllowed cfg (msg_from msg) = true).
Proof.
  unfold Plugin.isAllowed. split.
  - intros Hsection. rewrite processMessage_dispatched.
    unfold Plugin.resolveConfig.
    destruct (Plugin.channel_section cfg) as [section|]; [|contradiction].
    cbn [nullish dmPolicy allowFrom].
    destruct (Setup.p_dmPolicy section) as [[|]|]; cbn [nullish];
      try (split; [discriminate | reflexivity]).
    fold (normalizePhone (msg_from msg)).
    change (fun n : list Z => streq (filter isDigit n) (normalizePhone (msg_from msg)))
      with (fun n : list Z => streq (normalizePhone n) (normalizePhone (msg_from msg))).
    match goal with
    | |- ?a = true <-> (if negb ?b then _ else _) <> _ => change b with a; destruct a
    end; cbn [negb]; split; congruence.
  - intros ->. reflexivity.
Qed.

Lemma isAllowed_agrees_with_listener_witness :
  Plugin.isAllowed (Plugin.hostConfigOf (makeAllowlistConfig [lit "+39 349 123 4567"]))
    (lit "393491234567") = true
  <-> dispatched (processMessage (textMessage (lit "393491234567") (lit "Ciao")) []
                    (Plugin.resolveConfig
                       (Some (Plugin.hostConfigOf
                                (makeAllowlistConfig [lit "+39 349 123 4567"])))))
      <> [].
Proof.
  apply (proj1 (isAllowed_agrees_with_listener
                  (Plugin.hostConfigOf (makeAllowlistConfig [lit "+39 349 123 4567"]))
                  (textMessage (lit "393491234567") (lit "Ciao")) [])).
  discriminate.
Defined.

(** X24.  Formatting an allowlist does not change who is let through:
    for a sender id with at least one digit, the allowlist test gives the
    same answer on [formatAllowFrom allowFrom] as on [allowFrom].  (An
    entry without digits is formatted to the empty string, which matches
    a sender id without digits.) *)
Theorem formatAllowFrom_keeps_decisions (allowFrom : list jsstring) (sender : jsstring) :
  normalizePhone sender <> [] ->
  existsb (fun n => streq (normalizePhone n) (normalizePhone sender))
          (Plugin.formatAllowFrom allowFrom)
  = existsb (fun n => streq (normalizePhone n) (normalizePhone sender)) allowFrom.
Proof.
  intros Hsender. unfold Plugin.formatAllowFrom.
  induction allowFrom as [|entry entries IH]; [reflexivity|].
  cbn [map filter existsb]. rewrite <- IH.
  destruct (truthy (trim entry)) eqn:E; cbn [map existsb].
  - now rewrite normalizePhone_keeping_plus, normalizePhone_trim.
  - assert (Hentry : normalizePhone entry = []).
    { rewrite <- normalizePhone_trim. destruct (trim entry); [reflexivity | discriminate]. }
    rewrite Hentry.
    assert (Hno : streq [] (normalizePhone sender) = false)
      by (apply streq_false_iff; congruence).
    now rewrite Hno.
Qed.

Lemma formatAllowFrom_keeps_decisions_witness :
  existsb (fun n => streq (normalizePhone n) (normalizePhone (lit "393491234567")))
          (Plugin.formatAllowFrom [lit "  "; lit " +39 349-123 4567 "])
  = existsb (fun n => streq (normalizePhone n) (normalizePhone (lit "393491234567")))
            [lit "  "; lit " +39 349-123 4567 "].
Proof.
  apply (formatAllowFrom_keeps_decisions
           [lit "  "; lit " +39 349-123 4567 "] (lit "393491234567")).
  discriminate.
Defined.

(** ** Starting the gateway *)

(** X25.  [gateway.start] launches the webhook server exactly when the
    channel is enabled and both [phoneNumberId] and [accessToken] resolve
    to non-empty strings, and then with the resolved configuration, once.
    A missing [appSecret] does not prevent the launch; it is reported as
    a warning, and warnings are logged only when the server is launched. *)
Theorem gateway_start_launches_iff_configured (cfg : option Plugin.HostConfig) :
  (forall c,
      In (Plugin.ServerStarted c) (Plugin.start cfg)
      <-> c = Plugin.resolveConfig cfg
          /\ enabled (Plugin.resolveConfig cfg) = true
          /\ phoneNumberId (Plugin.resolveConfig cfg) <> []
          /\ accessToken (Plugin.resolveConfig cfg) <> [])
  /\ (length (filter (fun e => match e with Plugin.ServerStarted _ => true | _ => false end)
                     (Plugin.start cfg)) <= 1)%nat
  /\ (forall message,
        In (Plugin.StartLog LWarn message) (Plugin.start cfg) ->
        In (Plugin.ServerStarted (Plugin.resolveConfig cfg)) (Plugin.start cfg))
  /\ (In (Plugin.ServerStarted (Plugin.resolveConfig cfg)) (Plugin.start cfg) ->
      appSecret (Plugin.resolveConfig cfg) = [] ->
      exists message, In (Plugin.StartLog LWarn message) (Plugin.start cfg)).
Proof.
  unfold Plugin.start. cbv zeta.
  generalize (Plugin.resolveConfig cfg) as config. intros config.
  destruct (enabled config) eqn:Eenabled; cbn [negb].
  2:{ split; [|split; [|split]].
      - intros c. split.
        + intros [H | []]. discriminate.
        + intros (_ & H & _). discriminate.
      - cbn. lia.
      - intros message [H | []]. discriminate.
      - intros [H | []]. discriminate. }
  unfold Setup.validateConfig, Setup.asPartial.
  cbn [Setup.p_phoneNumberId Setup.p_accessToken Setup.p_appSecret Setup.p_verifyToken
       opt_truthy Setup.valid Setup.errors Setup.warnings].
  match goal with |- context [Nat.eqb (length ?e) 0] => set (errs := e) end.
  assert (Herrs : errs = [] <-> phoneNumberId config <> [] /\ accessToken config <> []).
  { subst errs. destruct (phoneNumberId config), (accessToken config);
      cbn; split; try discriminate; try (intros (H1 & H2); congruence).
    intros _. split; discriminate. }
  destruct errs as [|e errs'] eqn:Eerrs; cbn [length Nat.eqb negb].
  - destruct (proj1 Herrs eq_refl) as (Hpn & Hat).
    assert (Hstarted : forall l1 l2,
               In (Plugin.ServerStarted config)
                  (l1 ++ (Plugin.ServerStarted config :: l2))).
    { intros l1 l2. apply in_or_app. right. now left. }
    assert (Hpolicy : forall c,
               ~ In (Plugin.ServerStarted c)
                    match dmPolicy config with
                    | policy_allowlist =>
                        [Plugin.StartLog LInfo
                           (lit "[whatsapp-cloud]   Allowed: "
                            ++ (if truthy (join (lit ", ") (allowFrom config))
                                then join (lit ", ") (allowFrom config)
                                else lit "(none)"))]
                    | policy_open => []
                    end).
    { intros c. destruct (dmPolicy config); [intros [] | intros [H | []]; discriminate]. }
    split; [|split; [|split]].
    + intros c. split.
      * intros H. apply in_app_iff in H as [H | H].
        { apply in_map_iff in H as (x & Hx & _). discriminate. }
        apply in_app_iff in H as [H | H]; [|now apply Hpolicy in H].
        destruct H as [H | [H | [H | [H | []]]]]; try discriminate.
        injection H as <-. repeat split; assumption.
      * intros (-> & _). rewrite app_assoc. apply in_or_app. left. apply Hstarted.
    + rewrite !filter_app, !length_app.
      match goal with
      | |- (length (filter ?f (map ?g ?l)) + _ <= 1)%nat =>
          replace (filter f (map g l)) with (@nil Plugin.StartEvent)
      end.
      2:{ destruct (truthy (appSecret config)), (truthy (verifyToken config)); reflexivity. }
      destruct (dmPolicy config); cbn; lia.
    + intros message _. rewrite app_assoc. apply in_or_app. left. apply Hstarted.
    + intros _ Hsecret. rewrite Hsecret. cbn [truthy negb app map].
      eexists. left. reflexivity.
  - assert (Hall : forall x,
               In x (map (fun err => Plugin.StartLog LError
                                       (lit "[whatsapp-cloud] Config error: " ++ err))
                         (e :: errs')
                     ++ [Plugin.StartLog LError
                           (lit "[whatsapp-cloud] Run 'openclaw channels login whatsapp-cloud' to configure")]) ->
               exists m, x = Plugin.StartLog LError m).
    { intros x H. apply in_app_iff in H as [H | [<- | []]];
        [apply in_map_iff in H as (y & <- & _)|]; eexists; reflexivity. }
    split; [|split; [|split]].
    + intros c. split.
      * intros H. destruct (Hall _ H) as (m & Hm). discriminate.
      * intros (_ & _ & H). apply Herrs in H. discriminate.
    + match goal with
      | |- (length (filter ?f ?l) <= 1)%nat =>
          replace (filter f l) with (@nil Plugin.StartEvent); [cbn; lia|]
      end.
      symmetry.
      match goal with |- filter ?f ?l = [] => generalize dependent l end.
      intros l. induction l as [|x l IH]; intros Hl; [reflexivity|].
      cbn [filter]. destruct (Hl x (or_introl eq_refl)) as (m & ->).
      apply IH. intros y Hy. apply Hl. now right.
    + intros message H. destruct (Hall _ H) as (m & Hm). discriminate.
    + intros H. destruct (Hall _ H) as (m & Hm). discriminate.
Qed.

Lemma gateway_start_launches_iff_configured_witness :
  In (Plugin.ServerStarted makeConfig) (Plugin.start (Some (Plugin.hostConfigOf makeConfig)))
  /\ ~ In (Plugin.ServerStarted (Plugin.resolveConfig None)) (Plugin.start None).
Proof.
  split.
  - apply (proj1 (gateway_start_launches_iff_configured
                    (Some (Plugin.hostConfigOf makeConfig)))).
    split; [reflexivity|]. split; [reflexivity|]. split; discriminate.
  - intros H.
    apply (proj1 (gateway_start_launches_iff_configured None)) in H
      as (_ & _ & Hpn & _).
    apply Hpn. reflexivity.
Defined.

(** ** src/setup.ts: validation *)

(** X26.  [validateConfig] accepts a configuration exactly when
    [phoneNumberId] and [accessToken] are both present and non-empty, a
    missing field counting as an empty one.  There is one error per
    missing field; [appSecret] and [verifyToken] only produce warnings,
    and have no effect on validity. *)
Theorem validateConfig_valid_iff (config : Setup.PartialConfig) :
  (Setup.valid (Setup.validateConfig config) = true
   <-> (exists pn, Setup.p_phoneNumberId config = Some pn /\ pn <> [])
       /\ (exists token, Setup.p_accessToken config = Some token /\ token <> []))
  /\ (Setup.valid (Setup.validateConfig config) = true
      <-> Setup.errors (Setup.validateConfig config) = [])
  /\ length (Setup.errors (Setup.validateConfig config))
     = ((if opt_truthy (Setup.p_phoneNumberId config) then 0 else 1)
        + (if opt_truthy (Setup.p_accessToken config) then 0 else 1))%nat
  /\ length (Setup.warnings (Setup.validateConfig config))
     = ((if opt_truthy (Setup.p_appSecret config) then 0 else 1)
        + (if opt_truthy (Setup.p_verifyToken config) then 0 else 1))%nat
  /\ (forall config',
        Setup.p_phoneNumberId config' = Setup.p_phoneNumberId config ->
        Setup.p_accessToken config' = Setup.p_accessToken config ->
        Setup.valid (Setup.validateConfig config')
        = Setup.valid (Setup.validateConfig config)).
Proof.
  unfold Setup.validateConfig. cbn [Setup.valid Setup.errors Setup.warnings].
  split; [|split; [|split; [|split]]].
  - destruct (Setup.p_phoneNumberId config) as [[|p pn]|];
      destruct (Setup.p_accessToken config) as [[|a token]|];
      cbn; split; try discriminate;
      try (intros ((pn' & H1 & H2) & (token' & H3 & H4)); congruence).
    intros _. split; eexists; (split; [reflexivity | discriminate]).
  - destruct (opt_truthy (Setup.p_phoneNumberId config)),
      (opt_truthy (Setup.p_accessToken config)); cbn [negb app length Nat.eqb];
      split; intros H; (reflexivity || discriminate H).
  - destruct (opt_truthy (Setup.p_phoneNumberId config)),
      (opt_truthy (Setup.p_accessToken config)); reflexivity.
  - destruct (opt_truthy (Setup.p_appSecret config)),
      (opt_truthy (Setup.p_verifyToken config)); reflexivity.
  - intros config' -> ->. reflexivity.
Qed.

Lemma validateConfig_valid_iff_witness :
  Setup.valid (Setup.validateConfig (Setup.asPartial makeConfigWithoutSecret)) = true
  /\ Setup.valid (Setup.validateConfig Plugin.emptyPartial) = false.
Proof.
  split.
  - apply (proj1 (validateConfig_valid_iff (Setup.asPartial makeConfigWithoutSecret))).
    split; eexists; (split; [reflexivity | discriminate]).
  - destruct (Setup.valid (Setup.validateConfig Plugin.emptyPartial)) eqn:E; [|reflexivity].
    apply (proj1 (validateConfig_valid_iff Plugin.emptyPartial)) in E
      as ((pn & H & _) & _).
    discriminate.
Defined.
